(** * float16: a shallow embedding of the half-precision package

    The Go package stores a half-precision value in a [uint16] and works on
    it with masks and shifts.  The embedding keeps that view: a [Float16] is
    an integer of [Z], the 16-bit range is a side condition ([uint16]), and
    every place where Go wraps around ([<<] on a [uint16], a conversion
    [uint16(x)] of an [int]) is written out with [u16] or [u32].

    A [float32] is modelled by its bit pattern ([math.Float32bits]); the
    three float32 operators the package uses are given in module [F32].

    Layout of the file: machine integers, types.go, float32, convert.go,
    arithmetic.go, then the properties. *)

From Stdlib Require Import ZArith Bool List String Lia QArith.
Import ListNotations.

Local Open Scope Z_scope.

(** ** Machine integers *)

Definition u16 (x : Z) : Z := Z.land x 0xFFFF.
Definition u32 (x : Z) : Z := Z.land x 0xFFFFFFFF.

Definition uint16 (x : Z) : Prop := 0 <= x < 65536.
Definition uint32 (x : Z) : Prop := 0 <= x < 4294967296.

(** [bits.Len16] / [bits.Len32]: the number of bits needed to write [x];
    0 for 0. *)
Definition bits_Len (x : Z) : Z := if x =? 0 then 0 else Z.log2 x + 1.

(** [bits.LeadingZeros16]. *)
Definition bits_LeadingZeros16 (x : Z) : Z := 16 - bits_Len x.

(** A Go function either returns or panics at run time (here: a shift by a
    negative count). *)
Inductive Exec (A : Type) : Type :=
| Ret (a : A)
| Panic.
Arguments Ret {A} a.
Arguments Panic {A}.

Definition bind {A B : Type} (m : Exec A) (k : A -> Exec B) : Exec B :=
  match m with
  | Ret a => k a
  | Panic => Panic
  end.

Notation "x <- m ;; k" := (bind m (fun x => k))
  (at level 61, m at next level, right associativity).

(** [x << n] on a [uint16] with a signed, non-constant count. *)
Definition shl16 (x n : Z) : Exec Z :=
  if n <? 0 then Panic else Ret (u16 (Z.shiftl x n)).

(** ** types.go *)

Definition Float16 := Z.

Definition SignMask : Z := 0x8000.
Definition ExponentMask : Z := 0x7C00.
Definition MantissaMask : Z := 0x03FF.
Definition MantissaLen : Z := 10.
Definition ExponentLen : Z := 5.
Definition ExponentBias : Z := 15.
Definition ExponentMax : Z := 31.
Definition ExponentMin : Z := 0.
Definition ExponentNormalMin : Z := 1.
Definition ExponentNormalMax : Z := 30.
Definition Float32ExponentBias : Z := 127.
Definition Float32ExponentLen : Z := 8.
Definition Float32MantissaLen : Z := 23.
Definition ExponentZero : Z := 0.
Definition ExponentInfinity : Z := 31.

Definition PositiveZero : Float16 := 0x0000.
Definition NegativeZero : Float16 := 0x8000.
Definition PositiveInfinity : Float16 := 0x7C00.
Definition NegativeInfinity : Float16 := 0xFC00.
Definition MaxValue : Float16 := 0x7BFF.
Definition MinValue : Float16 := 0xFBFF.
Definition SmallestNormal : Float16 := 0x0400.
Definition LargestSubnormal : Float16 := 0x03FF.
Definition SmallestSubnormal : Float16 := 0x0001.
Definition QuietNaN : Float16 := 0x7E00.
Definition SignalingNaN : Float16 := 0x7D00.
Definition NegativeQNaN : Float16 := 0xFE00.

Inductive ConversionMode : Type :=
| ModeIEEE
| ModeStrict
| ModeFast
| ModeExact.

Inductive RoundingMode : Type :=
| RoundNearestEven
| RoundNearestAway
| RoundTowardZero
| RoundTowardPositive
| RoundTowardNegative.

Inductive ErrorCode : Type :=
| ErrOverflow
| ErrUnderflow
| ErrInvalidOperation
| ErrDivisionByZero
| ErrInexact
| ErrNaN
| ErrInfinity.

(** [Float16Error]; [Value] is the offending float32 (its bits) when the
    code sets it. *)
Record Float16Error : Type := mkError {
  Op : string;
  Value : option Z;
  Msg : string;
  Code : ErrorCode
}.

Definition IsZero (f : Float16) : bool :=
  Z.land f 0x7FFF =? 0.

Definition IsInf (f : Float16) (sign : Z) : bool :=
  if negb (Z.land f 0x7FFF =? PositiveInfinity) then false
  else if sign =? 0 then true
  else Bool.eqb (sign >? 0) (Z.land f SignMask =? 0).

Definition IsNaN (f : Float16) : bool :=
  let exp := Z.shiftr (Z.land f ExponentMask) MantissaLen in
  let mant := Z.land f MantissaMask in
  (exp =? ExponentInfinity) && negb (mant =? 0).

Definition IsFinite (f : Float16) : bool :=
  let exp := Z.shiftr (Z.land f ExponentMask) MantissaLen in
  negb (exp =? ExponentInfinity).

Definition IsNormal (f : Float16) : bool :=
  let exp := Z.shiftr (Z.land f ExponentMask) MantissaLen in
  negb (exp =? ExponentZero) && negb (exp =? ExponentInfinity).

Definition IsSubnormal (f : Float16) : bool :=
  let exp := Z.shiftr (Z.land f ExponentMask) MantissaLen in
  let mant := Z.land f MantissaMask in
  (exp =? ExponentZero) && negb (mant =? 0).

Definition Sign (f : Float16) : Z :=
  if IsZero f then 0
  else if negb (Z.land f SignMask =? 0) then -1
  else 1.

Definition Signbit (f : Float16) : bool :=
  negb (Z.land f SignMask =? 0).

Definition Abs (f : Float16) : Float16 :=
  Z.land f 0x7FFF.

Definition Neg (f : Float16) : Float16 :=
  Z.lxor f SignMask.

Definition CopySign (f sign : Float16) : Float16 :=
  Z.lor (Z.land f 0x7FFF) (Z.land sign SignMask).

Inductive FloatClass : Type :=
| ClassSignalingNaN
| ClassQuietNaN
| ClassNegativeInfinity
| ClassNegativeNormal
| ClassNegativeSubnormal
| ClassNegativeZero
| ClassPositiveZero
| ClassPositiveSubnormal
| ClassPositiveNormal
| ClassPositiveInfinity.

Definition Class (f : Float16) : FloatClass :=
  if IsNaN f then
    if Z.land f 0x0200 =? 0 then ClassSignalingNaN else ClassQuietNaN
  else
    let sign := Signbit f in
    if IsInf f 0 then
      if sign then ClassNegativeInfinity else ClassPositiveInfinity
    else if IsZero f then
      if sign then ClassNegativeZero else ClassPositiveZero
    else if IsSubnormal f then
      if sign then ClassNegativeSubnormal else ClassPositiveSubnormal
    else
      if sign then ClassNegativeNormal else ClassPositiveNormal.

Definition extractComponents (f : Float16) : Z * Z * Z :=
  let bits := f in
  (Z.shiftr (Z.land bits SignMask) 15,
   Z.shiftr (Z.land bits ExponentMask) MantissaLen,
   Z.land bits MantissaMask).

Definition packComponents (sign exp mant : Z) : Float16 :=
  Z.lor (Z.lor (u16 (Z.shiftl sign 15)) (u16 (Z.shiftl exp MantissaLen)))
        (Z.land mant MantissaMask).

(** [leadingZeros10]: the source shifts the mantissa to the top of the
    16-bit word and then still subtracts 6. *)
Definition leadingZeros10 (x : Z) : Z :=
  if x =? 0 then 10
  else bits_LeadingZeros16 (u16 (Z.shiftl x 6)) - 6.

(** The classes as the table of the data model gives them, from the three
    fields read arithmetically: sign = bit 15, exponent = bits 14..10,
    mantissa = bits 9..0; a NaN is quiet when mantissa bit 9 is set. *)
Definition table_class (f : Float16) : FloatClass :=
  let s := f / 32768 in
  let e := (f / 1024) mod 32 in
  let m := f mod 1024 in
  if e =? 31 then
    if m =? 0 then (if s =? 0 then ClassPositiveInfinity else ClassNegativeInfinity)
    else if m <? 512 then ClassSignalingNaN else ClassQuietNaN
  else if e =? 0 then
    if m =? 0 then (if s =? 0 then ClassPositiveZero else ClassNegativeZero)
    else (if s =? 0 then ClassPositiveSubnormal else ClassNegativeSubnormal)
  else (if s =? 0 then ClassPositiveNormal else ClassNegativeNormal).

Definition FloatClass_eqb (a b : FloatClass) : bool :=
  match a, b with
  | ClassSignalingNaN, ClassSignalingNaN
  | ClassQuietNaN, ClassQuietNaN
  | ClassNegativeInfinity, ClassNegativeInfinity
  | ClassNegativeNormal, ClassNegativeNormal
  | ClassNegativeSubnormal, ClassNegativeSubnormal
  | ClassNegativeZero, ClassNegativeZero
  | ClassPositiveZero, ClassPositiveZero
  | ClassPositiveSubnormal, ClassPositiveSubnormal
  | ClassPositiveNormal, ClassPositiveNormal
  | ClassPositiveInfinity, ClassPositiveInfinity => true
  | _, _ => false
  end.

Definition is_nan_class (c : FloatClass) : bool :=
  match c with ClassSignalingNaN | ClassQuietNaN => true | _ => false end.
Definition is_inf_class (c : FloatClass) : bool :=
  match c with ClassPositiveInfinity | ClassNegativeInfinity => true | _ => false end.
Definition is_zero_class (c : FloatClass) : bool :=
  match c with ClassPositiveZero | ClassNegativeZero => true | _ => false end.
Definition is_subnormal_class (c : FloatClass) : bool :=
  match c with ClassPositiveSubnormal | ClassNegativeSubnormal => true | _ => false end.
Definition is_normal_class (c : FloatClass) : bool :=
  match c with ClassPositiveNormal | ClassNegativeNormal => true | _ => false end.

(** ** Checking a property on every 16-bit pattern *)

(** [all_prefix n p P] checks [P] on the [2^n] integers whose bits above
    position [n] are those of [p]. *)
Fixpoint all_prefix (n : nat) (p : Z) (P : Z -> bool) : bool :=
  match n with
  | O => P p
  | S k => all_prefix k (2 * p) P && all_prefix k (2 * p + 1) P
  end.

Definition all_uint16 (P : Z -> bool) : bool := all_prefix 16 0 P.

(** ** float32

    A [float32] is its 32-bit pattern.  The package reads it through
    [math.Float32bits] and a few predicates of [math]; Fast mode and the
    multiply and divide paths use Go's [+], [*] and [/] on [float32], which
    are the IEEE 754 binary32 operations with round-to-nearest-even.  They
    are written here on the exact value [sig * 2^ex] of a finite pattern. *)

Module F32.

Definition sign (b : Z) : Z := Z.shiftr b 31.
Definition expo (b : Z) : Z := Z.land (Z.shiftr b 23) 0xFF.
Definition frac (b : Z) : Z := Z.land b 0x7FFFFF.

(** [f32 == 0.0] *)
Definition is_zero (b : Z) : bool := Z.land b 0x7FFFFFFF =? 0.
(** [math.IsInf(float64(f32), 0)] *)
Definition is_inf (b : Z) : bool := Z.land b 0x7FFFFFFF =? 0x7F800000.
(** [math.IsNaN(float64(f32))] *)
Definition is_nan (b : Z) : bool := (expo b =? 255) && negb (frac b =? 0).
(** [math.Signbit(float64(f32))] *)
Definition signbit (b : Z) : bool := negb (sign b =? 0).
(** [f32 > 0] *)
Definition gt0 (b : Z) : bool :=
  negb (is_nan b) && negb (is_zero b) && (sign b =? 0).

Definition zero (s : Z) : Z := Z.shiftl s 31.
Definition inf (s : Z) : Z := Z.lor (Z.shiftl s 31) 0x7F800000.

(** The NaN an invalid operation produces.  Its sign bit depends on the
    processor (set on amd64, clear on arm64); the amd64 pattern is used and
    nothing below depends on the choice. *)
Definition default_nan : Z := 0xFFC00000.
Definition quiet (b : Z) : Z := Z.lor b 0x00400000.

(** A finite pattern has the value [(-1)^sign * sig * 2^ex]. *)
Definition sig (b : Z) : Z := if expo b =? 0 then frac b else frac b + 2 ^ 23.
Definition ex (b : Z) : Z := if expo b =? 0 then -149 else expo b - 150.

(** [m / 2^sh] rounded to the nearest integer, ties to even ([m * 2^-sh]
    exactly when [sh <= 0]). *)
Definition rne_shift (m sh : Z) : Z :=
  if sh <=? 0 then Z.shiftl m (- sh)
  else
    let q := Z.shiftr m sh in
    let r := Z.land m (Z.ones sh) in
    let half := Z.shiftl 1 (sh - 1) in
    if (half <? r) || ((r =? half) && Z.odd q) then q + 1 else q.

(** The float32 nearest to [(-1)^s * m * 2^e] for [m >= 0]: the quantum is
    [2^(E-23)] for a leading bit at [2^E], never below [2^-149]. *)
Definition round_pack (s m e : Z) : Z :=
  if m =? 0 then zero s
  else
    let q := Z.max (e + Z.log2 m - 23) (-149) in
    let M := rne_shift m (q - e) in
    let '(M, q) := if M =? 2 ^ 24 then (2 ^ 23, q + 1) else (M, q) in
    if M <? 2 ^ 23 then Z.lor (zero s) M
    else
      let be := q + 150 in
      if 255 <=? be then inf s
      else Z.lor (zero s) (Z.lor (Z.shiftl be 23) (M - 2 ^ 23)).

Definition nan_of (a b : Z) : Z := if is_nan a then quiet a else quiet b.

Definition mul (a b : Z) : Z :=
  let s := Z.lxor (sign a) (sign b) in
  if is_nan a || is_nan b then nan_of a b
  else if is_inf a || is_inf b then
    if is_zero a || is_zero b then default_nan else inf s
  else round_pack s (sig a * sig b) (ex a + ex b).

Definition div (a b : Z) : Z :=
  let s := Z.lxor (sign a) (sign b) in
  if is_nan a || is_nan b then nan_of a b
  else if is_inf a then (if is_inf b then default_nan else inf s)
  else if is_inf b then zero s
  else if is_zero b then (if is_zero a then default_nan else inf s)
  else
    (* 64 extra quotient bits, and a last bit that records a remainder *)
    let n := Z.shiftl (sig a) 64 in
    let q := n / sig b in
    let sticky := if n mod sig b =? 0 then 0 else 1 in
    round_pack s (2 * q + sticky) (ex a - ex b - 65).

Definition add (a b : Z) : Z :=
  if is_nan a || is_nan b then nan_of a b
  else if is_inf a then
    (if is_inf b && negb (sign a =? sign b) then default_nan else a)
  else if is_inf b then b
  else
    let e := Z.min (ex a) (ex b) in
    let va := (if sign a =? 0 then 1 else -1) * Z.shiftl (sig a) (ex a - e) in
    let vb := (if sign b =? 0 then 1 else -1) * Z.shiftl (sig b) (ex b - e) in
    let v := va + vb in
    if v =? 0 then
      (* an exact zero sum is +0 unless both operands are -0 *)
      (if is_zero a && is_zero b then zero (Z.land (sign a) (sign b)) else zero 0)
    else round_pack (if v <? 0 then 1 else 0) (Z.abs v) e.

(** [a < b] on [float32]: false with a NaN operand, and otherwise the order
    of the signed magnitudes (the two zeros are equal). *)
Definition ord (b : Z) : Z :=
  let mag := Z.land b 0x7FFFFFFF in
  if sign b =? 0 then mag else - mag.

Definition lt (a b : Z) : bool :=
  negb (is_nan a) && negb (is_nan b) && (ord a <? ord b).

(** [float32(i)] for an integer [i]: the nearest float32, ties to even. *)
Definition of_int (i : Z) : Z :=
  round_pack (if i <? 0 then 1 else 0) (Z.abs i) 0.

(** [int64(f)]: the value truncated toward zero.  For a NaN, an infinity or
    a value outside the 64-bit range the Go specification leaves the result
    to the implementation; [None] stands for that case. *)
Definition to_int64 (b : Z) : option Z :=
  if (expo b =? 255) then None
  else
    let mag := if 0 <=? ex b then Z.shiftl (sig b) (ex b)
               else Z.shiftr (sig b) (- ex b) in
    let v := if sign b =? 0 then mag else - mag in
    if (- 2 ^ 63 <=? v) && (v <? 2 ^ 63) then Some v else None.

End F32.

(** ** convert.go *)

Definition ConversionMode_eqb (a b : ConversionMode) : bool :=
  match a, b with
  | ModeIEEE, ModeIEEE | ModeStrict, ModeStrict
  | ModeFast, ModeFast | ModeExact, ModeExact => true
  | _, _ => false
  end.

(** [shouldRound]; [mantissa] is a [uint32], so the mask [(1 << shift) - 1]
    is computed in 32 bits.  The [default] branch of the switch needs a
    rounding mode outside the five constants and has no counterpart here. *)
Definition shouldRound (mantissa shift : Z) (mode : RoundingMode) : bool :=
  if shift <=? 0 then false
  else
    let discardedBits := Z.land mantissa (u32 (u32 (Z.shiftl 1 shift) - 1)) in
    let guardBit := Z.land (Z.shiftr mantissa (shift - 1)) 1 in
    match mode with
    | RoundNearestEven =>
        if guardBit =? 0 then false
        else
          let remainingBits :=
            Z.land discardedBits (u32 (u32 (Z.shiftl 1 (shift - 1)) - 1)) in
          if negb (remainingBits =? 0) then true
          else
            let resultLSB := Z.land (Z.shiftr mantissa shift) 1 in
            resultLSB =? 1
    | RoundNearestAway => guardBit =? 1
    | RoundTowardZero => false
    | RoundTowardPositive => negb (discardedBits =? 0)
    | RoundTowardNegative => false
    end.

Definition convert_error (f32 : Z) (msg : string) (code : ErrorCode)
  : Float16 * option Float16Error :=
  (0, Some (mkError "convert" (Some f32) msg code)).

(** The underflow branch of [ToFloat16WithMode] ([exp16 <= 0]).
    [mant32] comes without the implicit bit. *)
Definition narrow_underflow (f32 sign32 exp32 mant32 exp16 : Z)
    (convMode : ConversionMode) (roundMode : RoundingMode)
  : Float16 * option Float16Error :=
  let shift := 1 - exp16 in
  let mant32 := if negb (exp32 =? 0) then Z.lor mant32 0x800000 else mant32 in
  let totalShift := Float32ExponentBias - ExponentBias + 1 - 1 in
  let totalShift := totalShift + shift in
  if 24 <=? totalShift then
    if ConversionMode_eqb convMode ModeStrict || ConversionMode_eqb convMode ModeExact
    then convert_error f32 "underflow: value too small for float16" ErrUnderflow
    else if negb (sign32 =? 0) then (NegativeZero, None)
    else (PositiveZero, None)
  else
    let extraBits :=
      if 22 <? totalShift then 0 else if 21 <? totalShift then 1 else 2 in
    let mant32 :=
      if negb (mant32 =? 0) && negb (exp32 =? 0) then Z.lor mant32 0x800000
      else mant32 in
    let mant16 :=
      if negb (mant32 =? 0) then u16 (Z.shiftr mant32 (totalShift - extraBits))
      else 0 in
    let roundBit :=
      if extraBits <? totalShift
      then Z.land (Z.shiftr mant32 (totalShift - extraBits - 1)) 1
      else 0 in
    let stickyBit :=
      if extraBits + 1 <? totalShift then
        let stickyMask := u32 (u32 (Z.shiftl 1 (totalShift - extraBits - 1)) - 1) in
        if negb (Z.land mant32 stickyMask =? 0) then 1 else 0
      else 0 in
    let mant16 :=
      if shouldRound mant16 (Z.lor roundBit stickyBit) roundMode then
        let mant16 := u16 (mant16 + 1) in
        if 0x3FF <? mant16 then 0x200 else mant16
      else mant16 in
    let exp16 := 0 in
    if 0x400 <=? mant16 then
      let exp16 := 1 in
      let mant16 := Z.shiftr mant16 1 in
      if mant16 <? 0x400 then (packComponents (u16 sign32) (u16 exp16) mant16, None)
      else
        let mant16 := Z.shiftr mant16 1 in
        let exp16 := exp16 + 1 in
        (packComponents (u16 sign32) (u16 exp16) mant16, None)
    else (packComponents (u16 sign32) (u16 exp16) mant16, None).

(** The normal branch of [ToFloat16WithMode] ([0 < exp16 < 31]). *)
Definition narrow_normal (f32 sign32 mant32 exp16 : Z)
    (convMode : ConversionMode) (roundMode : RoundingMode)
  : Float16 * option Float16Error :=
  let mant16 := Z.shiftr mant32 (Float32MantissaLen - MantissaLen) in
  if shouldRound mant32 (Float32MantissaLen - MantissaLen) roundMode then
    let mant16 := mant16 + 1 in
    if Z.shiftl 1 MantissaLen <=? mant16 then
      let mant16 := 0 in
      let exp16 := exp16 + 1 in
      if ExponentInfinity <=? exp16 then
        if ConversionMode_eqb convMode ModeStrict || ConversionMode_eqb convMode ModeExact
        then convert_error f32 "overflow after rounding" ErrOverflow
        else if negb (sign32 =? 0) then (NegativeInfinity, None)
        else (PositiveInfinity, None)
      else (packComponents (u16 sign32) (u16 exp16) (u16 mant16), None)
    else (packComponents (u16 sign32) (u16 exp16) (u16 mant16), None)
  else (packComponents (u16 sign32) (u16 exp16) (u16 mant16), None).

Definition ToFloat16WithMode (f32 : Z) (convMode : ConversionMode)
    (roundMode : RoundingMode) : Float16 * option Float16Error :=
  if F32.is_zero f32 then
    let bits := f32 in
    if negb (Z.land bits (Z.shiftl 1 31) =? 0) then (NegativeZero, None)
    else (PositiveZero, None)
  else if F32.is_inf f32 then
    if ConversionMode_eqb convMode ModeStrict
    then (0, Some (mkError "convert" (Some f32)
                     "infinity not allowed in strict mode" ErrInfinity))
    else if F32.gt0 f32 then (PositiveInfinity, None)
    else (NegativeInfinity, None)
  else if F32.is_nan f32 then
    if ConversionMode_eqb convMode ModeStrict
    then (0, Some (mkError "convert" (Some f32)
                     "NaN not allowed in strict mode" ErrNaN))
    else if F32.signbit f32 then (NegativeQNaN, None)
    else (QuietNaN, None)
  else
    let bits := f32 in
    let sign32 := Z.shiftr bits 31 in
    let exp32 := Z.land (Z.shiftr bits 23) 0xFF in
    let mant32 := Z.land bits 0x7FFFFF in
    let isSubnormal := exp32 =? 0 in
    if isSubnormal && (mant32 =? 0) then
      if negb (sign32 =? 0) then (NegativeZero, None) else (PositiveZero, None)
    else
      let exp16 := exp32 - Float32ExponentBias + ExponentBias in
      if ExponentInfinity <=? exp16 then
        if ConversionMode_eqb convMode ModeStrict || ConversionMode_eqb convMode ModeExact
        then convert_error f32 "overflow: value too large for float16" ErrOverflow
        else if negb (sign32 =? 0) then (NegativeInfinity, None)
        else (PositiveInfinity, None)
      else if exp16 <=? 0 then
        narrow_underflow f32 sign32 exp32 mant32 exp16 convMode roundMode
      else
        narrow_normal f32 sign32 mant32 exp16 convMode roundMode.

(** [ToFloat32], on bit patterns ([math.Float32frombits]). *)
Definition ToFloat32 (f : Float16) : Z :=
  if IsZero f then
    if Signbit f then 0x80000000 else 0
  else if IsNaN f then
    let sign := if Signbit f then 0x80000000 else 0 in
    let payload := Z.land f MantissaMask in
    Z.lor (Z.lor sign 0x7FC00000)
          (u32 (Z.shiftl payload (Float32MantissaLen - MantissaLen)))
  else if IsInf f 0 then
    if Signbit f then F32.inf 1 else F32.inf 0
  else
    let '(sign, exp16, mant16) := extractComponents f in
    if exp16 =? 0 then
      if mant16 =? 0 then
        if negb (sign =? 0) then 0x80000000 else 0
      else
        let leadingZeros := leadingZeros10 mant16 in
        if (leadingZeros <? 0) || (9 <? leadingZeros) then
          if negb (sign =? 0) then 0x80000000 else 0
        else
          let shift := leadingZeros + 1 in
          let mant16 := u16 (Z.shiftl mant16 shift) in
          let mant16 := Z.land mant16 0x3FF in
          let exp32 := Float32ExponentBias - 15 + shift in
          if (exp32 <=? 0) || (255 <=? exp32) then
            if 255 <=? exp32 then
              if negb (sign =? 0) then F32.inf 1 else F32.inf 0
            else
              if negb (sign =? 0) then 0x80000000 else 0
          else
            let mant32 := u32 (Z.shiftl mant16 (Float32MantissaLen - MantissaLen)) in
            Z.lor (Z.lor (u32 (Z.shiftl sign 31)) (u32 (Z.shiftl exp32 23))) mant32
    else
      let exp32 := exp16 - ExponentBias + Float32ExponentBias in
      let mant32 := u32 (Z.shiftl mant16 (Float32MantissaLen - MantissaLen)) in
      Z.lor (Z.lor (u32 (Z.shiftl sign 31)) (u32 (Z.shiftl exp32 23))) mant32.

(** [ToFloat16], the conversion with the default behaviour.  [exp32] and
    [shift] are [uint32] here, and the sticky mask [(1 << (shift + 12)) - 1]
    is computed in 32 bits. *)
Definition ToFloat16 (f32 : Z) : Float16 :=
  if F32.is_zero f32 then
    if F32.signbit f32 then NegativeZero else PositiveZero
  else
    let bits := f32 in
    let sign := Z.land (Z.shiftr bits 31) 0x1 in
    let exp32 := Z.land (Z.shiftr bits 23) 0xFF in
    let mant32 := Z.land bits 0x007FFFFF in
    if exp32 =? 0xFF then
      if mant32 =? 0 then
        if negb (sign =? 0) then NegativeInfinity else PositiveInfinity
      else
        let nanMant := u16 (Z.land (Z.shiftr mant32 13) 0x03FF) in
        let nanMant := if nanMant =? 0 then 1 else nanMant in
        Z.lor (Z.lor (u16 (Z.shiftl (u16 sign) 15)) 0x7C00) nanMant
    else if exp32 <=? 112 then
      if exp32 <=? 101 then
        if negb (sign =? 0) then NegativeZero else PositiveZero
      else
        let shift := u32 (125 - exp32) in
        let mant32 := Z.lor mant32 0x00800000 in
        let mant16 := u16 (Z.land (Z.shiftr mant32 (shift + 13)) 0x03FF) in
        let roundBit := Z.land (Z.shiftr mant32 (shift + 12)) 0x1 in
        let stickyMask := u32 (u32 (Z.shiftl 1 (shift + 12)) - 1) in
        let stickyBit := if negb (Z.land mant32 stickyMask =? 0) then 1 else 0 in
        if negb (Z.lor roundBit stickyBit =? 0) then
          let mant16 := u16 (mant16 + 1) in
          if negb (Z.land mant16 0x0400 =? 0) then
            let mant16 := 0x0200 in
            let exp32 := 0x71 in
            Z.lor (Z.lor (u16 (Z.shiftl (u16 sign) 15))
                         (u16 (Z.shiftl (u16 (u32 (exp32 - 0x70))) 10)))
                  (Z.land mant16 0x03FF)
          else Z.lor (u16 (Z.shiftl (u16 sign) 15)) mant16
        else Z.lor (u16 (Z.shiftl (u16 sign) 15)) mant16
    else
      let exp16 := u32 (exp32 - 0x70) in
      if 0x1F <=? exp16 then
        if negb (sign =? 0) then NegativeInfinity else PositiveInfinity
      else
        let mant16 :=
          u16 (Z.shiftr (u32 (u32 (mant32 + 0x00000FFF)
                              + Z.land (Z.shiftr mant32 13) 1)) 13) in
        let '(mant16, exp16) :=
          if negb (Z.land mant16 0x0400 =? 0)
          then (Z.shiftr mant16 1, u32 (exp16 + 1))
          else (mant16, exp16) in
        if 0x1F <=? exp16 then
          if negb (sign =? 0) then NegativeInfinity else PositiveInfinity
        else
          Z.lor (Z.lor (u16 (Z.shiftl (u16 sign) 15))
                       (u16 (Z.shiftl (u16 exp16) 10)))
                (Z.land mant16 0x03FF).

(** [FromInt], [FromInt32] and [FromInt64] are all
    [ToFloat16(float32(i))]. *)
Definition FromInt (i : Z) : Float16 := ToFloat16 (F32.of_int i).

(** [ToInt], [ToInt32] and [ToInt64]: [int(f.ToFloat32())]. *)
Definition ToInt (f : Float16) : option Z := F32.to_int64 (ToFloat32 f).

(** ** arithmetic.go *)

Inductive ArithmeticMode : Type :=
| ModeIEEEArithmetic
| ModeFastArithmetic
| ModeExactArithmetic.

Definition ArithmeticMode_eqb (a b : ArithmeticMode) : bool :=
  match a, b with
  | ModeIEEEArithmetic, ModeIEEEArithmetic
  | ModeFastArithmetic, ModeFastArithmetic
  | ModeExactArithmetic, ModeExactArithmetic => true
  | _, _ => false
  end.

(** The package-level variables [DefaultArithmeticMode] and
    [DefaultRounding], read by [Add], [Sub], [Mul] and [Div]. *)
Record Globals : Type := mkGlobals {
  DefaultArithmeticMode : ArithmeticMode;
  DefaultRounding : RoundingMode
}.

Definition initial_globals : Globals :=
  mkGlobals ModeIEEEArithmetic RoundNearestEven.

Definition arith_error (op msg : string) (code : ErrorCode)
  : Float16 * option Float16Error :=
  (0, Some (mkError op None msg code)).

(** The normalisation of one operand in [addIEEE754] (the source has the
    same block for [a] and for [b]): a subnormal is shifted left by
    [leadingZeros10 + 1], a count that the source does not check for sign,
    and gets the exponent [uint16(1 - shift)]; a normal operand gets its
    implicit bit. *)
Definition add_normalize (exp mant : Z) : Exec (Z * Z) :=
  if (exp =? 0) && negb (mant =? 0) then
    let shift := leadingZeros10 mant in
    mant <- shl16 mant (shift + 1) ;;
    let mant := Z.land mant MantissaMask in
    Ret (u16 (1 - shift), mant)
  else if negb (exp =? 0) then
    Ret (exp, Z.lor mant (Z.shiftl 1 MantissaLen))
  else Ret (exp, mant).

(** [addIEEE754] from the alignment on, with the operands as the swap and
    the normalisation left them.  [a] is the first parameter of
    [addIEEE754]: the early return for an exponent difference of 24 or more
    hands back that parameter, whatever the swap did.  The [rounding]
    parameter of [addIEEE754] is not used by the source. *)
Definition add_aligned (a : Float16) (signA expA mantA signB expB mantB : Z)
  : Exec (Float16 * option Float16Error) :=
  let expDiff := expA - expB in
  if (0 <? expDiff) && (24 <=? expDiff) then Ret (a, None)
  else
    let mantB := if 0 <? expDiff then Z.shiftr mantB expDiff else mantB in
    let '(resultSign, resultMant) :=
      if signA =? signB then (signA, u32 (mantA + mantB))
      else if mantB <=? mantA then (signA, u32 (mantA - mantB))
      else (signB, u32 (mantB - mantA)) in
    let resultExp := expA in
    if resultMant =? 0 then Ret (PositiveZero, None)
    else
      let '(resultMant, resultExp) :=
        if Z.shiftl 1 (MantissaLen + 1) <=? resultMant
        then (Z.shiftr resultMant 1, resultExp + 1)
        else
          let leadingZeros := 31 - bits_Len resultMant in
          if 0 <? leadingZeros then
            let shift := leadingZeros - (31 - MantissaLen - 1) in
            if 0 <? shift
            then (u32 (Z.shiftl resultMant shift), resultExp - shift)
            else (resultMant, resultExp)
          else (resultMant, resultExp) in
      if ExponentInfinity <=? resultExp then
        if negb (resultSign =? 0) then Ret (NegativeInfinity, None)
        else Ret (PositiveInfinity, None)
      else if (resultExp <=? 0) && (24 <=? 1 - resultExp) then
        if negb (resultSign =? 0) then Ret (NegativeZero, None)
        else Ret (PositiveZero, None)
      else
        let '(resultMant, resultExp) :=
          if resultExp <=? 0
          then (Z.shiftr resultMant (1 - resultExp), 0)
          else (resultMant, resultExp) in
        let resultMant :=
          if 0 <? resultExp then Z.land resultMant MantissaMask else resultMant in
        Ret (packComponents resultSign (u16 resultExp) (u16 resultMant), None).

(** [addIEEE754] after the swap: both operands are normalised, then
    aligned and added. *)
Definition add_sorted (a : Float16) (signA expA mantA signB expB mantB : Z)
  : Exec (Float16 * option Float16Error) :=
  na <- add_normalize expA mantA ;;
  nb <- add_normalize expB mantB ;;
  add_aligned a signA (fst na) (snd na) signB (fst nb) (snd nb).

Definition addIEEE754 (a b : Float16) (rounding : RoundingMode)
  : Exec (Float16 * option Float16Error) :=
  let '(signA, expA, mantA) := extractComponents a in
  let '(signB, expB, mantB) := extractComponents b in
  (* "Ensure a has the larger magnitude": the six variables are swapped *)
  if (expA <? expB) || ((expA =? expB) && (mantA <? mantB))
  then add_sorted a signB expB mantB signA expA mantA
  else add_sorted a signA expA mantA signB expB mantB.

Definition mulIEEE754 (a b : Float16) (rounding : RoundingMode)
  : Float16 * option Float16Error :=
  let f32a := ToFloat32 a in
  let f32b := ToFloat32 b in
  let result := F32.mul f32a f32b in
  ToFloat16WithMode result ModeIEEE rounding.

Definition divIEEE754 (a b : Float16) (rounding : RoundingMode)
  : Float16 * option Float16Error :=
  let f32a := ToFloat32 a in
  let f32b := ToFloat32 b in
  let result := F32.div f32a f32b in
  ToFloat16WithMode result ModeExact rounding.

Definition AddWithMode (a b : Float16) (mode : ArithmeticMode)
    (rounding : RoundingMode) : Exec (Float16 * option Float16Error) :=
  if IsZero a then Ret (b, None)
  else if IsZero b then Ret (a, None)
  else if IsNaN a || IsNaN b then
    if ArithmeticMode_eqb mode ModeExactArithmetic
    then Ret (arith_error "add" "NaN operand in exact mode" ErrNaN)
    else Ret (QuietNaN, None)
  else if IsInf a 0 || IsInf b 0 then
    if IsInf a 1 && IsInf b (-1) then
      if ArithmeticMode_eqb mode ModeExactArithmetic
      then Ret (arith_error "add" "infinity - infinity is undefined"
                  ErrInvalidOperation)
      else Ret (QuietNaN, None)
    else if IsInf a (-1) && IsInf b 1 then
      if ArithmeticMode_eqb mode ModeExactArithmetic
      then Ret (arith_error "add" "infinity - infinity is undefined"
                  ErrInvalidOperation)
      else Ret (QuietNaN, None)
    else if IsInf a 0 then Ret (a, None)
    else Ret (b, None)
  else if ArithmeticMode_eqb mode ModeFastArithmetic then
    let f32a := ToFloat32 a in
    let f32b := ToFloat32 b in
    let result := F32.add f32a f32b in
    Ret (ToFloat16WithMode result ModeIEEE rounding)
  else addIEEE754 a b rounding.

(** [Add] drops the error: [result, _ := AddWithMode(...)]. *)
Definition Add (g : Globals) (a b : Float16) : Exec Float16 :=
  r <- AddWithMode a b (DefaultArithmeticMode g) (DefaultRounding g) ;;
  Ret (fst r).

Definition SubWithMode (a b : Float16) (mode : ArithmeticMode)
    (rounding : RoundingMode) : Exec (Float16 * option Float16Error) :=
  AddWithMode a (Neg b) mode rounding.

Definition signed (neg pos : Float16) (a b : Float16)
  : Float16 * option Float16Error :=
  if negb (Bool.eqb (Signbit a) (Signbit b)) then (neg, None) else (pos, None).

Definition MulWithMode (a b : Float16) (mode : ArithmeticMode)
    (rounding : RoundingMode) : Float16 * option Float16Error :=
  let aIsZero := IsZero a in
  let bIsInf := IsInf b 0 in
  if (aIsZero && bIsInf) || (IsInf a 0 && IsZero b) then
    if ArithmeticMode_eqb mode ModeExactArithmetic
    then arith_error "mul" "zero times infinity is undefined" ErrInvalidOperation
    else (QuietNaN, None)
  else if aIsZero || IsZero b then
    signed NegativeZero PositiveZero a b
  else if IsNaN a || IsNaN b then
    if ArithmeticMode_eqb mode ModeExactArithmetic
    then arith_error "mul" "NaN operand in exact mode" ErrNaN
    else (QuietNaN, None)
  else if IsInf a 0 || IsInf b 0 then
    if (IsInf a 0 && IsZero b) || (IsZero a && IsInf b 0) then
      if ArithmeticMode_eqb mode ModeExactArithmetic
      then arith_error "mul" "zero times infinity is undefined" ErrInvalidOperation
      else (QuietNaN, None)
    else signed NegativeInfinity PositiveInfinity a b
  else if ArithmeticMode_eqb mode ModeFastArithmetic then
    let f32a := ToFloat32 a in
    let f32b := ToFloat32 b in
    let result := F32.mul f32a f32b in
    ToFloat16WithMode result ModeIEEE rounding
  else mulIEEE754 a b rounding.

Definition Mul (g : Globals) (a b : Float16) : Float16 :=
  fst (MulWithMode a b (DefaultArithmeticMode g) (DefaultRounding g)).

Definition DivWithMode (a b : Float16) (mode : ArithmeticMode)
    (rounding : RoundingMode) : Float16 * option Float16Error :=
  if IsZero b then
    if IsZero a then
      if ArithmeticMode_eqb mode ModeExactArithmetic
      then arith_error "div" "zero divided by zero is undefined" ErrInvalidOperation
      else (QuietNaN, None)
    else if ArithmeticMode_eqb mode ModeExactArithmetic
    then arith_error "div" "division by zero" ErrDivisionByZero
    else signed NegativeInfinity PositiveInfinity a b
  else if IsZero a then
    signed NegativeZero PositiveZero a b
  else if IsInf a 0 || IsInf b 0 then
    if IsInf a 0 && IsInf b 0 then
      if ArithmeticMode_eqb mode ModeExactArithmetic
      then arith_error "div" "infinity divided by infinity is undefined"
             ErrInvalidOperation
      else (QuietNaN, None)
    else if IsInf a 0 then signed NegativeInfinity PositiveInfinity a b
    else signed NegativeZero PositiveZero a b
  else if IsNaN a || IsNaN b then
    if ArithmeticMode_eqb mode ModeExactArithmetic
    then arith_error "div" "NaN operand in exact mode" ErrNaN
    else (QuietNaN, None)
  else if IsInf a 0 && IsInf b 0 then
    if ArithmeticMode_eqb mode ModeExactArithmetic
    then arith_error "div" "infinity divided by infinity is undefined"
           ErrInvalidOperation
    else (QuietNaN, None)
  else if IsInf a 0 then signed NegativeInfinity PositiveInfinity a b
  else if IsInf b 0 then signed NegativeZero PositiveZero a b
  else if ArithmeticMode_eqb mode ModeFastArithmetic then
    let f32a := ToFloat32 a in
    let f32b := ToFloat32 b in
    let result := F32.div f32a f32b in
    ToFloat16WithMode result ModeIEEE rounding
  else divIEEE754 a b rounding.

Definition Div (g : Globals) (a b : Float16) : Float16 :=
  fst (DivWithMode a b (DefaultArithmeticMode g) (DefaultRounding g)).

(** Comparison operations. *)

Definition Equal (a b : Float16) : bool :=
  if IsNaN a || IsNaN b then false
  else if IsZero a && IsZero b then true
  else a =? b.

Definition Less (a b : Float16) : bool :=
  if IsNaN a || IsNaN b then false
  else if IsZero a && IsZero b then false
  else
    let signA := Signbit a in
    let signB := Signbit b in
    if signA && negb signB then true
    else if negb signA && signB then false
    else if signA then b <? a
    else a <? b.

Definition Greater (a b : Float16) : bool := Less b a.

Definition LessEqual (a b : Float16) : bool := Less a b || Equal a b.

Definition GreaterEqual (a b : Float16) : bool := Greater a b || Equal a b.

Definition Min (a b : Float16) : Float16 :=
  if IsNaN a then b
  else if IsNaN b then a
  else if Less a b then a
  else b.

Definition Max (a b : Float16) : Float16 :=
  if IsNaN a then b
  else if IsNaN b then a
  else if Greater a b then a
  else b.

(** Batch operations.  A length mismatch is a [panic]; the elements are
    combined from the first index on. *)
Fixpoint zip_exec (op : Float16 -> Float16 -> Exec Float16)
    (a b : list Float16) : Exec (list Float16) :=
  match a, b with
  | x :: a', y :: b' =>
      r <- op x y ;;
      rs <- zip_exec op a' b' ;;
      Ret (r :: rs)
  | _, _ => Ret []
  end.

Definition AddSlice (g : Globals) (a b : list Float16) : Exec (list Float16) :=
  if negb (Nat.eqb (List.length a) (List.length b)) then Panic
  else zip_exec (Add g) a b.

Definition MulSlice (g : Globals) (a b : list Float16) : Exec (list Float16) :=
  if negb (Nat.eqb (List.length a) (List.length b)) then Panic
  else zip_exec (fun x y => Ret (Mul g x y)) a b.

Definition DivSlice (g : Globals) (a b : list Float16) : Exec (list Float16) :=
  if negb (Nat.eqb (List.length a) (List.length b)) then Panic
  else zip_exec (fun x y => Ret (Div g x y)) a b.

Definition ScaleSlice (g : Globals) (s : list Float16) (scalar : Float16)
  : list Float16 :=
  map (fun x => Mul g x scalar) s.

Fixpoint sum_from (g : Globals) (sum : Float16) (s : list Float16)
  : Exec Float16 :=
  match s with
  | [] => Ret sum
  | v :: s' => sum' <- Add g sum v ;; sum_from g sum' s'
  end.

Definition SumSlice (g : Globals) (s : list Float16) : Exec Float16 :=
  sum_from g PositiveZero s.

(** ** float16.go *)

Definition Zero : Float16 := PositiveZero.
Definition One : Float16 := ToFloat16 0x3F800000.
Definition NaN : Float16 := QuietNaN.
Definition Inf (sign : Z) : Float16 :=
  if 0 <=? sign then PositiveInfinity else NegativeInfinity.

(** [NextAfter]; [bits++] and [bits--] are on a [uint16]. *)
Definition NextAfter (f g : Float16) : Float16 :=
  if IsNaN f || IsNaN g then QuietNaN
  else if Equal f g then g
  else if IsZero f then
    if Signbit g then 0x8001 else 0x0001
  else
    let bits := f in
    if Bool.eqb (F32.lt (ToFloat32 f) (ToFloat32 g)) (negb (Signbit f))
    then u16 (bits + 1)
    else u16 (bits - 1).

Definition FastAdd (a b : Float16) : Float16 :=
  ToFloat16 (F32.add (ToFloat32 a) (ToFloat32 b)).

Definition FastMul (a b : Float16) : Float16 :=
  ToFloat16 (F32.mul (ToFloat32 a) (ToFloat32 b)).

(** ** Definitions used by the statements *)

Definition class_check (f : Float16) : bool :=
  let c := Class f in
  FloatClass_eqb c (table_class f)
  && Bool.eqb (IsNaN f) (is_nan_class c)
  && Bool.eqb (IsInf f 0) (is_inf_class c)
  && Bool.eqb (IsZero f) (is_zero_class c)
  && Bool.eqb (IsSubnormal f) (is_subnormal_class c)
  && Bool.eqb (IsNormal f) (is_normal_class c)
  && Bool.eqb (IsFinite f) (negb (is_nan_class c || is_inf_class c)).

Definition signed_zero (negative : bool) : Float16 :=
  if negative then NegativeZero else PositiveZero.

Definition signed_infinity (negative : bool) : Float16 :=
  if negative then NegativeInfinity else PositiveInfinity.

Definition error_code (r : Float16 * option Float16Error) : option ErrorCode :=
  option_map Code (snd r).

Definition error_code_of (m : Exec (Float16 * option Float16Error))
  : option ErrorCode :=
  match m with
  | Ret r => error_code r
  | Panic => None
  end.

Local Open Scope Q_scope.

Definition pow2 (e : Z) : Q := Qpower (2 # 1) e.

Definition signQ (s : Z) : Q := if (s =? 0)%Z then 1 else - (1).

(** The value of a finite float32 pattern. *)
Definition f32_value (b : Z) : Q :=
  signQ (F32.sign b) * inject_Z (F32.sig b) * pow2 (F32.ex b).

(** The value of a finite half pattern, as the table of the data model
    gives it: [sign * (mantissa/1024) * 2^-14] for exponent 0 and
    [sign * (1 + mantissa/1024) * 2^(exponent-15)] for exponents 1..30. *)
Definition table_value (f : Float16) : Q :=
  let s := (f / 32768)%Z in
  let e := ((f / 1024) mod 32)%Z in
  let m := (f mod 1024)%Z in
  if (e =? 0)%Z then signQ s * (inject_Z m / 1024) * pow2 (-14)
  else signQ s * (1 + inject_Z m / 1024) * pow2 (e - 15).

Local Close Scope Q_scope.

(** Widening of a subnormal as the specification words it: the shift makes
    the leading set bit of the mantissa the implicit one, and the exponent
    field is [127 - 15 + 1 - shift]. *)
Definition widen_subnormal_spec (f : Float16) : Z :=
  let s := f / 32768 in
  let m := f mod 1024 in
  let shift := 10 - Z.log2 m in
  let mant := (m * 2 ^ shift) mod 1024 in
  let exp32 := 127 - 15 + 1 - shift in
  s * 2 ^ 31 + exp32 * 2 ^ 23 + mant * 2 ^ 13.

Definition no_error (r : Float16 * option Float16Error) : bool :=
  match snd r with None => true | Some _ => false end.

Definition roundtrip (v : Float16) : Float16 * option Float16Error :=
  ToFloat16WithMode (ToFloat32 v) ModeIEEE RoundNearestEven.

Definition is_identity_on (v : Float16) (r : Float16 * option Float16Error)
  : bool :=
  (fst r =? v) && no_error r.

Definition roundtrip_check (v : Float16) : bool :=
  IsNaN v || Bool.eqb (IsSubnormal v) (negb (is_identity_on v (roundtrip v))).

Definition widen_check (f : Float16) : bool :=
  if IsSubnormal f then
    Qeq_bool (f32_value (widen_subnormal_spec f)) (table_value f)
    && negb (Qeq_bool (f32_value (ToFloat32 f)) (table_value f))
  else if IsNormal f || IsZero f then
    Qeq_bool (f32_value (ToFloat32 f)) (table_value f)
  else true.

(** The exponent field and the mantissa field of a half pattern. *)
Definition exponent_field (f : Float16) : Z :=
  Z.shiftr (Z.land f ExponentMask) MantissaLen.

Definition mantissa_field (f : Float16) : Z := Z.land f MantissaMask.

Definition fields_check (f : Float16) : bool :=
  (0 <=? exponent_field f) && (exponent_field f <=? 31)
  && (0 <=? mantissa_field f) && (mantissa_field f <=? 1023)
  && Bool.eqb (IsZero f) ((exponent_field f =? 0) && (mantissa_field f =? 0))
  && Bool.eqb (IsZero f) ((f =? PositiveZero) || (f =? NegativeZero))
  && Bool.eqb (IsInf f 1) (f =? PositiveInfinity)
  && Bool.eqb (IsInf f (-1)) (f =? NegativeInfinity)
  && Bool.eqb (IsInf f 0) ((f =? PositiveInfinity) || (f =? NegativeInfinity)).

(** What [add_normalize] makes of a subnormal mantissa: a panic from 32
    on, and below that the exponent [uint16(log2 m - 2)]. *)
Definition normalize_check (m : Z) : bool :=
  match add_normalize 0 m with
  | Panic => 32 <=? m
  | Ret (e, _) =>
      ((m =? 0) && (e =? 0))
      || ((m =? 1) && (e =? 65534))
      || ((2 <=? m) && (m <=? 3) && (e =? 65535))
      || ((4 <=? m) && (m <=? 7) && (e =? 0))
      || ((8 <=? m) && (m <=? 15) && (e =? 1))
      || ((16 <=? m) && (m <=? 31) && (e =? 2))
  end.

(** The float32 pattern with sign [s], exponent field [e] and fraction
    [m]. *)
Definition f32_bits (s e m : Z) : Z := s * 2 ^ 31 + e * 2 ^ 23 + m.

(** Checks behind the properties of sign, components and comparison. *)

Definition pack_extract_check (f : Float16) : bool :=
  let '(s, e, m) := extractComponents f in
  (packComponents s e m =? f)
  && (s =? f / 32768) && (e =? (f / 1024) mod 32) && (m =? f mod 1024).

Definition extract_pack_check (i : Z) : bool :=
  let s := i / 32768 in
  let e := (i / 1024) mod 32 in
  let m := i mod 1024 in
  let '(s', e', m') := extractComponents (packComponents s e m) in
  (s' =? s) && (e' =? e) && (m' =? m) && (packComponents s e m =? i).

Definition sign_check (f : Float16) : bool :=
  Bool.eqb (Signbit f) (32768 <=? f)
  && (Abs f =? f mod 32768)
  && Bool.eqb (IsZero f) (f mod 32768 =? 0)
  && Bool.eqb (IsNaN f) (31744 <? f mod 32768).

(** The position of a non-NaN half value on the number line, as an integer:
    the magnitude bits, negated when the sign bit is set.  The two zeros
    share the key 0. *)
Definition order_key (f : Float16) : Z :=
  if 32768 <=? f then - (f mod 32768) else f.

(** The possible results of a narrowing conversion of a float32 with sign
    bit [s]: an error with the value 0 (Strict and Exact mode only), or no
    error and a zero, an infinity, the quiet NaN 0x7E00 or a normal value,
    each with the sign bit [s]. *)
Definition conversion_shape (s : Z) (c : ConversionMode)
    (r : Float16 * option Float16Error) : Prop :=
  match snd r with
  | Some err =>
      fst r = 0 /\ (c = ModeStrict \/ c = ModeExact) /\ Op err = "convert"%string
  | None =>
      fst r = s * 32768
      \/ fst r = s * 32768 + 0x7C00
      \/ fst r = s * 32768 + 0x7E00
      \/ exists e m, 1 <= e <= 30 /\ 0 <= m <= 1023
                     /\ fst r = s * 32768 + e * 1024 + m
  end.

Definition strict_or_exact (c : ConversionMode) : bool :=
  ConversionMode_eqb c ModeStrict || ConversionMode_eqb c ModeExact.

(** Checks behind the properties of widening and of the default
    conversion. *)

Definition widen_class_check (f : Float16) : bool :=
  let w := ToFloat32 f in
  (0 <=? w) && (w <? 2 ^ 32)
  && Bool.eqb (F32.signbit w) (Signbit f)
  && Bool.eqb (F32.is_nan w) (IsNaN f)
  && Bool.eqb (F32.is_inf w) (IsInf f 0)
  && Bool.eqb (F32.is_zero w)
       (IsZero f || (IsSubnormal f && (16 <=? mantissa_field f)))
  && (negb (IsNaN f)
      || (F32.frac w =? Z.lor 0x400000 (mantissa_field f * 8192)))
  && (F32.is_zero w || negb (F32.expo w =? 0)).

Definition default_roundtrip_check (f : Float16) : bool :=
  if IsNaN f then ToFloat16 (ToFloat32 f) =? Z.lor f 0x0200
  else if IsSubnormal f then true
  else ToFloat16 (ToFloat32 f) =? f.

Definition int_roundtrip_check (j : Z) : bool :=
  let i := j - 4096 in
  if (-2048 <=? i) && (i <=? 2048) then
    match ToInt (FromInt i) with
    | Some k => (k =? i)
    | None => false
    end
    && Qeq_bool (f32_value (ToFloat32 (FromInt i))) (inject_Z i)
  else true.

Definition nan_pattern_check (j : Z) : bool :=
  let s := j / 1024 in
  let n := j mod 1024 in
  (n =? 0)
  || (Z.lor (Z.lor (u16 (Z.shiftl (u16 s) 15)) 0x7C00) n
      =? s * 32768 + 0x7C00 + n).

Definition carry_bit_check (x : Z) : bool :=
  Bool.eqb (Z.land x 0x0400 =? 0) (x <? 1024) || (1024 <? x).

(** The check behind [NextAfter]: on a pattern that is neither a NaN nor a
    subnormal the float32 order key of the widening is [widen_key] of the
    half order key. *)
Definition widen_key (k : Z) : Z :=
  let m := Z.abs k in
  let w := if m =? 0 then 0
           else if m =? 0x7C00 then 0x7F800000
           else (m + 114688) * 8192 in
  if k <? 0 then - w else w.

Definition widen_order_check (v : Float16) : bool :=
  IsNaN v || IsSubnormal v
  || ((F32.ord (ToFloat32 v) =? widen_key (order_key v))
      && ((order_key v =? 0)
          || ((1024 <=? Z.abs (order_key v)) && (Z.abs (order_key v) <=? 0x7C00)))).

(** * Properties *)

(** ** Exhaustive checks *)

Lemma all_prefix_spec (n : nat) (P : Z -> bool) :
  forall p, all_prefix n p P = true ->
  forall x, p * 2 ^ Z.of_nat n <= x < (p + 1) * 2 ^ Z.of_nat n -> P x = true.
Proof.
  induction n as [|k IH]; intros p H x Hx.
  - cbn in H. change (2 ^ Z.of_nat 0) with 1 in Hx.
    replace x with p by lia. exact H.
  - cbn [all_prefix] in H. apply andb_true_iff in H as [Hlo Hhi].
    rewrite Nat2Z.inj_succ, Z.pow_succ_r in Hx by lia.
    assert (Hpow : 0 < 2 ^ Z.of_nat k) by (apply Z.pow_pos_nonneg; lia).
    destruct (Z_lt_le_dec x ((2 * p + 1) * 2 ^ Z.of_nat k)) as [Hlt|Hge].
    + apply (IH (2 * p) Hlo). split; [nia | nia].
    + apply (IH (2 * p + 1) Hhi). split; [nia | nia].
Qed.

Lemma all_uint16_spec (P : Z -> bool) :
  all_uint16 P = true -> forall f, uint16 f -> P f = true.
Proof.
  intros H f Hf. apply (all_prefix_spec 16 P 0 H).
  unfold uint16 in Hf. change (2 ^ Z.of_nat 16) with 65536. lia.
Qed.

(** ** Classification (types.go) *)

Lemma FloatClass_eqb_eq (a b : FloatClass) : FloatClass_eqb a b = true -> a = b.
Proof. destruct a, b; simpl; intros H; try reflexivity; discriminate H. Qed.

Lemma class_check_all : all_uint16 class_check = true.
Proof. vm_compute. reflexivity. Qed.

(** The predicates are pairwise exclusive on NaN, infinity and zero. *)
Lemma NaN_not_zero_not_inf (f : Float16) :
  uint16 f -> IsNaN f = true -> IsZero f = false /\ IsInf f 0 = false.
Proof.
  intros Hf Hnan.
  pose proof (all_uint16_spec _ class_check_all f Hf) as H.
  unfold class_check in H.
  repeat (apply andb_true_iff in H; destruct H as [H ?]).
  repeat match goal with E : Bool.eqb _ _ = true |- _ => apply eqb_prop in E end.
  destruct (Class f); simpl in *; split; congruence.
Qed.

Lemma subnormal_not_NaN_not_normal (f : Float16) :
  IsSubnormal f = true -> IsNaN f = false /\ IsNormal f = false.
Proof.
  unfold IsSubnormal, IsNaN, IsNormal.
  destruct (Z.eqb_spec (Z.shiftr (Z.land f ExponentMask) MantissaLen) ExponentZero)
    as [-> | Hne]; [|discriminate].
  intros _. split; reflexivity.
Qed.

Lemma zero_patterns (z : Float16) :
  z = PositiveZero \/ z = NegativeZero ->
  IsZero z = true /\ IsInf z 0 = false /\ IsNaN z = false.
Proof. intros [-> | ->]; repeat split; reflexivity. Qed.

(** C8.  On each of the 65536 patterns [Class] returns the class that the
    exponent/mantissa table of the data model gives (one class, since
    [Class] is a function into the ten-constructor type), and each predicate
    is the membership of that class in its group: [IsNaN] in the two NaN
    classes, [IsInf(0)] in the two infinities, [IsZero] in the two zeros,
    [IsSubnormal] in the two subnormal classes, [IsNormal] in the two normal
    classes, and [IsFinite] in none of NaN or infinity. *)
Theorem Class_table_and_predicates (f : Float16) :
  uint16 f ->
  Class f = table_class f
  /\ IsNaN f = is_nan_class (Class f)
  /\ IsInf f 0 = is_inf_class (Class f)
  /\ IsZero f = is_zero_class (Class f)
  /\ IsSubnormal f = is_subnormal_class (Class f)
  /\ IsNormal f = is_normal_class (Class f)
  /\ IsFinite f = negb (is_nan_class (Class f) || is_inf_class (Class f)).
Proof.
  intros Hf.
  pose proof (all_uint16_spec _ class_check_all f Hf) as H.
  unfold class_check in H.
  repeat (apply andb_true_iff in H; destruct H as [H ?]).
  repeat match goal with E : Bool.eqb _ _ = true |- _ => apply eqb_prop in E end.
  apply FloatClass_eqb_eq in H.
  repeat split; assumption.
Qed.

Lemma Class_table_and_predicates_witness :
  uint16 0xFE01
  /\ Class 0xFE01 = ClassQuietNaN
  /\ table_class 0xFE01 = ClassQuietNaN
  /\ IsNaN 0xFE01 = true
  /\ IsFinite 0xFE01 = false.
Proof.
  assert (Hf : uint16 0xFE01) by (unfold uint16; lia).
  destruct (Class_table_and_predicates 0xFE01 Hf) as (Ht & Hn & _ & _ & _ & _ & Hfin).
  split; [exact Hf|].
  split; [reflexivity|].
  split; [rewrite <- Ht; reflexivity|].
  split; [rewrite Hn; reflexivity | rewrite Hfin; reflexivity].
Defined.

(** ** Sign operations (types.go) *)

Lemma SignMask_testbit (i : Z) : Z.testbit SignMask i = (i =? 15).
Proof.
  change SignMask with (2 ^ 15).
  rewrite Z.pow2_bits_eqb by lia. apply Z.eqb_sym.
Qed.

Lemma land_SignMask (f : Z) :
  Z.land f SignMask = if Z.testbit f 15 then SignMask else 0.
Proof.
  apply Z.bits_inj'. intros i Hi.
  rewrite Z.land_spec, SignMask_testbit.
  destruct (Z.eqb_spec i 15) as [-> | Hne].
  - destruct (Z.testbit f 15); reflexivity.
  - rewrite andb_false_r.
    destruct (Z.testbit f 15).
    + rewrite SignMask_testbit. symmetry. apply Z.eqb_neq. exact Hne.
    + symmetry. apply Z.bits_0.
Qed.

Lemma Signbit_testbit (f : Float16) : Signbit f = Z.testbit f 15.
Proof.
  unfold Signbit. rewrite land_SignMask.
  destruct (Z.testbit f 15); reflexivity.
Qed.

Lemma Neg_testbit (f : Float16) (i : Z) :
  Z.testbit (Neg f) i = xorb (Z.testbit f i) (i =? 15).
Proof. unfold Neg. rewrite Z.lxor_spec, SignMask_testbit. reflexivity. Qed.

(** C10.  [Neg] flips the sign bit and nothing else: applied twice it gives
    the value back bit for bit, it inverts [Signbit], and it leaves [Abs]
    unchanged; NaN, infinity and zero patterns included. *)
Theorem Neg_involution_sign_only (f : Float16) :
  Neg (Neg f) = f
  /\ Signbit (Neg f) = negb (Signbit f)
  /\ Abs (Neg f) = Abs f.
Proof.
  split; [|split].
  - unfold Neg. rewrite Z.lxor_assoc, Z.lxor_nilpotent. apply Z.lxor_0_r.
  - rewrite !Signbit_testbit, Neg_testbit. simpl.
    destruct (Z.testbit f 15); reflexivity.
  - unfold Abs. apply Z.bits_inj'. intros i Hi.
    rewrite !Z.land_spec, Neg_testbit.
    destruct (Z.eqb_spec i 15) as [-> | Hne].
    + change (Z.testbit 32767 15) with false. rewrite !andb_false_r. reflexivity.
    + rewrite xorb_false_r. reflexivity.
Qed.

(** ** Special cases of multiplication and division (arithmetic.go) *)

Lemma signed_xorb (neg pos a b : Float16) :
  signed neg pos a b =
  ((if xorb (Signbit a) (Signbit b) then neg else pos), None).
Proof. unfold signed. destruct (Signbit a), (Signbit b); reflexivity. Qed.

(** C9.  In [MulWithMode] the zero shortcut comes before the NaN check: a
    NaN times a zero, in either order, in every arithmetic mode and with
    every rounding mode, returns the zero whose sign bit is the exclusive or
    of the two sign bits, and no error (ModeExactArithmetic included). *)
Theorem MulWithMode_zero_before_NaN
    (n z : Float16) (mode : ArithmeticMode) (r : RoundingMode) :
  uint16 n -> IsNaN n = true -> z = PositiveZero \/ z = NegativeZero ->
  MulWithMode n z mode r = (signed_zero (xorb (Signbit n) (Signbit z)), None)
  /\ MulWithMode z n mode r = (signed_zero (xorb (Signbit z) (Signbit n)), None).
Proof.
  intros Hn Hnan Hz.
  destruct (NaN_not_zero_not_inf n Hn Hnan) as [Hnz Hninf].
  destruct (zero_patterns z Hz) as (Hzz & Hzinf & _).
  unfold MulWithMode.
  rewrite Hnz, Hninf, Hzz, Hzinf. cbn [andb orb].
  rewrite !signed_xorb. split; reflexivity.
Qed.

Lemma MulWithMode_zero_before_NaN_witness :
  MulWithMode SignalingNaN NegativeZero ModeExactArithmetic RoundTowardZero
    = (NegativeZero, None)
  /\ MulWithMode NegativeZero SignalingNaN ModeExactArithmetic RoundTowardZero
    = (NegativeZero, None).
Proof.
  apply (MulWithMode_zero_before_NaN SignalingNaN NegativeZero
           ModeExactArithmetic RoundTowardZero).
  - unfold uint16, SignalingNaN. lia.
  - reflexivity.
  - right. reflexivity.
Defined.

(** C7.  Division by a zero.  For a finite nonzero [a] and [z] one of the
    two zeros: in IEEE and Fast mode [DivWithMode] (hence [Div]) returns the
    infinity whose sign is the exclusive or of the operand signs, with no
    error, and in Exact mode it returns a DivisionByZero error.  A zero
    divided by a zero is the quiet NaN in IEEE and Fast mode, and
    [DivWithMode(0x0000, 0x0000, ModeExactArithmetic, r)] returns an
    InvalidOperation error. *)
Theorem Div_by_zero_cases
    (a z z' : Float16) (g : Globals) (mode : ArithmeticMode) (r : RoundingMode) :
  IsFinite a = true -> IsZero a = false ->
  z = PositiveZero \/ z = NegativeZero ->
  z' = PositiveZero \/ z' = NegativeZero ->
  (mode <> ModeExactArithmetic ->
     DivWithMode a z mode r
       = (signed_infinity (xorb (Signbit a) (Signbit z)), None)
     /\ DivWithMode z' z mode r = (QuietNaN, None))
  /\ (DefaultArithmeticMode g <> ModeExactArithmetic ->
     Div g a z = signed_infinity (xorb (Signbit a) (Signbit z))
     /\ Div g z' z = QuietNaN /\ IsNaN (Div g z' z) = true)
  /\ error_code (DivWithMode a z ModeExactArithmetic r) = Some ErrDivisionByZero
  /\ error_code (DivWithMode PositiveZero PositiveZero ModeExactArithmetic r)
       = Some ErrInvalidOperation.
Proof.
  intros _ Hanz Hz Hz'.
  destruct (zero_patterns z Hz) as (Hzz & _ & _).
  destruct (zero_patterns z' Hz') as (Hzz' & _ & _).
  assert (Hgen : forall m r', m <> ModeExactArithmetic ->
            DivWithMode a z m r'
              = (signed_infinity (xorb (Signbit a) (Signbit z)), None)
            /\ DivWithMode z' z m r' = (QuietNaN, None)).
  { intros m r' Hm. unfold DivWithMode. rewrite Hzz, Hanz, Hzz'.
    rewrite signed_xorb.
    destruct m; try (split; reflexivity). contradiction Hm; reflexivity. }
  split; [exact (Hgen mode r)|].
  split.
  - intros Hg. unfold Div.
    destruct (Hgen (DefaultArithmeticMode g) (DefaultRounding g) Hg) as [-> ->].
    repeat split; reflexivity.
  - split.
    + unfold DivWithMode. rewrite Hzz, Hanz. reflexivity.
    + reflexivity.
Qed.

Lemma Div_by_zero_cases_witness :
  Div initial_globals 0xBC00 PositiveZero = NegativeInfinity
  /\ Div initial_globals NegativeZero PositiveZero = QuietNaN
  /\ error_code (DivWithMode 0xBC00 PositiveZero ModeExactArithmetic RoundNearestEven)
       = Some ErrDivisionByZero.
Proof.
  destruct (Div_by_zero_cases 0xBC00 PositiveZero NegativeZero initial_globals
              ModeFastArithmetic RoundNearestEven)
    as (_ & Hdiv & Hexact & _).
  - reflexivity.
  - reflexivity.
  - left. reflexivity.
  - right. reflexivity.
  - destruct Hdiv as (Hinf & Hnan & _); [discriminate|].
    split; [exact Hinf|]. split; [exact Hnan | exact Hexact].
Defined.

(** ** Widening and the round trip (convert.go) *)

Lemma roundtrip_check_all : all_uint16 roundtrip_check = true.
Proof. vm_compute. reflexivity. Qed.

(** X20.  For every half value that is neither a NaN nor a subnormal (a
    zero, a normal value or an infinity of either sign), widening with
    [ToFloat32] and then narrowing with [ToFloat16WithMode] under ModeIEEE
    and nearest-even rounding returns the value bit for bit, with no
    error. *)
Theorem roundtrip_exact_off_subnormals (v : Float16) :
  uint16 v -> IsNaN v = false -> IsSubnormal v = false ->
  ToFloat16WithMode (ToFloat32 v) ModeIEEE RoundNearestEven = (v, None).
Proof.
  intros Hv Hnan Hsub. fold (roundtrip v).
  pose proof (all_uint16_spec _ roundtrip_check_all v Hv) as H.
  unfold roundtrip_check in H. rewrite Hnan, Hsub in H. cbn [orb] in H.
  apply eqb_prop in H. symmetry in H. apply negb_false_iff in H.
  destruct (roundtrip v) as [x [e|]]; unfold is_identity_on, no_error in H;
    cbn [fst snd] in H.
  - rewrite andb_false_r in H. discriminate H.
  - rewrite andb_true_r in H. apply Z.eqb_eq in H. rewrite H. reflexivity.
Qed.

Lemma roundtrip_exact_off_subnormals_witness :
  ToFloat16WithMode (ToFloat32 MinValue) ModeIEEE RoundNearestEven
  = (MinValue, None).
Proof.
  apply (roundtrip_exact_off_subnormals MinValue).
  - unfold uint16, MinValue. lia.
  - reflexivity.
  - reflexivity.
Defined.

(** On every subnormal the round trip is not the identity. *)
Lemma roundtrip_subnormal (v : Float16) :
  uint16 v -> IsSubnormal v = true -> roundtrip v <> (v, None).
Proof.
  intros Hv Hsub Heq.
  pose proof (subnormal_not_NaN_not_normal v Hsub) as [Hnan _].
  pose proof (all_uint16_spec _ roundtrip_check_all v Hv) as H.
  unfold roundtrip_check in H. rewrite Hnan, Hsub, Heq in H.
  unfold is_identity_on, no_error in H. cbn [orb fst snd] in H.
  rewrite Z.eqb_refl in H. discriminate H.
Qed.

Lemma widen_check_all : all_uint16 widen_check = true.
Proof. vm_compute. reflexivity. Qed.

(** Normal values and zeros are widened exactly. *)
Lemma ToFloat32_exact_normal (f : Float16) :
  uint16 f -> IsNormal f = true ->
  (f32_value (ToFloat32 f) == table_value f)%Q.
Proof.
  intros Hf Hn.
  assert (Hs : IsSubnormal f = false).
  { destruct (IsSubnormal f) eqn:Hs; [|reflexivity].
    destruct (subnormal_not_NaN_not_normal f Hs) as [_ Hn']. congruence. }
  pose proof (all_uint16_spec _ widen_check_all f Hf) as H.
  unfold widen_check in H. rewrite Hs, Hn in H. cbn [orb] in H.
  apply Qeq_bool_iff. exact H.
Qed.

(** No subnormal is: the value [ToFloat32] returns is never the value of
    the pattern, while the normalisation the specification words is. *)
Lemma ToFloat32_inexact_subnormal (f : Float16) :
  uint16 f -> IsSubnormal f = true ->
  (f32_value (widen_subnormal_spec f) == table_value f)%Q
  /\ ~ (f32_value (ToFloat32 f) == table_value f)%Q.
Proof.
  intros Hf Hs.
  pose proof (all_uint16_spec _ widen_check_all f Hf) as H.
  unfold widen_check in H. rewrite Hs in H.
  apply andb_true_iff in H as [Hspec Hcode].
  split.
  - apply Qeq_bool_iff. exact Hspec.
  - intros Heq. apply Qeq_bool_iff in Heq. rewrite Heq in Hcode. discriminate.
Qed.

(** C2.  Widening the smallest subnormal.  The pattern 0x0001 stands for
    [2^-24]; the specification's normalisation (shift 10, exponent field
    [127 - 15 + 1 - 10 = 103]) gives the float32 0x33800000 with that value.
    [ToFloat32] gets [leadingZeros10 1 = 3], shifts by 4, sets the exponent
    field to [127 - 15 + 4 = 116] and returns 0x3A020000, whose value is
    [65 / 2^17]: the widening of a subnormal is not exact. *)
Theorem ToFloat32_smallest_subnormal :
  leadingZeros10 1 = 3
  /\ ToFloat32 SmallestSubnormal = 0x3A020000
  /\ F32.expo (ToFloat32 SmallestSubnormal) = 127 - 15 + 4
  /\ (f32_value (ToFloat32 SmallestSubnormal) == 65 # 131072)%Q
  /\ widen_subnormal_spec SmallestSubnormal = 0x33800000
  /\ (table_value SmallestSubnormal == 1 # 16777216)%Q
  /\ ~ (f32_value (ToFloat32 SmallestSubnormal) == table_value SmallestSubnormal)%Q.
Proof.
  repeat split; try reflexivity.
  intros H. apply Qeq_bool_iff in H. vm_compute in H. discriminate H.
Qed.

(** C1.  The round trip of the smallest subnormal.  0x0001 is not a NaN;
    [ToFloat32] widens it to 0x3A020000 (the defect of C2) and
    [ToFloat16WithMode], under ModeIEEE with nearest-even rounding, narrows
    that to 0x1010 with no error: the round trip does not return 0x0001.
    The narrowing has a defect of its own: the float32 that does hold the
    value of the pattern, 0x33800000, is narrowed to +0, since the code
    that would build a subnormal is never reached. *)
Theorem roundtrip_smallest_subnormal :
  IsNaN SmallestSubnormal = false
  /\ ToFloat32 SmallestSubnormal = 0x3A020000
  /\ ToFloat16WithMode (ToFloat32 SmallestSubnormal) ModeIEEE RoundNearestEven
     = (0x1010, None)
  /\ fst (ToFloat16WithMode (ToFloat32 SmallestSubnormal) ModeIEEE RoundNearestEven)
     <> SmallestSubnormal
  /\ widen_subnormal_spec SmallestSubnormal = 0x33800000
  /\ ToFloat16WithMode 0x33800000 ModeIEEE RoundNearestEven = (PositiveZero, None).
Proof.
  split; [reflexivity|]. split; [reflexivity|]. split; [reflexivity|].
  split; [vm_compute; discriminate|]. split; reflexivity.
Qed.

(** In [ToFloat16WithMode] the branch for [exp16 <= 0] always takes its
    first exit: [totalShift] is [112 + (1 - exp16)], which is at least 113,
    so the test [totalShift >= 24] holds and the code that would build a
    subnormal is never run. *)
Lemma narrow_underflow_flushes
    (f32 sign32 exp32 mant32 exp16 : Z) (c : ConversionMode) (r : RoundingMode) :
  exp16 <= 0 ->
  narrow_underflow f32 sign32 exp32 mant32 exp16 c r =
  if ConversionMode_eqb c ModeStrict || ConversionMode_eqb c ModeExact
  then convert_error f32 "underflow: value too small for float16" ErrUnderflow
  else if negb (sign32 =? 0) then (NegativeZero, None)
  else (PositiveZero, None).
Proof.
  intros He. unfold narrow_underflow.
  unfold Float32ExponentBias, ExponentBias.
  destruct (Z.leb_spec 24 (127 - 15 + 1 - 1 + (1 - exp16))) as [_ | Hlt];
    [reflexivity | lia].
Qed.

(** ** Rounding toward positive infinity (convert.go) *)

(** [shouldRound] has no sign among its arguments: for
    [RoundTowardPositive] it answers from the discarded bits alone. *)
Lemma shouldRound_toward_positive (mantissa : Z) :
  shouldRound mantissa 13 RoundTowardPositive
  = negb (Z.land mantissa 0x1FFF =? 0).
Proof. reflexivity. Qed.

Section Fields.

Variables s e m : Z.
Hypothesis Hs : 0 <= s <= 1.
Hypothesis He : 0 <= e < 256.
Hypothesis Hm : 0 <= m < 2 ^ 23.

Lemma f32_bits_sign : Z.shiftr (f32_bits s e m) 31 = s.
Proof.
  unfold f32_bits. rewrite Z.shiftr_div_pow2 by lia.
  symmetry. apply (Z.div_unique _ _ s (e * 2 ^ 23 + m)); lia.
Qed.

Lemma f32_bits_expo : Z.land (Z.shiftr (f32_bits s e m) 23) 0xFF = e.
Proof.
  unfold f32_bits. rewrite Z.shiftr_div_pow2 by lia.
  replace ((s * 2 ^ 31 + e * 2 ^ 23 + m) / 2 ^ 23) with (s * 256 + e)
    by (apply (Z.div_unique _ _ _ m); lia).
  change 0xFF with (Z.ones 8). rewrite Z.land_ones by lia.
  symmetry. apply (Z.mod_unique _ _ s); lia.
Qed.

Lemma f32_bits_frac : Z.land (f32_bits s e m) 0x7FFFFF = m.
Proof.
  unfold f32_bits. change 0x7FFFFF with (Z.ones 23).
  rewrite Z.land_ones by lia.
  symmetry. apply (Z.mod_unique _ _ (s * 256 + e)); lia.
Qed.

Lemma f32_bits_magnitude :
  Z.land (f32_bits s e m) 0x7FFFFFFF = e * 2 ^ 23 + m.
Proof.
  unfold f32_bits. change 0x7FFFFFFF with (Z.ones 31).
  rewrite Z.land_ones by lia.
  symmetry. apply (Z.mod_unique _ _ s); lia.
Qed.

(** In the half normal range [ToFloat16WithMode] is its normal branch. *)
Lemma ToFloat16WithMode_normal_range (c : ConversionMode) (r : RoundingMode) :
  113 <= e <= 142 ->
  ToFloat16WithMode (f32_bits s e m) c r
  = narrow_normal (f32_bits s e m) s m (e - 112) c r.
Proof.
  intros Hrange. unfold ToFloat16WithMode.
  unfold F32.is_zero, F32.is_inf, F32.is_nan, F32.expo.
  rewrite f32_bits_magnitude, f32_bits_sign, f32_bits_expo, f32_bits_frac.
  unfold Float32ExponentBias, ExponentBias, ExponentInfinity.
  destruct (Z.eqb_spec (e * 2 ^ 23 + m) 0) as [E | _]; [lia|].
  destruct (Z.eqb_spec (e * 2 ^ 23 + m) 0x7F800000) as [E | _]; [lia|].
  destruct (Z.eqb_spec e 255) as [E | _]; [lia|].
  destruct (Z.eqb_spec e 0) as [E | _]; [lia|].
  cbn [andb].
  destruct (Z.leb_spec 31 (e - 127 + 15)) as [E | _]; [lia|].
  destruct (Z.leb_spec (e - 127 + 15) 0) as [E | _]; [lia|].
  replace (e - 127 + 15) with (e - 112) by lia. reflexivity.
Qed.

(** Under [RoundTowardPositive] an inexact operand of the half normal range
    has its magnitude rounded up, for either sign: the retained mantissa is
    incremented, with a carry into the exponent, and into infinity from the
    top exponent. *)
Lemma ToFloat16WithMode_toward_positive_any_sign :
  113 <= e <= 142 -> Z.land m 0x1FFF <> 0 ->
  ToFloat16WithMode (f32_bits s e m) ModeIEEE RoundTowardPositive
  = if Z.shiftr m 13 + 1 <? 1024
    then (packComponents (u16 s) (u16 (e - 112)) (u16 (Z.shiftr m 13 + 1)), None)
    else if e =? 142
    then (signed_infinity (negb (s =? 0)), None)
    else (packComponents (u16 s) (u16 (e - 111)) (u16 0), None).
Proof.
  intros Hrange Hinexact.
  rewrite ToFloat16WithMode_normal_range by exact Hrange.
  unfold narrow_normal.
  unfold Float32MantissaLen, MantissaLen, ExponentInfinity.
  change (23 - 10) with 13.
  rewrite shouldRound_toward_positive.
  destruct (Z.eqb_spec (Z.land m 0x1FFF) 0) as [E | _]; [contradiction|].
  cbn [negb]. change (Z.shiftl 1 10) with 1024.
  destruct (Z.leb_spec 1024 (Z.shiftr m 13 + 1)) as [Hcarry | Hnocarry].
  - destruct (Z.ltb_spec (Z.shiftr m 13 + 1) 1024) as [E | _]; [lia|].
    destruct (Z.eqb_spec e 142) as [-> | Hne].
    + cbn. destruct (s =? 0); reflexivity.
    + destruct (Z.leb_spec 31 (e - 112 + 1)) as [E | _]; [lia|].
      replace (e - 112 + 1) with (e - 111) by lia. reflexivity.
  - destruct (Z.ltb_spec (Z.shiftr m 13 + 1) 1024) as [_ | E]; [|lia].
    reflexivity.
Qed.

End Fields.

(** C6.  A negative operand under [RoundTowardPositive].  The float32
    0xBF800001 is [-(1 + 2^-23)]: finite, negative, in the half normal
    range and not a half value.  Its two half neighbours are 0xBC00 = -1
    (magnitude truncated, above the operand) and 0xBC01 = -(1 + 2^-10)
    (magnitude rounded up, below the operand).  [ToFloat16WithMode] returns
    0xBC01, with no error. *)
Theorem ToFloat16WithMode_toward_positive_negative :
  ToFloat16WithMode 0xBF800001 ModeIEEE RoundTowardPositive = (0xBC01, None)
  /\ (table_value 0xBC01%Z < f32_value 0xBF800001%Z)%Q
  /\ (f32_value 0xBF800001%Z < table_value 0xBC00%Z)%Q.
Proof.
  split; [reflexivity|]. split; vm_compute; reflexivity.
Qed.

(** ** Overflow in division (arithmetic.go) *)

(** Past the special cases, [DivWithMode] narrows the same float32 quotient
    with [ModeIEEE] in Fast mode and with [ModeExact] in the two other
    modes. *)
Lemma DivWithMode_generic_path
    (a b : Float16) (mode : ArithmeticMode) (r : RoundingMode) :
  IsZero a = false -> IsZero b = false ->
  IsInf a 0 = false -> IsInf b 0 = false ->
  IsNaN a = false -> IsNaN b = false ->
  DivWithMode a b mode r
  = ToFloat16WithMode (F32.div (ToFloat32 a) (ToFloat32 b))
      (if ArithmeticMode_eqb mode ModeFastArithmetic then ModeIEEE else ModeExact)
      r.
Proof.
  intros Hza Hzb Hia Hib Hna Hnb. unfold DivWithMode, divIEEE754.
  rewrite Hza, Hzb, Hia, Hib, Hna, Hnb. cbn [orb andb].
  destruct (ArithmeticMode_eqb mode ModeFastArithmetic); reflexivity.
Qed.

(** C3.  A quotient that overflows under ModeIEEEArithmetic.  For
    [a = 0x7BFF] (65504) and [b = 0x0400] ([2^-14]), both finite and
    nonzero, the exact quotient is far above 65504.  [DivWithMode] goes
    through [divIEEE754], which narrows the float32 quotient 0x4E7FE000 with
    [ModeExact], and returns the value 0 with an Overflow error instead of
    positive infinity.  The product path ([mulIEEE754], which narrows with
    [ModeIEEE]) returns the infinity on an overflow. *)
Theorem DivWithMode_IEEE_overflow :
  (table_value MaxValue < table_value MaxValue / table_value SmallestNormal)%Q
  /\ DivWithMode MaxValue SmallestNormal ModeIEEEArithmetic RoundNearestEven
     = (0, Some (mkError "convert" (Some 0x4E7FE000)
                   "overflow: value too large for float16" ErrOverflow))
  /\ MulWithMode MaxValue MaxValue ModeIEEEArithmetic RoundNearestEven
     = (PositiveInfinity, None).
Proof.
  split; [vm_compute; reflexivity|]. split; vm_compute; reflexivity.
Qed.

(** ** Addition (arithmetic.go) *)

(** X21.  [AddWithMode] with at least one NaN operand.  In IEEE and Fast
    mode the result is a NaN with a nil error.  In Exact mode the result is
    the NaN-operand error when neither operand is a zero.  When the other
    operand is a zero, the zero shortcut, which the code tests first,
    returns the NaN operand itself with a nil error, in every mode. *)
Theorem AddWithMode_NaN_operand
    (a b : Float16) (mode : ArithmeticMode) (r : RoundingMode) :
  uint16 a -> uint16 b -> IsNaN a || IsNaN b = true ->
  (mode <> ModeExactArithmetic ->
     exists x, AddWithMode a b mode r = Ret (x, None) /\ IsNaN x = true)
  /\ (IsZero a = false -> IsZero b = false ->
     error_code_of (AddWithMode a b ModeExactArithmetic r) = Some ErrNaN)
  /\ (IsZero a = true -> AddWithMode a b mode r = Ret (b, None) /\ IsNaN b = true)
  /\ (IsZero b = true -> AddWithMode a b mode r = Ret (a, None) /\ IsNaN a = true).
Proof.
  intros Ha Hb Hnan.
  assert (Hza : IsZero a = true -> IsNaN b = true).
  { intros Hz. destruct (IsNaN a) eqn:Hna; [|exact Hnan].
    destruct (NaN_not_zero_not_inf a Ha Hna) as [Hz' _]. congruence. }
  assert (Hzb : IsZero b = true -> IsNaN a = true /\ IsZero a = false).
  { intros Hz. destruct (IsNaN b) eqn:Hnb.
    - destruct (NaN_not_zero_not_inf b Hb Hnb) as [Hz' _]. congruence.
    - rewrite orb_false_r in Hnan. split; [exact Hnan|].
      apply (NaN_not_zero_not_inf a Ha Hnan). }
  unfold AddWithMode.
  split; [|split; [|split]].
  - intros Hmode. destruct (IsZero a) eqn:Ea.
    + exists b. split; [reflexivity | exact (Hza eq_refl)].
    + destruct (IsZero b) eqn:Eb.
      * exists a. split; [reflexivity | exact (proj1 (Hzb eq_refl))].
      * rewrite Hnan. exists QuietNaN.
        destruct mode; try (split; reflexivity). contradiction Hmode; reflexivity.
  - intros Ea Eb. rewrite Ea, Eb, Hnan. reflexivity.
  - intros Ea. rewrite Ea. split; [reflexivity | exact (Hza Ea)].
  - intros Eb. destruct (Hzb Eb) as [Hna Ea]. rewrite Ea, Eb.
    split; [reflexivity | exact Hna].
Qed.

Lemma AddWithMode_NaN_operand_witness :
  (exists x, AddWithMode SignalingNaN 0x3C00 ModeFastArithmetic RoundTowardZero
             = Ret (x, None) /\ IsNaN x = true)
  /\ error_code_of (AddWithMode SignalingNaN 0x3C00 ModeExactArithmetic RoundTowardZero)
     = Some ErrNaN.
Proof.
  destruct (AddWithMode_NaN_operand SignalingNaN 0x3C00 ModeFastArithmetic
              RoundTowardZero) as (Hieee & Hexact & _ & _).
  - unfold uint16, SignalingNaN. lia.
  - unfold uint16. lia.
  - reflexivity.
  - split; [apply Hieee; discriminate | apply Hexact; reflexivity].
Defined.

(** C4.  A NaN and a zero in Exact mode.  For every rounding mode,
    [AddWithMode(0x7E00, 0x0000, ModeExactArithmetic, r)] and the same call
    with the operands exchanged return the NaN with a nil error, where the
    same NaN added to 1 (0x3C00) gives the NaN-operand error: the zero
    shortcut is tested before the NaN check.  A signaling NaN (0x7D00) added
    to a zero comes back as it is, not as the quiet NaN the NaN branch
    returns. *)
Theorem AddWithMode_exact_NaN_and_zero (r : RoundingMode) :
  IsNaN QuietNaN = true
  /\ AddWithMode QuietNaN PositiveZero ModeExactArithmetic r
     = Ret (QuietNaN, None)
  /\ AddWithMode PositiveZero QuietNaN ModeExactArithmetic r
     = Ret (QuietNaN, None)
  /\ error_code_of (AddWithMode QuietNaN 0x3C00 ModeExactArithmetic r)
     = Some ErrNaN
  /\ AddWithMode SignalingNaN NegativeZero ModeIEEEArithmetic r
     = Ret (SignalingNaN, None)
  /\ AddWithMode SignalingNaN 0x3C00 ModeIEEEArithmetic r
     = Ret (QuietNaN, None).
Proof. repeat split; reflexivity. Qed.

(** When both operands are normal and their exponent fields differ by 24
    or more, [addIEEE754] returns its first parameter, whichever operand is
    the larger. *)
Lemma addIEEE754_distant_exponents (a b : Float16) (r : RoundingMode) :
  let ea := Z.shiftr (Z.land a ExponentMask) MantissaLen in
  let eb := Z.shiftr (Z.land b ExponentMask) MantissaLen in
  ea <> 0 -> eb <> 0 -> 24 <= Z.abs (ea - eb) ->
  addIEEE754 a b r = Ret (a, None).
Proof.
  intros ea eb Ha Hb Hfar.
  unfold addIEEE754, extractComponents. fold ea eb.
  set (ma := Z.land a MantissaMask). set (mb := Z.land b MantissaMask).
  assert (Hna : forall x, add_normalize ea x
                          = Ret (ea, Z.lor x (Z.shiftl 1 MantissaLen))).
  { intros x. unfold add_normalize.
    destruct (Z.eqb_spec ea 0) as [E | _]; [contradiction | reflexivity]. }
  assert (Hnb : forall x, add_normalize eb x
                          = Ret (eb, Z.lor x (Z.shiftl 1 MantissaLen))).
  { intros x. unfold add_normalize.
    destruct (Z.eqb_spec eb 0) as [E | _]; [contradiction | reflexivity]. }
  destruct (Z.ltb_spec ea eb) as [Hlt | Hge]; cbn [orb].
  - unfold add_sorted. rewrite Hnb, Hna. cbn [bind fst snd]. unfold add_aligned.
    destruct (Z.ltb_spec 0 (eb - ea)) as [_ | E]; [|lia].
    destruct (Z.leb_spec 24 (eb - ea)) as [_ | E]; [reflexivity | lia].
  - destruct (Z.eqb_spec ea eb) as [E | Hne]; [lia|]. cbn [andb].
    unfold add_sorted. rewrite Hna, Hnb. cbn [bind fst snd]. unfold add_aligned.
    destruct (Z.ltb_spec 0 (ea - eb)) as [_ | E]; [|lia].
    destruct (Z.leb_spec 24 (ea - eb)) as [_ | E]; [reflexivity | lia].
Qed.

Lemma fields_check_all : all_uint16 fields_check = true.
Proof. vm_compute. reflexivity. Qed.

Lemma normalize_check_all : all_prefix 10 0 normalize_check = true.
Proof. vm_compute. reflexivity. Qed.

Lemma fields_facts (f : Float16) :
  uint16 f ->
  0 <= exponent_field f <= 31
  /\ 0 <= mantissa_field f <= 1023
  /\ IsZero f = (exponent_field f =? 0) && (mantissa_field f =? 0)
  /\ IsZero f = (f =? PositiveZero) || (f =? NegativeZero)
  /\ IsInf f 1 = (f =? PositiveInfinity)
  /\ IsInf f (-1) = (f =? NegativeInfinity)
  /\ IsInf f 0 = (f =? PositiveInfinity) || (f =? NegativeInfinity).
Proof.
  intros Hf.
  pose proof (all_uint16_spec _ fields_check_all f Hf) as H.
  unfold fields_check in H.
  repeat (apply andb_true_iff in H; destruct H as [H ?]).
  repeat match goal with E : Bool.eqb _ _ = true |- _ => apply eqb_prop in E end.
  repeat match goal with E : (_ <=? _) = true |- _ => apply Z.leb_le in E end.
  repeat split; assumption.
Qed.

(** The early return of [add_aligned] is the only place where its first
    argument is used. *)
Lemma add_aligned_parameter (a b : Float16) (sA eA mA sB eB mB : Z) :
  eA - eB < 24 ->
  add_aligned a sA eA mA sB eB mB = add_aligned b sA eA mA sB eB mB.
Proof.
  intros Hnear. unfold add_aligned.
  destruct (Z.ltb_spec 0 (eA - eB)); destruct (Z.leb_spec 24 (eA - eB));
    cbn [andb]; try reflexivity; lia.
Qed.

(** Operands of equal magnitude and opposite sign cancel to [+0]. *)
Lemma add_aligned_cancel (a : Float16) (sA sB e m : Z) :
  sA <> sB ->
  add_aligned a sA e m sB e m = Ret (PositiveZero, None).
Proof.
  intros Hs. unfold add_aligned. rewrite Z.sub_diag. cbn [Z.ltb Z.compare andb].
  destruct (Z.eqb_spec sA sB) as [E | _]; [contradiction|].
  rewrite Z.leb_refl, Z.sub_diag. reflexivity.
Qed.

(** After the swap and the normalisation, exponent fields that differ by
    less than 24 give an exponent difference below 24. *)
Lemma add_normalize_near (eA mA eB mB eA' mA' eB' mB' : Z) :
  0 <= eA <= 31 -> 0 <= eB <= 31 -> 0 <= mA <= 1023 -> 0 <= mB <= 1023 ->
  (eA <? eB) || ((eA =? eB) && (mA <? mB)) = false ->
  eB <> 0 \/ mB <> 0 ->
  eA - eB < 24 ->
  add_normalize eA mA = Ret (eA', mA') ->
  add_normalize eB mB = Ret (eB', mB') ->
  eA' - eB' < 24.
Proof.
  intros HeA HeB HmA HmB Hsorted HnzB Hnear HnA HnB.
  apply orb_false_iff in Hsorted as [Hge Hkey]. apply Z.ltb_ge in Hge.
  assert (HB0 : 0 <= eB').
  { unfold add_normalize in HnB.
    destruct ((eB =? 0) && negb (mB =? 0)).
    - destruct (shl16 mB (leadingZeros10 mB + 1)); [|discriminate].
      injection HnB as <- _. unfold u16. apply Z.land_nonneg. right. lia.
    - destruct (negb (eB =? 0)); injection HnB as <- _; lia. }
  destruct (Z.eqb_spec eA 0) as [EA | NA].
  - (* both subnormal *)
    assert (EB : eB = 0) by lia. subst eA eB.
    cbn [Z.eqb andb] in Hkey. apply Z.ltb_ge in Hkey.
    assert (HmB' : mB <> 0) by (destruct HnzB; [contradiction | assumption]).
    assert (TA : normalize_check mA = true).
    { apply (all_prefix_spec 10 _ 0 normalize_check_all).
      change (2 ^ Z.of_nat 10) with 1024. lia. }
    assert (TB : normalize_check mB = true).
    { apply (all_prefix_spec 10 _ 0 normalize_check_all).
      change (2 ^ Z.of_nat 10) with 1024. lia. }
    unfold normalize_check in TA, TB. rewrite HnA in TA. rewrite HnB in TB.
    repeat match goal with
           | H : _ || _ = true |- _ => apply orb_true_iff in H; destruct H as [H | H]
           | H : _ && _ = true |- _ => apply andb_true_iff in H; destruct H as [H ?]
           end;
      repeat match goal with
             | H : (_ =? _) = true |- _ => apply Z.eqb_eq in H
             | H : (_ <=? _) = true |- _ => apply Z.leb_le in H
             end;
      lia.
  - (* the larger operand is normal: its exponent is kept *)
    unfold add_normalize in HnA.
    destruct (Z.eqb_spec eA 0) as [E | _]; [contradiction|].
    cbn [andb negb] in HnA. injection HnA as <- _.
    unfold add_normalize in HnB.
    destruct (Z.eqb_spec eB 0) as [EB | NB]; cbn [andb negb] in HnB.
    + lia.
    + injection HnB as <- _. lia.
Qed.

Lemma add_sorted_parameter (a b : Float16) (sA eA mA sB eB mB : Z) :
  0 <= eA <= 31 -> 0 <= eB <= 31 -> 0 <= mA <= 1023 -> 0 <= mB <= 1023 ->
  (eA <? eB) || ((eA =? eB) && (mA <? mB)) = false ->
  eB <> 0 \/ mB <> 0 ->
  eA - eB < 24 ->
  add_sorted a sA eA mA sB eB mB = add_sorted b sA eA mA sB eB mB.
Proof.
  intros HeA HeB HmA HmB Hsorted HnzB Hnear. unfold add_sorted.
  destruct (add_normalize eA mA) as [[eA' mA']|] eqn:HnA; [|reflexivity].
  destruct (add_normalize eB mB) as [[eB' mB']|] eqn:HnB; [|reflexivity].
  cbn [bind fst snd]. apply add_aligned_parameter.
  exact (add_normalize_near eA mA eB mB eA' mA' eB' mB'
           HeA HeB HmA HmB Hsorted HnzB Hnear HnA HnB).
Qed.

(** [addIEEE754] does not depend on the order of its operands when they
    are nonzero and their exponent fields differ by less than 24. *)
Lemma addIEEE754_commutes_near (a b : Float16) (r : RoundingMode) :
  uint16 a -> uint16 b -> IsZero a = false -> IsZero b = false ->
  Z.abs (exponent_field a - exponent_field b) < 24 ->
  addIEEE754 a b r = addIEEE754 b a r.
Proof.
  intros Ha Hb Hza Hzb Hnear.
  destruct (fields_facts a Ha) as (HeA & HmA & HzA & _).
  destruct (fields_facts b Hb) as (HeB & HmB & HzB & _).
  rewrite Hza in HzA. rewrite Hzb in HzB.
  assert (NzA : exponent_field a <> 0 \/ mantissa_field a <> 0).
  { symmetry in HzA. apply andb_false_iff in HzA as [E | E];
      apply Z.eqb_neq in E; [left | right]; exact E. }
  assert (NzB : exponent_field b <> 0 \/ mantissa_field b <> 0).
  { symmetry in HzB. apply andb_false_iff in HzB as [E | E];
      apply Z.eqb_neq in E; [left | right]; exact E. }
  unfold addIEEE754, extractComponents.
  fold (exponent_field a) (exponent_field b) (mantissa_field a) (mantissa_field b).
  set (eA := exponent_field a) in *. set (eB := exponent_field b) in *.
  set (mA := mantissa_field a) in *. set (mB := mantissa_field b) in *.
  set (sA := Z.shiftr (Z.land a SignMask) 15).
  set (sB := Z.shiftr (Z.land b SignMask) 15).
  destruct ((eA <? eB) || ((eA =? eB) && (mA <? mB))) eqn:Hab;
    destruct ((eB <? eA) || ((eB =? eA) && (mB <? mA))) eqn:Hba.
  - (* both strictly smaller: impossible *)
    exfalso.
    apply orb_true_iff in Hab. apply orb_true_iff in Hba.
    rewrite !andb_true_iff, !Z.ltb_lt, !Z.eqb_eq in *. lia.
  - apply add_sorted_parameter; try assumption; lia.
  - apply add_sorted_parameter; try assumption; lia.
  - (* equal magnitude *)
    assert (HE : eA = eB /\ mA = mB).
    { apply orb_false_iff in Hab as [H1 H2]. apply orb_false_iff in Hba as [H3 H4].
      apply Z.ltb_ge in H1, H3. assert (E : eA = eB) by lia.
      rewrite E, Z.eqb_refl in H2, H4. cbn [andb] in H2, H4.
      apply Z.ltb_ge in H2, H4. lia. }
    destruct HE as [EE EM]. rewrite <- EE, <- EM in *.
    destruct (Z.eq_dec sA sB) as [ES | NS].
    + rewrite <- ES. apply add_sorted_parameter; try assumption; lia.
    + unfold add_sorted.
      destruct (add_normalize eA mA) as [[e' m']|]; [|reflexivity].
      cbn [bind fst snd].
      rewrite (add_aligned_cancel a sA sB e' m' NS).
      rewrite (add_aligned_cancel b sB sA e' m'); [reflexivity | congruence].
Qed.

(** Outside Fast mode, [AddWithMode] does not depend on the order of its
    operands when neither is a NaN, they are not two zeros of opposite sign,
    and their exponent fields differ by less than 24. *)
Lemma AddWithMode_commutes_near
    (a b : Float16) (mode : ArithmeticMode) (r : RoundingMode) :
  uint16 a -> uint16 b ->
  mode <> ModeFastArithmetic ->
  IsNaN a = false -> IsNaN b = false ->
  (IsZero a = true -> IsZero b = true -> a = b) ->
  Z.abs (exponent_field a - exponent_field b) < 24 ->
  AddWithMode a b mode r = AddWithMode b a mode r.
Proof.
  intros Ha Hb Hmode Hna Hnb Hzeros Hnear.
  destruct (fields_facts a Ha) as (_ & _ & _ & _ & HpA & HnA & HiA).
  destruct (fields_facts b Hb) as (_ & _ & _ & _ & HpB & HnB & HiB).
  unfold AddWithMode. rewrite Hna, Hnb. cbn [orb].
  destruct (IsZero a) eqn:Hza; destruct (IsZero b) eqn:Hzb.
  - rewrite (Hzeros eq_refl eq_refl). reflexivity.
  - reflexivity.
  - reflexivity.
  - rewrite HpA, HnA, HiA, HpB, HnB, HiB.
    destruct (Z.eqb_spec a PositiveInfinity) as [EpA | NpA];
      destruct (Z.eqb_spec a NegativeInfinity) as [EnA | NnA];
      destruct (Z.eqb_spec b PositiveInfinity) as [EpB | NpB];
      destruct (Z.eqb_spec b NegativeInfinity) as [EnB | NnB];
      cbn [orb andb]; try reflexivity;
      try (exfalso; unfold PositiveInfinity, NegativeInfinity in *; lia);
      try (f_equal; f_equal; congruence).
    destruct mode; try reflexivity.
    + apply addIEEE754_commutes_near; assumption.
    + contradiction Hmode; reflexivity.
    + apply addIEEE754_commutes_near; assumption.
Qed.

(** C5.  Two pairs of non-NaN operands on which [Add], with the initial
    package settings (ModeIEEEArithmetic, nearest-even), depends on the
    order.  Signed zeros: [Add(+0, -0)] is [-0] and [Add(-0, +0)] is [+0],
    each call returning its second operand.  Distant exponents:
    [Add(0x7800, 0x0400)] is 0x7800 and [Add(0x0400, 0x7800)] is 0x0400,
    because [addIEEE754] returns its first parameter after it has swapped
    the decomposed operands. *)
Theorem Add_depends_on_operand_order :
  Add initial_globals PositiveZero NegativeZero = Ret NegativeZero
  /\ Add initial_globals NegativeZero PositiveZero = Ret PositiveZero
  /\ Add initial_globals 0x7800 0x0400 = Ret 0x7800
  /\ Add initial_globals 0x0400 0x7800 = Ret 0x0400.
Proof. repeat split; reflexivity. Qed.

(** A subnormal operand with mantissa 32 or more makes [addIEEE754] shift by
    a negative count. *)
Lemma addIEEE754_panics_on_subnormal :
  addIEEE754 0x3C00 0x0020 RoundNearestEven = Panic.
Proof. reflexivity. Qed.

(** * Further properties of the package *)

(** ** Components, sign and magnitude (types.go) *)

Lemma pack_extract_check_all : all_uint16 pack_extract_check = true.
Proof. vm_compute. reflexivity. Qed.

Lemma extract_pack_check_all : all_uint16 extract_pack_check = true.
Proof. vm_compute. reflexivity. Qed.

Lemma sign_check_all : all_uint16 sign_check = true.
Proof. vm_compute. reflexivity. Qed.

Ltac split_checks H :=
  repeat (apply andb_true_iff in H; destruct H as [H ?]);
  repeat match goal with
         | E : Bool.eqb _ _ = true |- _ => apply eqb_prop in E
         | E : (_ =? _) = true |- _ => apply Z.eqb_eq in E
         end.

(** How the predicates read on the number [f]: the sign bit is [f >= 2^15],
    the magnitude is [f mod 2^15], a zero has magnitude 0 and a NaN has a
    magnitude above 0x7C00. *)
Lemma sign_facts (f : Float16) :
  uint16 f ->
  Signbit f = (32768 <=? f)
  /\ Abs f = f mod 32768
  /\ IsZero f = (f mod 32768 =? 0)
  /\ IsNaN f = (31744 <? f mod 32768).
Proof.
  intros Hf. pose proof (all_uint16_spec _ sign_check_all f Hf) as H.
  unfold sign_check in H. split_checks H. repeat split; assumption.
Qed.

Lemma pack_fields (f s e m : Z) :
  uint16 f -> 0 <= s <= 1 -> 0 <= e <= 31 -> 0 <= m <= 1023 ->
  extractComponents f = (f / 32768, (f / 1024) mod 32, f mod 1024)
  /\ (let '(s', e', m') := extractComponents f in packComponents s' e' m' = f)
  /\ extractComponents (packComponents s e m) = (s, e, m)
  /\ packComponents s e m = s * 32768 + e * 1024 + m.
Proof.
  intros Hf Hs He Hm.
  pose proof (all_uint16_spec _ pack_extract_check_all f Hf) as H1.
  unfold pack_extract_check in H1.
  destruct (extractComponents f) as [[s1 e1] m1].
  split_checks H1.
  split; [congruence|]. split; [assumption|].
  set (i := s * 32768 + e * 1024 + m).
  assert (Hi : uint16 i) by (unfold uint16, i; lia).
  pose proof (all_uint16_spec _ extract_pack_check_all i Hi) as Hq.
  unfold extract_pack_check in Hq.
  assert (Es : i / 32768 = s)
    by (symmetry; apply (Z.div_unique _ _ _ (e * 1024 + m)); unfold i; lia).
  assert (Em : i mod 1024 = m)
    by (symmetry; apply (Z.mod_unique _ _ (s * 32 + e)); unfold i; lia).
  assert (Ee : (i / 1024) mod 32 = e).
  { replace (i / 1024) with (s * 32 + e)
      by (apply (Z.div_unique _ _ _ m); unfold i; lia).
    symmetry. apply (Z.mod_unique _ _ s); lia. }
  rewrite Es, Ee, Em in Hq.
  destruct (extractComponents (packComponents s e m)) as [[s2 e2] m2].
  split_checks Hq. subst s2 e2 m2. split; [reflexivity | assumption].
Qed.

(** X1.  [extractComponents] and [packComponents] are inverse to each other:
    packing the three fields of a 16-bit pattern gives the pattern back, and
    the fields of a packed triple are the triple, for a sign of one bit, an
    exponent of five bits and a mantissa of ten bits.  The fields are the
    arithmetic ones: [f / 2^15], [(f / 2^10) mod 32] and [f mod 2^10]. *)
Theorem pack_extract_inverse (f s e m : Z) :
  uint16 f -> 0 <= s <= 1 -> 0 <= e <= 31 -> 0 <= m <= 1023 ->
  extractComponents f = (f / 32768, (f / 1024) mod 32, f mod 1024)
  /\ (let '(s', e', m') := extractComponents f in packComponents s' e' m' = f)
  /\ extractComponents (packComponents s e m) = (s, e, m)
  /\ packComponents s e m = s * 32768 + e * 1024 + m.
Proof. exact (pack_fields f s e m). Qed.

Lemma pack_extract_inverse_witness :
  extractComponents 0xC3FF = (1, 16, 1023)
  /\ packComponents 1 16 1023 = 0xC3FF.
Proof.
  destruct (pack_extract_inverse 0xC3FF 1 16 1023) as (Hx & _ & _ & Hp);
    [unfold uint16; lia | lia | lia | lia |].
  split; [rewrite Hx; reflexivity | rewrite Hp; reflexivity].
Defined.

Lemma magnitude_mask_testbit (i : Z) :
  0 <= i -> Z.testbit 0x7FFF i = (i <? 15).
Proof.
  intros Hi. change 0x7FFF with (Z.ones 15).
  apply Z.testbit_ones_nonneg; lia.
Qed.

Lemma magnitude_Neg (f : Float16) : Z.land (Neg f) 0x7FFF = Z.land f 0x7FFF.
Proof.
  apply Z.bits_inj'. intros i Hi.
  rewrite !Z.land_spec, Neg_testbit, magnitude_mask_testbit by exact Hi.
  destruct (Z.eqb_spec i 15) as [-> | Hne].
  - rewrite !andb_false_r. reflexivity.
  - rewrite xorb_false_r. reflexivity.
Qed.

Lemma uint16_testbit_high (f i : Z) :
  uint16 f -> 16 <= i -> Z.testbit f i = false.
Proof.
  intros Hf Hi. unfold uint16 in Hf.
  rewrite <- (Z.mod_small f (2 ^ 16)) by (change (2 ^ 16) with 65536; lia).
  apply Z.mod_pow2_bits_high. lia.
Qed.

(** X2.  [Sign] is 0 exactly on the two zeros, -1 on every other pattern
    with the sign bit set and 1 on every other pattern with the sign bit
    clear; NaN patterns are no exception and get -1 or 1. *)
Theorem Sign_cases (f : Float16) :
  Sign f = (if IsZero f then 0 else if Signbit f then -1 else 1)
  /\ (Sign f = 0 <-> IsZero f = true)
  /\ (Sign (Neg f) = - Sign f).
Proof.
  assert (Hz : IsZero (Neg f) = IsZero f).
  { unfold IsZero. rewrite magnitude_Neg. reflexivity. }
  assert (Hsb : Signbit (Neg f) = negb (Signbit f)).
  { rewrite !Signbit_testbit, Neg_testbit. simpl.
    destruct (Z.testbit f 15); reflexivity. }
  assert (Hsign : forall x, Sign x = if IsZero x then 0 else if Signbit x then -1 else 1).
  { intros x. unfold Sign, Signbit. reflexivity. }
  split; [apply Hsign|]. split.
  - rewrite Hsign. destruct (IsZero f), (Signbit f); split; intros; try reflexivity; discriminate.
  - rewrite !Hsign, Hz, Hsb. destruct (IsZero f), (Signbit f); reflexivity.
Qed.

(** X3.  [CopySign(f, s)] has the magnitude of [f] and the sign bit of [s];
    on a 16-bit [f] it is [f] itself when the two sign bits agree and
    [Neg f] when they differ. *)
Theorem CopySign_magnitude_and_sign (f s : Float16) :
  uint16 f ->
  Abs (CopySign f s) = Abs f
  /\ Signbit (CopySign f s) = Signbit s
  /\ CopySign f s = (if Bool.eqb (Signbit f) (Signbit s) then f else Neg f).
Proof.
  intros Hf.
  assert (Hbit : forall i, 0 <= i ->
            Z.testbit (CopySign f s) i
            = (Z.testbit f i && (i <? 15)) || (Z.testbit s i && (i =? 15))).
  { intros i Hi. unfold CopySign.
    rewrite Z.lor_spec, !Z.land_spec, SignMask_testbit,
      magnitude_mask_testbit by exact Hi. reflexivity. }
  split; [|split].
  - unfold Abs. apply Z.bits_inj'. intros i Hi.
    rewrite !Z.land_spec, Hbit, magnitude_mask_testbit by exact Hi.
    destruct (Z.ltb_spec i 15) as [Hlt | Hge].
    + destruct (Z.eqb_spec i 15) as [E | _]; [lia|].
      rewrite !andb_true_r, andb_false_r, orb_false_r. reflexivity.
    + rewrite !andb_false_r. reflexivity.
  - rewrite !Signbit_testbit, Hbit by lia. cbn.
    rewrite andb_false_r, andb_true_r. reflexivity.
  - rewrite !Signbit_testbit. apply Z.bits_inj'. intros i Hi.
    rewrite Hbit by exact Hi.
    assert (Hhigh : 16 <= i -> Z.testbit f i = false)
      by (apply uint16_testbit_high; exact Hf).
    destruct (Z.ltb_spec i 15) as [Hlt | Hge];
      destruct (Z.eqb_spec i 15) as [E | Hne]; try lia.
    + rewrite andb_true_r, andb_false_r, orb_false_r.
      destruct (Bool.eqb (Z.testbit f 15) (Z.testbit s 15)); [reflexivity|].
      rewrite Neg_testbit. destruct (Z.eqb_spec i 15); [lia|].
      rewrite xorb_false_r. reflexivity.
    + subst i. rewrite andb_false_r, andb_true_r. cbn [orb].
      destruct (Z.testbit f 15) eqn:Ef, (Z.testbit s 15) eqn:Es; cbn [Bool.eqb];
        try rewrite Neg_testbit; try rewrite Ef; reflexivity.
    + rewrite !andb_false_r. cbn [orb].
      destruct (Bool.eqb (Z.testbit f 15) (Z.testbit s 15)).
      * symmetry. apply Hhigh. lia.
      * rewrite Neg_testbit. destruct (Z.eqb_spec i 15); [lia|].
        rewrite xorb_false_r. symmetry. apply Hhigh. lia.
Qed.

Lemma CopySign_magnitude_and_sign_witness :
  CopySign 0x3C00 0x8000 = 0xBC00 /\ Abs (CopySign 0x3C00 0x8000) = 0x3C00.
Proof.
  destruct (CopySign_magnitude_and_sign 0x3C00 0x8000) as (Ha & _ & Hc);
    [unfold uint16; lia |].
  split; [rewrite Hc; reflexivity | rewrite Ha; reflexivity].
Defined.

Lemma leadingZeros10_check_all :
  all_prefix 10 0 (fun x => (x =? 0) || (leadingZeros10 x =? 9 - Z.log2 x - 6))
  = true.
Proof. vm_compute. reflexivity. Qed.

(** X4.  On a nonzero 10-bit mantissa [leadingZeros10] returns the number
    of leading zeros of the 10-bit field, [9 - log2 x], less 6: a value
    between -6 and 3, negative from [x = 16] on. *)
Theorem leadingZeros10_is_count_minus_6 (x : Z) :
  1 <= x <= 1023 ->
  leadingZeros10 x = (9 - Z.log2 x) - 6
  /\ -6 <= leadingZeros10 x <= 3
  /\ (leadingZeros10 x < 0 <-> 16 <= x).
Proof.
  intros Hx.
  pose proof (all_prefix_spec 10 _ 0 leadingZeros10_check_all x) as H.
  change (2 ^ Z.of_nat 10) with 1024 in H. specialize (H ltac:(lia)).
  apply orb_true_iff in H as [H | H]; [apply Z.eqb_eq in H; lia|].
  apply Z.eqb_eq in H.
  assert (Hlog : 0 <= Z.log2 x < 10).
  { split; [apply Z.log2_nonneg|]. apply Z.log2_lt_pow2; [lia|].
    change (2 ^ 10) with 1024. lia. }
  split; [lia|]. split; [lia|].
  rewrite H. split; intros Hc.
  - assert (4 <= Z.log2 x) by lia.
    destruct (Z_lt_le_dec x 16) as [Hlt | Hge]; [|exact Hge].
    assert (Z.log2 x < 4) by (apply Z.log2_lt_pow2; [lia | exact Hlt]). lia.
  - assert (4 <= Z.log2 x)
      by (change 4 with (Z.log2 16); apply Z.log2_le_mono; exact Hc).
    lia.
Qed.

Lemma leadingZeros10_is_count_minus_6_witness :
  leadingZeros10 0x200 = -6.
Proof.
  destruct (leadingZeros10_is_count_minus_6 0x200) as (H & _ & _); [lia|].
  rewrite H. reflexivity.
Defined.

(** ** Comparison (arithmetic.go) *)

Ltac to_arith :=
  repeat match goal with
         | |- context [Z.eqb ?x ?y] => destruct (Z.eqb_spec x y)
         | |- context [Z.ltb ?x ?y] => destruct (Z.ltb_spec x y)
         | |- context [Z.leb ?x ?y] => destruct (Z.leb_spec x y)
         end.

Lemma key_order (a b : Float16) :
  uint16 a -> uint16 b -> IsNaN a = false -> IsNaN b = false ->
  Less a b = (order_key a <? order_key b)
  /\ Equal a b = (order_key a =? order_key b)
  /\ LessEqual a b = (order_key a <=? order_key b)
  /\ Greater a b = (order_key b <? order_key a)
  /\ GreaterEqual a b = (order_key b <=? order_key a).
Proof.
  intros Ha Hb Hna Hnb.
  destruct (sign_facts a Ha) as (HsA & _ & HzA & _).
  destruct (sign_facts b Hb) as (HsB & _ & HzB & _).
  assert (HL : forall x y, uint16 x -> uint16 y ->
            IsNaN x = false -> IsNaN y = false ->
            Signbit x = (32768 <=? x) -> Signbit y = (32768 <=? y) ->
            IsZero x = (x mod 32768 =? 0) -> IsZero y = (y mod 32768 =? 0) ->
            Less x y = (order_key x <? order_key y)).
  { intros x y Hx Hy Nx Ny Sx Sy Zx Zy. unfold Less, order_key, uint16 in *.
    rewrite Nx, Ny, Sx, Sy, Zx, Zy. cbn [orb].
    pose proof (Z.mod_pos_bound x 32768 ltac:(lia)).
    pose proof (Z.mod_pos_bound y 32768 ltac:(lia)).
    pose proof (Z.div_mod x 32768 ltac:(lia)).
    pose proof (Z.div_mod y 32768 ltac:(lia)).
    destruct (Z.leb_spec 32768 x); destruct (Z.leb_spec 32768 y);
      to_arith; cbn; to_arith; try reflexivity; lia. }
  assert (HE : forall x y, uint16 x -> uint16 y ->
            IsNaN x = false -> IsNaN y = false ->
            IsZero x = (x mod 32768 =? 0) -> IsZero y = (y mod 32768 =? 0) ->
            Equal x y = (order_key x =? order_key y)).
  { intros x y Hx Hy Nx Ny Zx Zy. unfold Equal, order_key, uint16 in *.
    rewrite Nx, Ny, Zx, Zy. cbn [orb].
    pose proof (Z.mod_pos_bound x 32768 ltac:(lia)).
    pose proof (Z.mod_pos_bound y 32768 ltac:(lia)).
    pose proof (Z.div_mod x 32768 ltac:(lia)).
    pose proof (Z.div_mod y 32768 ltac:(lia)).
    destruct (Z.leb_spec 32768 x); destruct (Z.leb_spec 32768 y);
      to_arith; cbn; to_arith; try reflexivity; lia. }
  pose proof (HL a b Ha Hb Hna Hnb HsA HsB HzA HzB) as Lab.
  pose proof (HL b a Hb Ha Hnb Hna HsB HsA HzB HzA) as Lba.
  pose proof (HE a b Ha Hb Hna Hnb HzA HzB) as Eab.
  pose proof (HE b a Hb Ha Hnb Hna HzB HzA) as Eba.
  unfold LessEqual, GreaterEqual, Greater.
  rewrite Lab, Lba, Eab.
  repeat split; to_arith; cbn; try reflexivity; lia.
Qed.

(** X5.  On values that are not NaN the comparisons are those of the
    integer keys: [Less] is [<], [Equal] is [=], [LessEqual] is [<=],
    [Greater] is [>] and [GreaterEqual] is [>=] on [order_key]; in
    particular [+0] and [-0] are equal and neither is less. *)
Theorem comparisons_are_key_order (a b : Float16) :
  uint16 a -> uint16 b -> IsNaN a = false -> IsNaN b = false ->
  Less a b = (order_key a <? order_key b)
  /\ Equal a b = (order_key a =? order_key b)
  /\ LessEqual a b = (order_key a <=? order_key b)
  /\ Greater a b = (order_key b <? order_key a)
  /\ GreaterEqual a b = (order_key b <=? order_key a).
Proof. exact (key_order a b). Qed.

Lemma comparisons_are_key_order_witness :
  Less NegativeZero PositiveZero = false
  /\ Equal NegativeZero PositiveZero = true
  /\ LessEqual 0xC000 0xBC00 = true.
Proof.
  assert (U : forall x, 0 <= x < 65536 -> uint16 x) by (intros x Hx; exact Hx).
  pose proof (comparisons_are_key_order NegativeZero PositiveZero
                (U NegativeZero ltac:(unfold NegativeZero; lia))
                (U PositiveZero ltac:(unfold PositiveZero; lia)) eq_refl eq_refl)
    as (HL & HE & _).
  pose proof (comparisons_are_key_order 0xC000 0xBC00
                (U 0xC000 ltac:(lia)) (U 0xBC00 ltac:(lia)) eq_refl eq_refl)
    as (_ & _ & HLE & _).
  split; [rewrite HL; reflexivity|].
  split; [rewrite HE; reflexivity | rewrite HLE; reflexivity].
Defined.

(** X6.  Any comparison with a NaN operand is false, [Equal(f, f)]
    included; the comparison of a value with itself holds for [Equal],
    [LessEqual] and [GreaterEqual] exactly when the value is not a NaN. *)
Theorem comparisons_with_NaN (a b : Float16) :
  (IsNaN a = true \/ IsNaN b = true ->
     Less a b = false /\ Greater a b = false /\ Equal a b = false
     /\ LessEqual a b = false /\ GreaterEqual a b = false)
  /\ Equal a a = negb (IsNaN a)
  /\ LessEqual a a = negb (IsNaN a)
  /\ Less a a = false.
Proof.
  assert (Hself : Less a a = false).
  { unfold Less. destruct (IsNaN a); cbn [orb]; [reflexivity|].
    destruct (IsZero a); cbn [andb]; [reflexivity|].
    destruct (Signbit a); cbn [andb negb]; apply Z.ltb_irrefl. }
  assert (Heq : Equal a a = negb (IsNaN a)).
  { unfold Equal. destruct (IsNaN a); cbn [orb negb]; [reflexivity|].
    destruct (IsZero a); cbn [andb]; [reflexivity | apply Z.eqb_refl]. }
  split; [|split; [exact Heq | split; [|exact Hself]]].
  - intros Hnan. unfold LessEqual, GreaterEqual, Greater, Less, Equal.
    destruct Hnan as [-> | ->]; rewrite ?orb_true_r; cbn [orb];
      repeat split; reflexivity.
  - unfold LessEqual. rewrite Hself, Heq. reflexivity.
Qed.

(** X7.  Among values that are not NaN, [Less] is a strict order that is
    total up to [Equal]: it is transitive, and for any two values exactly
    one of [Less a b], [Equal a b] and [Less b a] holds. *)
Theorem Less_strict_total_order (a b c : Float16) :
  uint16 a -> uint16 b -> uint16 c ->
  IsNaN a = false -> IsNaN b = false -> IsNaN c = false ->
  (Less a b = true -> Less b c = true -> Less a c = true)
  /\ (Less a b = true /\ Equal a b = false /\ Less b a = false
      \/ Less a b = false /\ Equal a b = true /\ Less b a = false
      \/ Less a b = false /\ Equal a b = false /\ Less b a = true).
Proof.
  intros Ha Hb Hc Na Nb Nc.
  destruct (key_order a b Ha Hb Na Nb) as (Lab & Eab & _).
  destruct (key_order b c Hb Hc Nb Nc) as (Lbc & _).
  destruct (key_order a c Ha Hc Na Nc) as (Lac & _).
  destruct (key_order b a Hb Ha Nb Na) as (Lba & _).
  rewrite Lab, Lbc, Lac, Lba, Eab. split.
  - rewrite !Z.ltb_lt. lia.
  - to_arith; try lia; auto.
Qed.

Lemma Less_strict_total_order_witness :
  Less NegativeInfinity MaxValue = true
  /\ (Less NegativeInfinity 0xBC00 = true /\ Equal NegativeInfinity 0xBC00 = false
        /\ Less 0xBC00 NegativeInfinity = false
      \/ Less NegativeInfinity 0xBC00 = false /\ Equal NegativeInfinity 0xBC00 = true
        /\ Less 0xBC00 NegativeInfinity = false
      \/ Less NegativeInfinity 0xBC00 = false /\ Equal NegativeInfinity 0xBC00 = false
        /\ Less 0xBC00 NegativeInfinity = true).
Proof.
  assert (U : forall x, 0 <= x < 65536 -> uint16 x) by (intros x Hx; exact Hx).
  destruct (Less_strict_total_order NegativeInfinity 0xBC00 MaxValue
              (U NegativeInfinity ltac:(unfold NegativeInfinity; lia))
              (U 0xBC00 ltac:(lia))
              (U MaxValue ltac:(unfold MaxValue; lia))
              eq_refl eq_refl eq_refl) as [Htrans Htri].
  split; [apply Htrans; reflexivity | exact Htri].
Defined.

(** X8.  [Min] and [Max] return one of their operands; the result is a NaN
    only when both operands are; and for operands that are not NaN the
    minimum is below both and the maximum above both in the order of
    [LessEqual]. *)
Theorem Min_Max_bounds (a b : Float16) :
  uint16 a -> uint16 b ->
  (Min a b = a \/ Min a b = b)
  /\ (Max a b = a \/ Max a b = b)
  /\ IsNaN (Min a b) = IsNaN a && IsNaN b
  /\ IsNaN (Max a b) = IsNaN a && IsNaN b
  /\ (IsNaN a = false -> IsNaN b = false ->
      LessEqual (Min a b) a = true /\ LessEqual (Min a b) b = true
      /\ LessEqual a (Max a b) = true /\ LessEqual b (Max a b) = true).
Proof.
  intros Ha Hb. unfold Min, Max, Greater.
  destruct (IsNaN a) eqn:Na; destruct (IsNaN b) eqn:Nb; cbn [andb].
  - repeat split; auto; discriminate.
  - repeat split; auto; discriminate.
  - rewrite Na. repeat split; auto; discriminate.
  - destruct (key_order a b Ha Hb Na Nb) as (Lab & _ & LEab & _).
    destruct (key_order b a Hb Ha Nb Na) as (Lba & _ & LEba & _).
    destruct (key_order a a Ha Ha Na Na) as (_ & _ & LEaa & _).
    destruct (key_order b b Hb Hb Nb Nb) as (_ & _ & LEbb & _).
    rewrite Lab, Lba.
    assert (Hfin : forall x, x = a \/ x = b -> IsNaN x = false)
      by (intros x [-> | ->]; assumption).
    destruct (Z.ltb_spec (order_key a) (order_key b));
      destruct (Z.ltb_spec (order_key b) (order_key a));
      (split; [auto|]); (split; [auto|]);
      (split; [apply Hfin; auto|]); (split; [apply Hfin; auto|]);
      intros _ _; rewrite ?LEab, ?LEba, ?LEaa, ?LEbb;
      repeat split; apply Z.leb_le; lia.
Qed.

Lemma Min_Max_bounds_witness :
  IsNaN (Min QuietNaN 0x3C00) = false /\ LessEqual (Min 0xBC00 0x3C00) 0x3C00 = true.
Proof.
  assert (U : forall x, 0 <= x < 65536 -> uint16 x) by (intros x Hx; exact Hx).
  pose proof (Min_Max_bounds QuietNaN 0x3C00
                (U QuietNaN ltac:(unfold QuietNaN; lia)) (U 0x3C00 ltac:(lia)))
    as (_ & _ & Hn & _).
  pose proof (Min_Max_bounds 0xBC00 0x3C00 (U 0xBC00 ltac:(lia)) (U 0x3C00 ltac:(lia)))
    as (_ & _ & _ & _ & Hle).
  split; [rewrite Hn; reflexivity | apply Hle; reflexivity].
Defined.

(** ** The rounding decision (convert.go) *)

Lemma u32_small (x : Z) : 0 <= x < 2 ^ 32 -> u32 x = x.
Proof.
  intros Hx. unfold u32. change 0xFFFFFFFF with (Z.ones 32).
  rewrite Z.land_ones by lia. apply Z.mod_small. exact Hx.
Qed.

Lemma u32_mask (n : Z) :
  0 <= n <= 31 -> u32 (u32 (Z.shiftl 1 n) - 1) = Z.ones n.
Proof.
  intros Hn. rewrite Z.shiftl_1_l.
  assert (Hp : 0 < 2 ^ n) by (apply Z.pow_pos_nonneg; lia).
  assert (Hlt : 2 ^ n < 2 ^ 32) by (apply Z.pow_lt_mono_r; lia).
  rewrite (u32_small (2 ^ n)) by lia.
  rewrite u32_small by lia.
  rewrite Z.ones_equiv. lia.
Qed.

Lemma land_1 (x : Z) : Z.land x 1 = x mod 2.
Proof. apply (Z.land_ones x 1). lia. Qed.

Lemma shouldRound_table (mantissa shift : Z) (mode : RoundingMode) :
  0 <= mantissa < 2 ^ 32 -> 1 <= shift <= 31 ->
  let d := mantissa mod 2 ^ shift in
  let half := 2 ^ (shift - 1) in
  let q := mantissa / 2 ^ shift in
  shouldRound mantissa shift mode =
  match mode with
  | RoundNearestEven => (half <? d) || ((d =? half) && Z.odd q)
  | RoundNearestAway => half <=? d
  | RoundTowardZero => false
  | RoundTowardPositive => negb (d =? 0)
  | RoundTowardNegative => false
  end.
Proof.
  intros Hm Hs d half q. unfold shouldRound.
  destruct (Z.leb_spec shift 0) as [E | _]; [lia|].
  rewrite !u32_mask by lia.
  rewrite !Z.land_ones by lia.
  rewrite !land_1, !Z.shiftr_div_pow2 by lia.
  fold d q half.
  assert (Hhalf : 0 < half) by (apply Z.pow_pos_nonneg; lia).
  assert (Hpow : 2 ^ shift = half * 2).
  { unfold half. replace shift with (shift - 1 + 1) at 1 by lia.
    rewrite Z.pow_add_r by lia. reflexivity. }
  assert (Hd : d = mantissa mod half + half * ((mantissa / half) mod 2)).
  { unfold d. rewrite Hpow. apply Z.rem_mul_r; lia. }
  assert (Hrem : d mod half = mantissa mod half).
  { rewrite Hd.
    replace (mantissa mod half + half * ((mantissa / half) mod 2))
      with (mantissa mod half + (mantissa / half) mod 2 * half) by lia.
    rewrite Z.mod_add by lia. apply Z.mod_mod. lia. }
  rewrite Hrem.
  pose proof (Z.mod_pos_bound mantissa half Hhalf) as Br.
  pose proof (Z.mod_pos_bound (mantissa / half) 2 ltac:(lia)) as Bg.
  set (g := (mantissa / half) mod 2) in *.
  set (r := mantissa mod half) in *.
  assert (Hodd : (q mod 2 =? 1) = Z.odd q).
  { rewrite Zmod_odd. destruct (Z.odd q); reflexivity. }
  destruct mode.
  - rewrite Hodd.
    destruct (Z.eqb_spec g 0) as [G0 | G1].
    + destruct (Z.ltb_spec half d); destruct (Z.eqb_spec d half);
        try reflexivity; nia.
    + assert (g = 1) by lia.
      destruct (Z.eqb_spec r 0) as [R0 | R1]; cbn [negb].
      * destruct (Z.ltb_spec half d); destruct (Z.eqb_spec d half);
          try reflexivity; nia.
      * destruct (Z.ltb_spec half d); [reflexivity | nia].
  - destruct (Z.eqb_spec g 1); destruct (Z.leb_spec half d);
      try reflexivity; nia.
  - reflexivity.
  - reflexivity.
  - reflexivity.
Qed.

(** X9.  The decision of [shouldRound] when [shift] low bits of a 32-bit
    [mantissa] are dropped ([1 <= shift <= 31]), in terms of the discarded
    part [d = mantissa mod 2^shift], the half unit [2^(shift-1)] and the
    retained part [q = mantissa / 2^shift]: nearest-even rounds up when [d]
    is above the half, or equal to it with [q] odd; nearest-away when [d] is
    at least the half; toward-positive when [d] is not zero; toward-zero and
    toward-negative never. *)
Theorem shouldRound_decision (mantissa shift : Z) (mode : RoundingMode) :
  0 <= mantissa < 2 ^ 32 -> 1 <= shift <= 31 ->
  let d := mantissa mod 2 ^ shift in
  let half := 2 ^ (shift - 1) in
  let q := mantissa / 2 ^ shift in
  shouldRound mantissa shift mode =
  match mode with
  | RoundNearestEven => (half <? d) || ((d =? half) && Z.odd q)
  | RoundNearestAway => half <=? d
  | RoundTowardZero => false
  | RoundTowardPositive => negb (d =? 0)
  | RoundTowardNegative => false
  end.
Proof. exact (shouldRound_table mantissa shift mode). Qed.

Lemma shouldRound_decision_witness :
  shouldRound 0x3000 13 RoundNearestEven = true
  /\ shouldRound 0x1000 13 RoundNearestEven = false.
Proof.
  split.
  - rewrite (shouldRound_decision 0x3000 13 RoundNearestEven); [reflexivity | lia | lia].
  - rewrite (shouldRound_decision 0x1000 13 RoundNearestEven); [reflexivity | lia | lia].
Defined.

(** ** The narrowing conversion (convert.go) *)

Lemma u16_small (x : Z) : 0 <= x < 65536 -> u16 x = x.
Proof.
  intros Hx. unfold u16. change 0xFFFF with (Z.ones 16).
  rewrite Z.land_ones by lia. apply Z.mod_small.
  change (2 ^ 16) with 65536. exact Hx.
Qed.

Lemma f32_decompose (f : Z) :
  uint32 f ->
  exists s e m, 0 <= s <= 1 /\ 0 <= e < 256 /\ 0 <= m < 2 ^ 23
                /\ f = f32_bits s e m.
Proof.
  intros Hf. unfold uint32 in Hf.
  exists (f / 2 ^ 31), ((f / 2 ^ 23) mod 256), (f mod 2 ^ 23).
  pose proof (Z.div_mod f (2 ^ 23) ltac:(lia)) as H1.
  pose proof (Z.mod_pos_bound f (2 ^ 23) ltac:(lia)) as B1.
  pose proof (Z.div_mod (f / 2 ^ 23) 256 ltac:(lia)) as H2.
  pose proof (Z.mod_pos_bound (f / 2 ^ 23) 256 ltac:(lia)) as B2.
  assert (H3 : f / 2 ^ 23 / 256 = f / 2 ^ 31).
  { rewrite Z.div_div by lia. reflexivity. }
  rewrite H3 in H2.
  assert (0 <= f / 2 ^ 31 <= 1).
  { split; [apply Z.div_pos; lia|].
    assert (f / 2 ^ 31 < 2) by (apply Z.div_lt_upper_bound; lia). lia. }
  unfold f32_bits. repeat split; try lia.
Qed.

(** The exits of [ToFloat16WithMode] in terms of the three fields of its
    operand. *)
Lemma ToFloat16WithMode_by_fields
    (s e m : Z) (c : ConversionMode) (r : RoundingMode) :
  0 <= s <= 1 -> 0 <= e < 256 -> 0 <= m < 2 ^ 23 ->
  ToFloat16WithMode (f32_bits s e m) c r =
  if (e =? 0) && (m =? 0) then (signed_zero (negb (s =? 0)), None)
  else if e =? 255 then
    if m =? 0 then
      if ConversionMode_eqb c ModeStrict
      then (0, Some (mkError "convert" (Some (f32_bits s e m))
                       "infinity not allowed in strict mode" ErrInfinity))
      else (signed_infinity (negb (s =? 0)), None)
    else
      if ConversionMode_eqb c ModeStrict
      then (0, Some (mkError "convert" (Some (f32_bits s e m))
                       "NaN not allowed in strict mode" ErrNaN))
      else ((if s =? 0 then QuietNaN else NegativeQNaN), None)
  else if 143 <=? e then
    if strict_or_exact c
    then convert_error (f32_bits s e m)
           "overflow: value too large for float16" ErrOverflow
    else (signed_infinity (negb (s =? 0)), None)
  else if e <=? 112 then
    if strict_or_exact c
    then convert_error (f32_bits s e m)
           "underflow: value too small for float16" ErrUnderflow
    else (signed_zero (negb (s =? 0)), None)
  else narrow_normal (f32_bits s e m) s m (e - 112) c r.
Proof.
  intros Hs He Hm.
  destruct (Z.leb_spec 143 e) as [Hov | Hnov];
    [| destruct (Z.leb_spec e 112) as [Hun | Hnun]].
  3: { rewrite (ToFloat16WithMode_normal_range s e m He Hm c r) by lia.
       destruct (Z.eqb_spec e 0); [lia|]. destruct (Z.eqb_spec e 255); [lia|].
       reflexivity. }
  all: unfold ToFloat16WithMode;
    unfold F32.is_zero, F32.is_inf, F32.is_nan, F32.gt0, F32.signbit,
      F32.is_nan, F32.is_zero, F32.expo, F32.frac, F32.sign;
    rewrite !(f32_bits_magnitude s e m He Hm), !(f32_bits_sign s e m He Hm),
      !(f32_bits_expo s e m He Hm), !(f32_bits_frac s e m Hm);
    unfold Float32ExponentBias, ExponentBias, ExponentInfinity, strict_or_exact.
  - (* exponent field 143 and above *)
    destruct (Z.eqb_spec e 0); [lia|]. cbn [andb].
    destruct (Z.eqb_spec (e * 2 ^ 23 + m) 0); [lia|].
    destruct (Z.eqb_spec e 255) as [E255 | N255].
    + subst e. destruct (Z.eqb_spec m 0) as [-> | Nm].
      * change (255 * 2 ^ 23 + 0 =? 2139095040) with true. cbn [andb negb].
        destruct (ConversionMode_eqb c ModeStrict); [reflexivity|].
        destruct (Z.eqb_spec s 0); reflexivity.
      * destruct (Z.eqb_spec (255 * 2 ^ 23 + m) 2139095040); [lia|].
        cbn [andb negb].
        destruct (ConversionMode_eqb c ModeStrict); [reflexivity|].
        destruct (Z.eqb_spec s 0); reflexivity.
    + destruct (Z.eqb_spec (e * 2 ^ 23 + m) 2139095040); [lia|].
      cbn [andb].
      destruct (Z.leb_spec 31 (e - 127 + 15)); [|lia].
      destruct (ConversionMode_eqb c ModeStrict || ConversionMode_eqb c ModeExact);
        [reflexivity|].
      destruct (Z.eqb_spec s 0); reflexivity.
  - (* exponent field 112 and below *)
    destruct (Z.eqb_spec e 255); [lia|].
    destruct (Z.eqb_spec (e * 2 ^ 23 + m) 2139095040); [lia|].
    cbn [andb].
    destruct (Z.eqb_spec e 0) as [E0 | N0]; cbn [andb].
    + subst e. destruct (Z.eqb_spec m 0) as [-> | Nm].
      * change (0 * 2 ^ 23 + 0 =? 0) with true. cbv iota.
        assert (Es : s = 0 \/ s = 1) by lia.
        destruct Es as [-> | ->]; reflexivity.
      * destruct (Z.eqb_spec (0 * 2 ^ 23 + m) 0); [lia|].
        destruct (Z.leb_spec 31 (0 - 127 + 15)); [lia|].
        destruct (Z.leb_spec (0 - 127 + 15) 0); [|lia].
        rewrite narrow_underflow_flushes by lia.
        destruct (ConversionMode_eqb c ModeStrict || ConversionMode_eqb c ModeExact);
          [reflexivity|].
        destruct (Z.eqb_spec s 0); reflexivity.
    + destruct (Z.eqb_spec (e * 2 ^ 23 + m) 0); [lia|].
      destruct (Z.leb_spec 31 (e - 127 + 15)); [lia|].
      destruct (Z.leb_spec (e - 127 + 15) 0); [|lia].
      rewrite narrow_underflow_flushes by lia.
      destruct (ConversionMode_eqb c ModeStrict || ConversionMode_eqb c ModeExact);
        [reflexivity|].
      destruct (Z.eqb_spec s 0); reflexivity.
Qed.
Ltac shape_done :=
  unfold conversion_shape, convert_error, strict_or_exact,
    signed_zero, signed_infinity;
  cbn [fst snd Op negb Z.eqb ConversionMode_eqb orb];
  first [ split; [reflexivity
                 | split; [first [left; reflexivity | right; reflexivity]
                          | reflexivity]]
        | left; reflexivity
        | right; left; reflexivity
        | right; right; left; reflexivity ].

Lemma narrow_normal_shape
    (f32 s m e16 : Z) (c : ConversionMode) (r : RoundingMode) :
  0 <= s <= 1 -> 1 <= e16 <= 30 -> 0 <= m < 2 ^ 23 ->
  conversion_shape s c (narrow_normal f32 s m e16 c r).
Proof.
  intros Hs He Hm.
  assert (Hq : 0 <= Z.shiftr m 13 <= 1023).
  { rewrite Z.shiftr_div_pow2 by lia. split; [apply Z.div_pos; lia|].
    assert (m / 2 ^ 13 < 1024) by (apply Z.div_lt_upper_bound; lia). lia. }
  assert (Hpack : forall e' m', 1 <= e' <= 30 -> 0 <= m' <= 1023 ->
            conversion_shape s c
              (packComponents (u16 s) (u16 e') (u16 m'), None)).
  { intros e' m' He' Hm'. unfold conversion_shape. cbn [fst snd].
    rewrite !u16_small by lia.
    destruct (pack_fields 0 s e' m') as (_ & _ & _ & ->);
      [unfold uint16; lia | lia | lia | lia |].
    right. right. right. exists e', m'. repeat split; lia. }
  unfold narrow_normal.
  unfold Float32MantissaLen, MantissaLen, ExponentInfinity.
  change (23 - 10) with 13. change (Z.shiftl 1 10) with 1024.
  destruct (shouldRound m 13 r).
  - destruct (Z.leb_spec 1024 (Z.shiftr m 13 + 1)).
    + destruct (Z.leb_spec 31 (e16 + 1)).
      * assert (Es : s = 0 \/ s = 1) by lia.
        destruct c; destruct Es as [-> | ->]; shape_done.
      * apply Hpack; lia.
    + apply Hpack; lia.
  - apply Hpack; lia.
Qed.

Lemma ToFloat16WithMode_shape
    (f32 : Z) (c : ConversionMode) (r : RoundingMode) :
  uint32 f32 ->
  conversion_shape (Z.shiftr f32 31) c (ToFloat16WithMode f32 c r).
Proof.
  intros Hf.
  destruct (f32_decompose f32 Hf) as (s & e & m & Hs & He & Hm & ->).
  rewrite (f32_bits_sign s e m He Hm).
  rewrite (ToFloat16WithMode_by_fields s e m c r Hs He Hm).
  assert (Es : s = 0 \/ s = 1) by lia.
  destruct ((e =? 0) && (m =? 0)).
  { destruct Es as [-> | ->]; shape_done. }
  destruct (e =? 255).
  { destruct (m =? 0); destruct c; destruct Es as [-> | ->]; shape_done. }
  destruct (Z.leb_spec 143 e).
  { destruct c; destruct Es as [-> | ->]; shape_done. }
  destruct (Z.leb_spec e 112).
  { destruct c; destruct Es as [-> | ->]; shape_done. }
  apply narrow_normal_shape; lia.
Qed.

Lemma narrow_error_facts
    (f32 : Z) (c : ConversionMode) (r : RoundingMode) :
  uint32 f32 ->
  (c = ModeIEEE \/ c = ModeFast -> snd (ToFloat16WithMode f32 c r) = None)
  /\ (forall err, snd (ToFloat16WithMode f32 c r) = Some err ->
        fst (ToFloat16WithMode f32 c r) = 0
        /\ (c = ModeStrict \/ c = ModeExact) /\ Op err = "convert"%string).
Proof.
  intros Hf. pose proof (ToFloat16WithMode_shape f32 c r Hf) as H.
  unfold conversion_shape in H.
  destruct (snd (ToFloat16WithMode f32 c r)) as [err|].
  - split.
    + intros [-> | ->]; destruct H as (_ & [E | E] & _); discriminate E.
    + intros err' [= <-]. exact H.
  - split; [reflexivity | discriminate].
Qed.

(** X10.  [ToFloat16WithMode] never returns an error in ModeIEEE or
    ModeFast, for any float32 and any rounding mode; and when it does return
    an error (in ModeStrict or ModeExact) the value that comes with it is
    0x0000 and the operation name is "convert". *)
Theorem ToFloat16WithMode_errors
    (f32 : Z) (c : ConversionMode) (r : RoundingMode) :
  uint32 f32 ->
  (c = ModeIEEE \/ c = ModeFast -> snd (ToFloat16WithMode f32 c r) = None)
  /\ (forall err, snd (ToFloat16WithMode f32 c r) = Some err ->
        fst (ToFloat16WithMode f32 c r) = 0
        /\ (c = ModeStrict \/ c = ModeExact) /\ Op err = "convert"%string).
Proof. exact (narrow_error_facts f32 c r). Qed.

Lemma ToFloat16WithMode_errors_witness :
  snd (ToFloat16WithMode 0x7F7FFFFF ModeIEEE RoundNearestEven) = None.
Proof.
  assert (Hu : uint32 0x7F7FFFFF) by (unfold uint32; lia).
  destruct (ToFloat16WithMode_errors 0x7F7FFFFF ModeIEEE RoundNearestEven Hu)
    as [H _].
  apply H. left. reflexivity.
Defined.

Lemma narrow_result_facts
    (f32 : Z) (c : ConversionMode) (r : RoundingMode) :
  uint32 f32 -> snd (ToFloat16WithMode f32 c r) = None ->
  let v := fst (ToFloat16WithMode f32 c r) in
  uint16 v
  /\ Signbit v = F32.signbit f32
  /\ IsSubnormal v = false.
Proof.
  intros Hf Hok v. pose proof (ToFloat16WithMode_shape f32 c r Hf) as H.
  unfold conversion_shape in H. rewrite Hok in H. fold v in H.
  destruct (f32_decompose f32 Hf) as (s & e & m & Hs & He & Hm & E).
  unfold F32.signbit, F32.sign. rewrite E, (f32_bits_sign s e m He Hm) in *.
  assert (Es : s = 0 \/ s = 1) by lia.
  destruct H as [-> | [-> | [-> | (e' & m' & He' & Hm' & ->)]]].
  - destruct Es as [-> | ->]; repeat split; try reflexivity; cbn; lia.
  - destruct Es as [-> | ->]; repeat split; try reflexivity; cbn; lia.
  - destruct Es as [-> | ->]; repeat split; try reflexivity; cbn; lia.
  - assert (Hu : uint16 (s * 32768 + e' * 1024 + m')) by (unfold uint16; lia).
    destruct (sign_facts _ Hu) as (-> & _).
    destruct (pack_fields 0 s e' m') as (_ & _ & Hx & Hp);
      [unfold uint16; lia | lia | lia | lia |].
    rewrite Hp in Hx.
    split; [exact Hu|]. split.
    + destruct Es as [-> | ->]; [|].
      * destruct (Z.leb_spec 32768 (0 * 32768 + e' * 1024 + m')); [lia | reflexivity].
      * destruct (Z.leb_spec 32768 (1 * 32768 + e' * 1024 + m')); [reflexivity | lia].
    + unfold IsSubnormal. unfold extractComponents in Hx.
      injection Hx as _ He2 _. rewrite He2.
      destruct (Z.eqb_spec e' ExponentZero) as [E0 | _];
        [unfold ExponentZero in E0; lia | reflexivity].
Qed.

(** X11.  A result of [ToFloat16WithMode] that comes without an error is a
    16-bit pattern with the sign bit of the operand (a NaN operand
    included), and it is never a subnormal: it is a zero, an infinity, a NaN
    or a normal value. *)
Theorem ToFloat16WithMode_result
    (f32 : Z) (c : ConversionMode) (r : RoundingMode) :
  uint32 f32 -> snd (ToFloat16WithMode f32 c r) = None ->
  let v := fst (ToFloat16WithMode f32 c r) in
  uint16 v
  /\ Signbit v = F32.signbit f32
  /\ IsSubnormal v = false.
Proof. exact (narrow_result_facts f32 c r). Qed.

Lemma ToFloat16WithMode_result_witness :
  Signbit (fst (ToFloat16WithMode 0xB3800000 ModeIEEE RoundNearestEven)) = true
  /\ IsSubnormal (fst (ToFloat16WithMode 0xB3800000 ModeIEEE RoundNearestEven))
     = false.
Proof.
  assert (Hu : uint32 0xB3800000) by (unfold uint32; lia).
  destruct (ToFloat16WithMode_result 0xB3800000 ModeIEEE RoundNearestEven Hu eq_refl)
    as (_ & Hs & Hn).
  split; [rewrite Hs; reflexivity | exact Hn].
Defined.

(** X12.  Every nonzero float32 whose exponent field is 112 or less, that
    is every value of magnitude below [2^-14], the smallest normal half
    value, is flushed by [ToFloat16WithMode]: to the zero of its sign in
    ModeIEEE and ModeFast, to an Underflow error in ModeStrict and
    ModeExact, with every rounding mode.  No subnormal is produced. *)
Theorem ToFloat16WithMode_flushes_below_normal
    (f32 : Z) (c : ConversionMode) (r : RoundingMode) :
  uint32 f32 -> F32.is_zero f32 = false -> F32.expo f32 <= 112 ->
  ToFloat16WithMode f32 c r =
  if strict_or_exact c
  then convert_error f32 "underflow: value too small for float16" ErrUnderflow
  else (signed_zero (F32.signbit f32), None).
Proof.
  intros Hf Hnz Hexp.
  destruct (f32_decompose f32 Hf) as (s & e & m & Hs & He & Hm & E).
  unfold F32.signbit, F32.sign, F32.is_zero, F32.expo in *. subst f32.
  rewrite (f32_bits_sign s e m He Hm).
  rewrite (f32_bits_expo s e m He Hm) in Hexp.
  rewrite (f32_bits_magnitude s e m He Hm) in Hnz.
  rewrite (ToFloat16WithMode_by_fields s e m c r Hs He Hm).
  apply Z.eqb_neq in Hnz.
  destruct (Z.eqb_spec e 0) as [E0 | N0]; cbn [andb].
  - destruct (Z.eqb_spec m 0); [lia|]. subst e. cbn [Z.eqb Z.leb Z.compare].
    reflexivity.
  - destruct (Z.eqb_spec e 255); [lia|].
    destruct (Z.leb_spec 143 e); [lia|].
    destruct (Z.leb_spec e 112); [reflexivity | lia].
Qed.

Lemma ToFloat16WithMode_flushes_below_normal_witness :
  ToFloat16WithMode 0x387FC000 ModeIEEE RoundNearestEven = (PositiveZero, None).
Proof.
  apply (ToFloat16WithMode_flushes_below_normal 0x387FC000 ModeIEEE RoundNearestEven).
  - unfold uint32. lia.
  - reflexivity.
  - vm_compute. discriminate.
Defined.

(** ** Widening and the default conversion (convert.go) *)

Lemma widen_class_check_all : all_uint16 widen_class_check = true.
Proof. vm_compute. reflexivity. Qed.

Lemma default_roundtrip_check_all : all_uint16 default_roundtrip_check = true.
Proof. vm_compute. reflexivity. Qed.

Lemma int_roundtrip_check_all : all_prefix 13 0 int_roundtrip_check = true.
Proof. vm_compute. reflexivity. Qed.

Lemma widen_facts (f : Float16) :
  uint16 f ->
  uint32 (ToFloat32 f)
  /\ F32.signbit (ToFloat32 f) = Signbit f
  /\ F32.is_nan (ToFloat32 f) = IsNaN f
  /\ F32.is_inf (ToFloat32 f) = IsInf f 0
  /\ F32.is_zero (ToFloat32 f)
     = IsZero f || (IsSubnormal f && (16 <=? mantissa_field f))
  /\ (IsNaN f = true ->
      F32.frac (ToFloat32 f) = Z.lor 0x400000 (mantissa_field f * 8192))
  /\ (F32.is_zero (ToFloat32 f) = false -> F32.expo (ToFloat32 f) <> 0).
Proof.
  intros Hf. pose proof (all_uint16_spec _ widen_class_check_all f Hf) as H.
  unfold widen_class_check in H.
  repeat (apply andb_true_iff in H; destruct H as [H ?]).
  repeat match goal with E : Bool.eqb _ _ = true |- _ => apply eqb_prop in E end.
  apply Z.leb_le in H.
  match goal with E : (_ <? _) = true |- _ => apply Z.ltb_lt in E end.
  split; [unfold uint32; change 4294967296 with (2 ^ 32); lia|].
  repeat split; try assumption.
  - intros Hn.
    match goal with E : negb (IsNaN f) || _ = true |- _ =>
      rewrite Hn in E; cbn [negb orb] in E; apply Z.eqb_eq in E; exact E end.
  - intros Hz.
    match goal with E : F32.is_zero _ || _ = true |- _ =>
      rewrite Hz in E; cbn [orb] in E; apply negb_true_iff in E;
      apply Z.eqb_neq in E; exact E end.
Qed.

(** X13.  [ToFloat32] keeps the sign bit and the class of every half
    pattern: a NaN becomes a NaN, with the quiet bit set and the ten
    mantissa bits as the top of the fraction; an infinity becomes an
    infinity; the result is never a float32 subnormal; and it is a zero for
    the two zeros and also for every subnormal whose mantissa is 16 or
    more. *)
Theorem ToFloat32_sign_and_class (f : Float16) :
  uint16 f ->
  uint32 (ToFloat32 f)
  /\ F32.signbit (ToFloat32 f) = Signbit f
  /\ F32.is_nan (ToFloat32 f) = IsNaN f
  /\ F32.is_inf (ToFloat32 f) = IsInf f 0
  /\ F32.is_zero (ToFloat32 f)
     = IsZero f || (IsSubnormal f && (16 <=? mantissa_field f))
  /\ (IsNaN f = true ->
      F32.frac (ToFloat32 f) = Z.lor 0x400000 (mantissa_field f * 8192))
  /\ (F32.is_zero (ToFloat32 f) = false -> F32.expo (ToFloat32 f) <> 0).
Proof. exact (widen_facts f). Qed.

Lemma ToFloat32_sign_and_class_witness :
  F32.is_nan (ToFloat32 SignalingNaN) = true
  /\ F32.frac (ToFloat32 SignalingNaN) = 0x600000
  /\ F32.is_zero (ToFloat32 LargestSubnormal) = true.
Proof.
  assert (U : forall x, 0 <= x < 65536 -> uint16 x) by (intros x Hx; exact Hx).
  pose proof (ToFloat32_sign_and_class SignalingNaN
                (U SignalingNaN ltac:(unfold SignalingNaN; lia)))
    as (_ & _ & Hn & _ & _ & Hp & _).
  pose proof (ToFloat32_sign_and_class LargestSubnormal
                (U LargestSubnormal ltac:(unfold LargestSubnormal; lia)))
    as (_ & _ & _ & _ & Hz & _).
  split; [rewrite Hn; reflexivity|].
  split; [rewrite (Hp eq_refl); reflexivity | rewrite Hz; reflexivity].
Defined.

(** X14.  On every normal half value [ToFloat32] is exact: the float32 it
    returns has the value [(1 + mantissa/1024) * 2^(exponent-15)] with the
    sign of the pattern. *)
Theorem ToFloat32_exact_on_normals (f : Float16) :
  uint16 f -> IsNormal f = true ->
  (f32_value (ToFloat32 f) == table_value f)%Q.
Proof. exact (ToFloat32_exact_normal f). Qed.

Lemma ToFloat32_exact_on_normals_witness :
  (f32_value (ToFloat32 MaxValue) == 65504)%Q.
Proof.
  rewrite (ToFloat32_exact_on_normals MaxValue).
  - vm_compute. reflexivity.
  - unfold uint16, MaxValue. lia.
  - reflexivity.
Defined.

(** X15.  The round trip through [ToFloat32] and the default [ToFloat16]:
    every pattern that is neither a NaN nor a subnormal comes back bit for
    bit, and a NaN comes back as the same pattern with the quiet bit
    (mantissa bit 9) set. *)
Theorem ToFloat16_roundtrip (v : Float16) :
  uint16 v ->
  (IsNaN v = false -> IsSubnormal v = false -> ToFloat16 (ToFloat32 v) = v)
  /\ (IsNaN v = true -> ToFloat16 (ToFloat32 v) = Z.lor v 0x0200).
Proof.
  intros Hv. pose proof (all_uint16_spec _ default_roundtrip_check_all v Hv) as H.
  unfold default_roundtrip_check in H. split.
  - intros Hn Hs. rewrite Hn, Hs in H. apply Z.eqb_eq. exact H.
  - intros Hn. rewrite Hn in H. apply Z.eqb_eq. exact H.
Qed.

Lemma ToFloat16_roundtrip_witness :
  ToFloat16 (ToFloat32 0xFBFF) = 0xFBFF
  /\ ToFloat16 (ToFloat32 SignalingNaN) = 0x7F00.
Proof.
  assert (U : forall x, 0 <= x < 65536 -> uint16 x) by (intros x Hx; exact Hx).
  pose proof (ToFloat16_roundtrip 0xFBFF (U 0xFBFF ltac:(lia))) as [H1 _].
  pose proof (ToFloat16_roundtrip SignalingNaN
                (U SignalingNaN ltac:(unfold SignalingNaN; lia))) as [_ H2].
  split; [apply H1; reflexivity | rewrite (H2 eq_refl); reflexivity].
Defined.

(** X16.  Integers of magnitude up to 2048 survive the conversions:
    [FromInt i] is a half value whose widening has exactly the value [i],
    and [ToInt (FromInt i)] is [i]. *)
Theorem FromInt_exact_to_2048 (i : Z) :
  -2048 <= i <= 2048 ->
  ToInt (FromInt i) = Some i
  /\ (f32_value (ToFloat32 (FromInt i)) == inject_Z i)%Q.
Proof.
  intros Hi.
  pose proof (all_prefix_spec 13 _ 0 int_roundtrip_check_all (i + 4096)) as H.
  change (2 ^ Z.of_nat 13) with 8192 in H. specialize (H ltac:(lia)).
  unfold int_roundtrip_check in H.
  replace (i + 4096 - 4096) with i in H by lia.
  destruct (Z.leb_spec (-2048) i); [|lia].
  destruct (Z.leb_spec i 2048); [|lia].
  cbn [andb] in H. apply andb_true_iff in H as [Hint Hval].
  split.
  - destruct (ToInt (FromInt i)) as [k|]; [|discriminate].
    apply Z.eqb_eq in Hint. rewrite Hint. reflexivity.
  - apply Qeq_bool_iff. exact Hval.
Qed.

Lemma FromInt_exact_to_2048_witness :
  ToInt (FromInt (-2047)) = Some (-2047).
Proof.
  destruct (FromInt_exact_to_2048 (-2047)) as [H _]; [lia | exact H].
Defined.

Lemma nan_pattern_check_all : all_prefix 11 0 nan_pattern_check = true.
Proof. vm_compute. reflexivity. Qed.

Lemma carry_bit_check_all : all_prefix 11 0 carry_bit_check = true.
Proof. vm_compute. reflexivity. Qed.

Lemma carry_bit (x : Z) :
  0 <= x <= 1024 -> (Z.land x 0x0400 =? 0) = (x <? 1024).
Proof.
  intros Hx.
  pose proof (all_prefix_spec 11 _ 0 carry_bit_check_all x) as H.
  change (2 ^ Z.of_nat 11) with 2048 in H. specialize (H ltac:(lia)).
  unfold carry_bit_check in H. apply orb_true_iff in H as [H | H].
  - apply eqb_prop in H. exact H.
  - apply Z.ltb_lt in H. lia.
Qed.

Lemma shiftr_small (x k : Z) : 0 <= x < 2 ^ k -> 0 <= k -> Z.shiftr x k = 0.
Proof.
  intros Hx Hk. rewrite Z.shiftr_div_pow2 by lia. apply Z.div_small. exact Hx.
Qed.

Lemma lor_implicit_bit (m : Z) :
  0 <= m < 2 ^ 23 -> Z.lor m 0x00800000 = m + 2 ^ 23.
Proof.
  intros Hm.
  assert (Hdis : Z.land m 0x00800000 = 0).
  { apply Z.bits_inj'. intros i Hi. rewrite Z.land_spec, Z.bits_0.
    change 0x00800000 with (2 ^ 23). rewrite Z.pow2_bits_eqb by lia.
    destruct (Z.eqb_spec 23 i) as [<- | Hne]; [|apply andb_false_r].
    rewrite andb_true_r.
    destruct (Z.eq_dec m 0) as [-> | Hnz]; [apply Z.bits_0|].
    apply Z.bits_above_log2; [lia|].
    apply Z.log2_lt_pow2; lia. }
  rewrite <- Z.lxor_lor by exact Hdis.
  symmetry. apply Z.add_nocarry_lxor. exact Hdis.
Qed.

(** The default conversion in terms of the three fields of its operand. *)
Lemma ToFloat16_fields (s e m : Z) :
  0 <= s <= 1 -> 0 <= e < 256 -> 0 <= m < 2 ^ 23 ->
  ToFloat16 (f32_bits s e m) =
  if e =? 255 then
    if m =? 0 then signed_infinity (negb (s =? 0))
    else s * 32768 + 0x7C00 + (if m <? 8192 then 1 else m / 8192)
  else if e <=? 101 then signed_zero (negb (s =? 0))
  else if e <=? 112 then s * 32768 + 1
  else if (e <=? 141) && (0x7FF000 <=? m)
  then s * 32768 + (e - 111) * 1024 + 0x200
  else fst (ToFloat16WithMode (f32_bits s e m) ModeIEEE RoundNearestEven).
Proof.
  intros Hs He Hm.
  assert (Es : s = 0 \/ s = 1) by lia.
  assert (Hland1 : Z.land s 0x1 = s) by (destruct Es as [-> | ->]; reflexivity).
  rewrite (ToFloat16WithMode_by_fields s e m ModeIEEE RoundNearestEven Hs He Hm).
  unfold ToFloat16.
  unfold F32.is_zero, F32.signbit, F32.sign.
  rewrite !(f32_bits_magnitude s e m He Hm), !(f32_bits_sign s e m He Hm),
    !(f32_bits_expo s e m He Hm), !(f32_bits_frac s e m Hm), Hland1.
  destruct (Z.eqb_spec e 255) as [E255 | N255].
  { (* infinities and NaNs *)
    destruct (Z.eqb_spec (e * 2 ^ 23 + m) 0); [lia|].
    destruct (Z.eqb_spec m 0) as [Em | Nm]; [reflexivity|].
    assert (Hq : 0 <= m / 8192 < 1024).
    { split; [apply Z.div_pos; lia | apply Z.div_lt_upper_bound; lia]. }
    rewrite Z.shiftr_div_pow2 by lia. change (2 ^ 13) with 8192.
    change 0x03FF with (Z.ones 10). rewrite Z.land_ones by lia.
    change (2 ^ 10) with 1024. rewrite (Z.mod_small (m / 8192)) by lia.
    rewrite (u16_small (m / 8192)) by lia.
    assert (Hn : forall k, 1 <= k < 1024 ->
              Z.lor (Z.lor (u16 (Z.shiftl (u16 s) 15)) 0x7C00) k
              = s * 32768 + 0x7C00 + k).
    { intros k Hk.
      pose proof (all_prefix_spec 11 _ 0 nan_pattern_check_all (s * 1024 + k)) as H.
      change (2 ^ Z.of_nat 11) with 2048 in H. specialize (H ltac:(lia)).
      unfold nan_pattern_check in H.
      replace ((s * 1024 + k) / 1024) with s in H
        by (apply (Z.div_unique _ _ _ k); lia).
      replace ((s * 1024 + k) mod 1024) with k in H
        by (apply (Z.mod_unique _ _ s); lia).
      apply orb_true_iff in H as [H | H]; apply Z.eqb_eq in H; [lia | exact H]. }
    destruct (Z.ltb_spec m 8192) as [Hlt | Hge].
    - rewrite (Z.div_small m 8192) by lia. cbn [Z.eqb]. apply Hn. lia.
    - assert (1 <= m / 8192) by (apply Z.div_le_lower_bound; lia).
      destruct (Z.eqb_spec (m / 8192) 0); [lia|]. apply Hn. lia. }
  destruct (Z.leb_spec e 101) as [H101 | N101].
  { (* flushed to zero *)
    destruct (Z.eqb_spec (e * 2 ^ 23 + m) 0) as [E0 | N0].
    - assert (e = 0 /\ m = 0) as [-> ->] by lia. reflexivity.
    - destruct (Z.leb_spec e 112); [|lia].
      destruct ((e =? 0) && (m =? 0)) eqn:Ez.
      + apply andb_true_iff in Ez as [E1 E2].
        apply Z.eqb_eq in E1, E2. lia.
      + destruct (Z.leb_spec 143 e); [lia|].
        destruct Es as [-> | ->]; reflexivity. }
  destruct (Z.eqb_spec (e * 2 ^ 23 + m) 0); [lia|].
  destruct (Z.eqb_spec e 0); [lia|]. cbn [andb].
  destruct (Z.leb_spec e 112) as [H112 | N112].
  { (* exponent fields 102 to 112 *)
    rewrite (u32_small (125 - e)) by lia.
    rewrite (lor_implicit_bit m Hm).
    assert (Hm24 : 0 <= m + 2 ^ 23 < 2 ^ 24) by lia.
    assert (Hp25 : 2 ^ 24 <= 2 ^ (125 - e + 12))
      by (apply Z.pow_le_mono_r; lia).
    assert (Hp26 : 2 ^ 24 <= 2 ^ (125 - e + 13))
      by (apply Z.pow_le_mono_r; lia).
    rewrite (shiftr_small (m + 2 ^ 23) (125 - e + 13)) by lia.
    rewrite (shiftr_small (m + 2 ^ 23) (125 - e + 12)) by lia.
    assert (Hsticky : Z.land (m + 2 ^ 23)
                        (u32 (u32 (Z.shiftl 1 (125 - e + 12)) - 1))
                      = m + 2 ^ 23).
    { destruct (Z_le_gt_dec (125 - e + 12) 31) as [Hle | Hgt].
      - rewrite u32_mask by lia. rewrite Z.land_ones by lia.
        apply Z.mod_small. lia.
      - assert (Hz : u32 (Z.shiftl 1 (125 - e + 12)) = 0).
        { assert (Ecase : e = 102 \/ e = 103 \/ e = 104 \/ e = 105) by lia.
          destruct Ecase as [-> | [-> | [-> | ->]]]; reflexivity. }
        rewrite Hz. change (u32 (0 - 1)) with (Z.ones 32).
        rewrite Z.land_ones by lia. apply Z.mod_small. lia. }
    rewrite Hsticky.
    destruct (Z.eqb_spec (m + 2 ^ 23) 0); [lia|].
    destruct Es as [-> | ->]; reflexivity. }
  (* the half normal range and above *)
  rewrite (u32_small (e - 0x70)) by lia.
  destruct (Z.leb_spec 143 e) as [H143 | N143].
  { destruct (Z.leb_spec 0x1F (e - 0x70)); [|lia].
    rewrite andb_false_intro1 by (apply Z.leb_gt; lia).
    destruct Es as [-> | ->]; reflexivity. }
  destruct (Z.leb_spec 0x1F (e - 0x70)); [lia|].
  (* rounding to nearest even, written with an addition *)
  assert (Hq : 0 <= Z.shiftr m 13 <= 1023).
  { rewrite Z.shiftr_div_pow2 by lia. split; [apply Z.div_pos; lia|].
    assert (m / 2 ^ 13 < 1024) by (apply Z.div_lt_upper_bound; lia). lia. }
  pose proof (shouldRound_table m 13 RoundNearestEven ltac:(lia) ltac:(lia)) as Hround.
  cbv zeta in Hround. change (2 ^ (13 - 1)) with 4096 in Hround.
  change (2 ^ 13) with 8192 in Hround.
  rewrite land_1.
  rewrite (u32_small (m + 0x00000FFF)) by lia.
  assert (Hb : 0 <= Z.shiftr m 13 mod 2 < 2) by (apply Z.mod_pos_bound; lia).
  rewrite (u32_small (m + 0x00000FFF + Z.shiftr m 13 mod 2)) by lia.
  rewrite (Z.shiftr_div_pow2 (m + 0x00000FFF + Z.shiftr m 13 mod 2)) by lia.
  rewrite (Z.shiftr_div_pow2 m 13) in * by lia. change (2 ^ 13) with 8192 in *.
  pose proof (Z.div_mod m 8192 ltac:(lia)) as Hdm.
  pose proof (Z.mod_pos_bound m 8192 ltac:(lia)) as Bd.
  set (q := m / 8192) in *. set (d := m mod 8192) in *.
  assert (Hodd : q mod 2 = if Z.odd q then 1 else 0) by apply Zmod_odd.
  set (up := (4096 <? d) || ((d =? 4096) && Z.odd q)) in *.
  assert (Hup : up = true -> 4096 <= d).
  { unfold up. destruct (Z.ltb_spec 4096 d); destruct (Z.eqb_spec d 4096);
      cbn [orb andb]; intros; try lia; discriminate. }
  assert (Hdown : up = false -> q = 1023 -> d < 4096).
  { unfold up. intros Hf ->. change (Z.odd 1023) with true in Hf.
    destruct (Z.ltb_spec 4096 d); destruct (Z.eqb_spec d 4096);
      cbn [orb andb] in Hf; try lia; discriminate. }
  assert (Hsum : (m + 0x00000FFF + q mod 2) / 8192 = q + (if up then 1 else 0)).
  { symmetry. unfold up.
    destruct (Z.ltb_spec 4096 d); destruct (Z.eqb_spec d 4096);
      destruct (Z.odd q); cbn [orb andb];
      match goal with
      | |- _ + 1 = _ =>
          apply (Z.div_unique _ _ _ (d + 4095 + q mod 2 - 8192)); lia
      | |- _ + 0 = _ =>
          apply (Z.div_unique _ _ _ (d + 4095 + q mod 2)); lia
      end. }
  rewrite Hsum.
  unfold narrow_normal.
  unfold Float32MantissaLen, MantissaLen, ExponentInfinity.
  change (23 - 10) with 13. change (Z.shiftl 1 10) with 1024.
  rewrite Hround. rewrite (Z.shiftr_div_pow2 m 13) by lia.
  change (2 ^ 13) with 8192. fold q.
  assert (Hpackeq : forall e' m', 0 <= e' <= 31 -> 0 <= m' <= 1023 ->
            Z.lor (Z.lor (u16 (Z.shiftl (u16 s) 15)) (u16 (Z.shiftl (u16 e') 10)))
                  (Z.land m' 0x03FF)
            = s * 32768 + e' * 1024 + m').
  { intros e' m' He' Hm'. rewrite !(u16_small s), (u16_small e') by lia.
    destruct (pack_fields 0 s e' m') as (_ & _ & _ & Hp);
      [unfold uint16; lia | lia | lia | lia |].
    exact Hp. }
  assert (Hpack : forall e' m', 0 <= e' <= 31 -> 0 <= m' <= 1023 ->
            packComponents (u16 s) (u16 e') m' = s * 32768 + e' * 1024 + m').
  { intros e' m' He' Hm'. rewrite !u16_small by lia.
    destruct (pack_fields 0 s e' m') as (_ & _ & _ & Hp);
      [unfold uint16; lia | lia | lia | lia |].
    exact Hp. }
  clearbody up. destruct up.
  - specialize (Hup eq_refl). rewrite (u16_small (q + 1)) by lia.
    rewrite (carry_bit (q + 1)) by lia.
    destruct (Z.ltb_spec (q + 1) 1024) as [Hnc | Hc]; cbn [negb].
    + destruct (Z.leb_spec 0x1F (e - 0x70)); [lia|].
      destruct (Z.leb_spec 1024 (q + 1)); [lia|].
      rewrite andb_false_intro2 by (apply Z.leb_gt; lia).
      cbn [fst]. rewrite Hpackeq, Hpack by lia. lia.
    + assert (Eq : q = 1023) by lia.
      rewrite Eq. change (Z.shiftr (1023 + 1) 1) with 512.
      rewrite (u32_small (e - 0x70 + 1)) by lia.
      destruct (Z.leb_spec 1024 (1023 + 1)); [|lia].
      destruct (Z.leb_spec e 141) as [H141 | N141].
      * destruct (Z.leb_spec 0x1F (e - 0x70 + 1)); [lia|].
        destruct (Z.leb_spec 0x7FF000 m); [|lia].
        cbn [andb]. rewrite Hpackeq by lia. lia.
      * assert (e = 142) by lia. subst e.
        cbn [andb]. destruct Es as [-> | ->]; reflexivity.
  - rewrite Z.add_0_r. rewrite (u16_small q) by lia.
    rewrite (carry_bit q) by lia.
    destruct (Z.ltb_spec q 1024); [|lia]. cbn [negb].
    destruct (Z.leb_spec 0x1F (e - 0x70)); [lia|].
    assert (Hnocarry : (e <=? 141) && (0x7FF000 <=? m) = false).
    { apply andb_false_iff. right. apply Z.leb_gt.
      destruct (Z.eq_dec q 1023) as [Eq | Nq];
        [specialize (Hdown eq_refl Eq); lia | lia]. }
    rewrite Hnocarry. cbn [fst]. rewrite Hpackeq, Hpack by lia. lia.
Qed.
Lemma f32_fields_of (f32 : Z) :
  uint32 f32 ->
  exists s, 0 <= s <= 1
    /\ 0 <= F32.expo f32 < 256 /\ 0 <= F32.frac f32 < 2 ^ 23
    /\ f32 = f32_bits s (F32.expo f32) (F32.frac f32)
    /\ F32.signbit f32 = negb (s =? 0)
    /\ F32.is_nan f32 = (F32.expo f32 =? 255) && negb (F32.frac f32 =? 0).
Proof.
  intros Hf.
  destruct (f32_decompose f32 Hf) as (s & e & m & Hs & He & Hm & ->).
  exists s. unfold F32.expo, F32.frac, F32.signbit, F32.sign, F32.is_nan,
    F32.expo, F32.frac.
  rewrite (f32_bits_expo s e m He Hm), (f32_bits_frac s e m Hm),
    (f32_bits_sign s e m He Hm).
  repeat split; try lia.
Qed.

(** X17.  The default conversion [ToFloat16] returns the value of
    [ToFloat16WithMode] under ModeIEEE with nearest-even rounding for every
    float32 that is not a NaN, whose exponent field is outside 102..112, and
    whose rounding does not carry out of the ten mantissa bits below the top
    exponent (exponent field at most 141 with a fraction of 0x7FF000 or
    more). *)
Theorem ToFloat16_agrees_with_IEEE_mode (f32 : Z) :
  uint32 f32 -> F32.is_nan f32 = false ->
  F32.expo f32 <= 101 \/ 113 <= F32.expo f32 ->
  142 <= F32.expo f32 \/ F32.frac f32 < 0x7FF000 ->
  ToFloat16 f32 = fst (ToFloat16WithMode f32 ModeIEEE RoundNearestEven).
Proof.
  intros Hf Hnan Hexp Hcarry.
  destruct (f32_fields_of f32 Hf) as (s & Hs & He & Hm & E & _ & Hn).
  rewrite Hnan in Hn.
  set (e := F32.expo f32) in *. set (m := F32.frac f32) in *. clearbody e m.
  subst f32. rewrite (ToFloat16_fields s e m Hs He Hm).
  rewrite (ToFloat16WithMode_by_fields s e m ModeIEEE RoundNearestEven Hs He Hm).
  destruct (Z.eqb_spec e 255) as [-> | N255].
  - destruct (Z.eqb_spec m 0) as [-> | Nm]; [|discriminate Hn].
    reflexivity.
  - destruct (Z.leb_spec e 101).
    + destruct ((e =? 0) && (m =? 0)); [reflexivity|].
      destruct (Z.leb_spec 143 e); [lia|].
      destruct (Z.leb_spec e 112); [reflexivity | lia].
    + destruct (Z.leb_spec e 112); [lia|].
      destruct (Z.leb_spec e 141); destruct (Z.leb_spec 0x7FF000 m);
        cbn [andb]; try reflexivity; lia.
Qed.

Lemma ToFloat16_agrees_with_IEEE_mode_witness :
  ToFloat16 0x3DCCCCCD = fst (ToFloat16WithMode 0x3DCCCCCD ModeIEEE RoundNearestEven).
Proof.
  apply (ToFloat16_agrees_with_IEEE_mode 0x3DCCCCCD).
  - unfold uint32. lia.
  - reflexivity.
  - right. vm_compute. discriminate.
  - right. vm_compute. reflexivity.
Defined.

(** X18.  Where the default conversion goes its own way.  Every float32
    with an exponent field from 102 to 112 (a magnitude from [2^-25] up to,
    not including, [2^-14]) is converted to the smallest subnormal of its
    sign, 0x0001 or 0x8001.  And when rounding carries out of the mantissa
    (fraction 0x7FF000 or more) below the top exponent, the result has the
    next exponent with the mantissa 0x200, which is one and a half times the
    power of two that the operand rounds to. *)
Theorem ToFloat16_deviations (f32 : Z) :
  uint32 f32 ->
  (102 <= F32.expo f32 <= 112 ->
     ToFloat16 f32 = (if F32.signbit f32 then 0x8001 else 0x0001))
  /\ (113 <= F32.expo f32 <= 141 -> 0x7FF000 <= F32.frac f32 ->
     ToFloat16 f32
     = (if F32.signbit f32 then 32768 else 0)
       + (F32.expo f32 - 111) * 1024 + 0x200
     /\ fst (ToFloat16WithMode f32 ModeIEEE RoundNearestEven)
        = (if F32.signbit f32 then 32768 else 0)
          + (F32.expo f32 - 111) * 1024).
Proof.
  intros Hf.
  destruct (f32_fields_of f32 Hf) as (s & Hs & He & Hm & E & Hsb & _).
  rewrite Hsb.
  set (e := F32.expo f32) in *. set (m := F32.frac f32) in *. clearbody e m.
  subst f32.
  assert (Es : s = 0 \/ s = 1) by lia.
  split.
  - intros Hexp. rewrite (ToFloat16_fields s e m Hs He Hm).
    destruct (Z.eqb_spec e 255); [lia|].
    destruct (Z.leb_spec e 101); [lia|].
    destruct (Z.leb_spec e 112); [|lia].
    destruct Es as [-> | ->]; reflexivity.
  - intros Hexp Hfrac. split.
    + rewrite (ToFloat16_fields s e m Hs He Hm).
      destruct (Z.eqb_spec e 255); [lia|].
      destruct (Z.leb_spec e 101); [lia|].
      destruct (Z.leb_spec e 112); [lia|].
      destruct (Z.leb_spec e 141); [|lia].
      destruct (Z.leb_spec 0x7FF000 m); [|lia]. cbn [andb].
      destruct Es as [-> | ->]; cbn [Z.eqb negb]; lia.
    + rewrite (ToFloat16WithMode_normal_range s e m He Hm) by lia.
      unfold narrow_normal.
      unfold Float32MantissaLen, MantissaLen, ExponentInfinity.
      change (23 - 10) with 13. change (Z.shiftl 1 10) with 1024.
      pose proof (shouldRound_table m 13 RoundNearestEven ltac:(lia) ltac:(lia))
        as Hround.
      cbv zeta in Hround. change (2 ^ (13 - 1)) with 4096 in Hround.
      change (2 ^ 13) with 8192 in Hround.
      pose proof (Z.div_mod m 8192 ltac:(lia)) as Hdm.
      pose proof (Z.mod_pos_bound m 8192 ltac:(lia)) as Bd.
      assert (Eq : m / 8192 = 1023).
      { apply Z.le_antisymm.
        - assert (m / 8192 < 1024) by (apply Z.div_lt_upper_bound; lia). lia.
        - apply Z.div_le_lower_bound; lia. }
      rewrite Eq in *. change (Z.odd 1023) with true in Hround.
      assert (Hup : shouldRound m 13 RoundNearestEven = true).
      { rewrite Hround.
        destruct (Z.ltb_spec 4096 (m mod 8192));
          destruct (Z.eqb_spec (m mod 8192) 4096); cbn [orb andb];
          try reflexivity; lia. }
      rewrite Hup. rewrite Z.shiftr_div_pow2 by lia. change (2 ^ 13) with 8192.
      rewrite Eq. cbn [Z.add Z.leb Z.compare Pos.add Pos.succ Pos.compare
                       Pos.compare_cont].
      destruct (Z.leb_spec 31 (e - 112 + 1)); [lia|].
      cbn [fst]. rewrite !u16_small by lia.
      destruct (pack_fields 0 s (e - 112 + 1) 0) as (_ & _ & _ & ->);
        [unfold uint16; lia | lia | lia | lia |].
      destruct Es as [-> | ->]; cbn [Z.eqb negb]; lia.
Qed.

Lemma ToFloat16_deviations_witness :
  ToFloat16 0x38000000 = 0x0001
  /\ ToFloat16 0x3FFFFFFF = 0x4200
  /\ fst (ToFloat16WithMode 0x3FFFFFFF ModeIEEE RoundNearestEven) = 0x4000.
Proof.
  assert (U : forall x, 0 <= x < 4294967296 -> uint32 x) by (intros x Hx; exact Hx).
  pose proof (ToFloat16_deviations 0x38000000 (U 0x38000000 ltac:(lia))) as [H1 _].
  pose proof (ToFloat16_deviations 0x3FFFFFFF (U 0x3FFFFFFF ltac:(lia))) as [_ H2].
  split.
  - rewrite H1; [reflexivity | vm_compute; split; discriminate].
  - destruct H2 as [Ha Hb];
      [vm_compute; split; discriminate | vm_compute; discriminate |].
    split; [rewrite Ha; reflexivity | rewrite Hb; reflexivity].
Defined.

(** X19.  The default conversion of a NaN is a NaN of the same sign whose
    mantissa is the top ten bits of the float32 fraction, or 1 when those
    bits are all zero. *)
Theorem ToFloat16_of_NaN (f32 : Z) :
  uint32 f32 -> F32.is_nan f32 = true ->
  IsNaN (ToFloat16 f32) = true
  /\ Signbit (ToFloat16 f32) = F32.signbit f32
  /\ mantissa_field (ToFloat16 f32)
     = (if F32.frac f32 <? 8192 then 1 else F32.frac f32 / 8192).
Proof.
  intros Hf Hnan.
  destruct (f32_fields_of f32 Hf) as (s & Hs & He & Hm & E & Hsb & Hn).
  rewrite Hsb. rewrite Hnan in Hn. symmetry in Hn.
  apply andb_true_iff in Hn as [He255 Hmnz].
  apply Z.eqb_eq in He255. apply negb_true_iff in Hmnz. apply Z.eqb_neq in Hmnz.
  set (e := F32.expo f32) in *. set (m := F32.frac f32) in *. clearbody e m.
  subst f32 e. rewrite (ToFloat16_fields s 255 m Hs He Hm).
  cbn [Z.eqb Pos.eqb]. destruct (Z.eqb_spec m 0); [contradiction|].
  set (k := if m <? 8192 then 1 else m / 8192).
  assert (Hk : 1 <= k <= 1023).
  { unfold k. destruct (Z.ltb_spec m 8192); [lia|].
    split; [apply Z.div_le_lower_bound; lia|].
    assert (m / 8192 < 1024) by (apply Z.div_lt_upper_bound; lia). lia. }
  destruct (pack_fields 0 s 31 k) as (_ & _ & Hx & Hp);
    [unfold uint16; lia | lia | lia | lia |].
  rewrite Hp in Hx. replace (s * 32768 + 31 * 1024 + k)
    with (s * 32768 + 31744 + k) in Hx by lia.
  unfold extractComponents in Hx. injection Hx as Hsg Hex Hma.
  split; [|split].
  - unfold IsNaN. rewrite Hex, Hma.
    destruct (Z.eqb_spec k 0); [lia | reflexivity].
  - assert (Hu : uint16 (s * 32768 + 31744 + k)) by (unfold uint16; lia).
    destruct (sign_facts _ Hu) as (-> & _).
    assert (Es : s = 0 \/ s = 1) by lia.
    destruct Es as [-> | ->]; cbn [Z.eqb negb];
      [destruct (Z.leb_spec 32768 (0 * 32768 + 31744 + k)); [lia | reflexivity]
      | destruct (Z.leb_spec 32768 (1 * 32768 + 31744 + k)); [reflexivity | lia]].
  - unfold mantissa_field. exact Hma.
Qed.

Lemma ToFloat16_of_NaN_witness :
  IsNaN (ToFloat16 0xFF800001) = true /\ Signbit (ToFloat16 0xFF800001) = true.
Proof.
  destruct (ToFloat16_of_NaN 0xFF800001) as (Hn & Hs & _).
  - unfold uint32. lia.
  - reflexivity.
  - split; [exact Hn | rewrite Hs; reflexivity].
Defined.

(** ** float32 results are well formed *)

Lemma lor_shiftl_add (a k x : Z) :
  0 <= k -> 0 <= x < 2 ^ k -> Z.lor (Z.shiftl a k) x = a * 2 ^ k + x.
Proof.
  intros Hk Hx.
  assert (Hdis : Z.land (Z.shiftl a k) x = 0).
  { apply Z.bits_inj'. intros i Hi. rewrite Z.land_spec, Z.bits_0.
    destruct (Z_lt_le_dec i k) as [Hlt | Hge].
    - rewrite Z.shiftl_spec_low by lia. reflexivity.
    - destruct (Z.eq_dec x 0) as [-> | Hnz].
      + rewrite Z.bits_0. apply andb_false_r.
      + rewrite (Z.bits_above_log2 x i); [apply andb_false_r | lia |].
        assert (Z.log2 x < k) by (apply Z.log2_lt_pow2; lia). lia. }
  rewrite <- Z.lxor_lor by exact Hdis.
  rewrite <- Z.add_nocarry_lxor by exact Hdis.
  rewrite Z.shiftl_mul_pow2 by lia. reflexivity.
Qed.

Lemma rne_shift_bound (m sh : Z) :
  0 < m -> Z.log2 m - 23 <= sh -> 0 <= F32.rne_shift m sh <= 2 ^ 24.
Proof.
  intros Hm Hsh.
  destruct (Z.log2_spec m Hm) as [_ Hup].
  assert (HL : 0 <= Z.log2 m) by apply Z.log2_nonneg.
  unfold F32.rne_shift.
  destruct (Z.leb_spec sh 0) as [Hneg | Hpos].
  - rewrite Z.shiftl_mul_pow2 by lia.
    assert (Hp : 0 < 2 ^ (- sh)) by (apply Z.pow_pos_nonneg; lia).
    split; [nia|].
    assert (Hprod : 2 ^ Z.succ (Z.log2 m) * 2 ^ (- sh) <= 2 ^ 24).
    { rewrite <- Z.pow_add_r by lia. apply Z.pow_le_mono_r; lia. }
    nia.
  - rewrite Z.shiftr_div_pow2 by lia.
    assert (Hp : 0 < 2 ^ sh) by (apply Z.pow_pos_nonneg; lia).
    assert (Hq : 0 <= m / 2 ^ sh) by (apply Z.div_pos; lia).
    assert (Hlt : m / 2 ^ sh < 2 ^ 24).
    { apply Z.div_lt_upper_bound; [lia|].
      assert (2 ^ Z.succ (Z.log2 m) <= 2 ^ sh * 2 ^ 24).
      { rewrite <- Z.pow_add_r by lia. apply Z.pow_le_mono_r; lia. }
      lia. }
    destruct ((2 ^ (sh - 1) <? Z.land m (Z.ones sh))
              || ((Z.land m (Z.ones sh) =? 2 ^ (sh - 1)) && Z.odd (m / 2 ^ sh)))
      eqn:Hup'.
    + rewrite Z.shiftl_1_l in *. rewrite Hup'. lia.
    + rewrite Z.shiftl_1_l in *. rewrite Hup'. lia.
Qed.

(** [round_pack] returns a float32 with the sign it was given, and never a
    NaN. *)
Lemma round_pack_fields (s m e : Z) :
  0 <= s <= 1 -> 0 <= m ->
  exists e' m', 0 <= e' < 256 /\ 0 <= m' < 2 ^ 23
                /\ (e' = 255 -> m' = 0)
                /\ F32.round_pack s m e = f32_bits s e' m'.
Proof.
  intros Hs Hm. unfold F32.round_pack.
  assert (Hinf : F32.inf s = f32_bits s 255 0).
  { unfold F32.inf, f32_bits. rewrite lor_shiftl_add by lia. lia. }
  assert (Hzero : forall x, 0 <= x < 2 ^ 31 ->
            Z.lor (F32.zero s) x = s * 2 ^ 31 + x).
  { intros x Hx. unfold F32.zero. apply lor_shiftl_add; lia. }
  destruct (Z.eqb_spec m 0) as [-> | Hnz].
  { exists 0, 0. unfold F32.zero, f32_bits. rewrite Z.shiftl_mul_pow2 by lia.
    repeat split; lia. }
  set (q := Z.max (e + Z.log2 m - 23) (-149)).
  assert (Hq : -149 <= q /\ Z.log2 m - 23 <= q - e) by (unfold q; lia).
  pose proof (rne_shift_bound m (q - e) ltac:(lia) ltac:(lia)) as HM.
  set (M := F32.rne_shift m (q - e)) in *. clearbody M.
  destruct (Z.eqb_spec M (2 ^ 24)) as [E24 | N24].
  - destruct (Z.ltb_spec (2 ^ 23) (2 ^ 23)); [lia|].
    destruct (Z.leb_spec 255 (q + 1 + 150)).
    + exists 255, 0. rewrite Hinf. repeat split; lia.
    + exists (q + 1 + 150), 0. rewrite Z.sub_diag.
      rewrite Hzero.
      * rewrite lor_shiftl_add by lia. unfold f32_bits.
        repeat split; lia.
      * rewrite lor_shiftl_add by lia. lia.
  - destruct (Z.ltb_spec M (2 ^ 23)).
    + exists 0, M. rewrite Hzero by lia. unfold f32_bits. repeat split; lia.
    + destruct (Z.leb_spec 255 (q + 150)).
      * exists 255, 0. rewrite Hinf. repeat split; lia.
      * exists (q + 150), (M - 2 ^ 23).
        rewrite Hzero.
        -- rewrite lor_shiftl_add by lia. unfold f32_bits. repeat split; lia.
        -- rewrite lor_shiftl_add by lia. lia.
Qed.

Lemma bit_lxor (a b : Z) :
  0 <= a <= 1 -> 0 <= b <= 1 ->
  0 <= Z.lxor a b <= 1
  /\ negb (Z.lxor a b =? 0) = xorb (negb (a =? 0)) (negb (b =? 0)).
Proof.
  intros Ha Hb.
  assert (Ea : a = 0 \/ a = 1) by lia. assert (Eb : b = 0 \/ b = 1) by lia.
  destruct Ea as [-> | ->]; destruct Eb as [-> | ->]; cbn; split; try lia;
    reflexivity.
Qed.

(** The float32 product of two finite operands is a float32 whose sign bit
    is the exclusive or of the operands' sign bits, and not a NaN. *)
Lemma F32_mul_finite (a b : Z) :
  uint32 a -> uint32 b -> F32.expo a <> 255 -> F32.expo b <> 255 ->
  uint32 (F32.mul a b)
  /\ F32.is_nan (F32.mul a b) = false
  /\ F32.signbit (F32.mul a b) = xorb (F32.signbit a) (F32.signbit b).
Proof.
  intros Ha Hb Ea Eb.
  destruct (f32_decompose a Ha) as (sa & ea & ma & Hsa & Hea & Hma & ->).
  destruct (f32_decompose b Hb) as (sb & eb & mb & Hsb & Heb & Hmb & ->).
  unfold F32.expo in Ea, Eb.
  rewrite (f32_bits_expo sa ea ma Hea Hma) in Ea.
  rewrite (f32_bits_expo sb eb mb Heb Hmb) in Eb.
  unfold F32.mul, F32.is_nan, F32.is_inf, F32.signbit, F32.sign, F32.sig,
    F32.expo, F32.frac.
  rewrite !(f32_bits_expo sa ea ma Hea Hma), !(f32_bits_expo sb eb mb Heb Hmb),
    !(f32_bits_sign sa ea ma Hea Hma), !(f32_bits_sign sb eb mb Heb Hmb),
    !(f32_bits_frac sa ea ma Hma), !(f32_bits_frac sb eb mb Hmb),
    !(f32_bits_magnitude sa ea ma Hea Hma), !(f32_bits_magnitude sb eb mb Heb Hmb).
  destruct (Z.eqb_spec ea 255); [contradiction|].
  destruct (Z.eqb_spec eb 255); [contradiction|]. cbn [andb orb].
  destruct (Z.eqb_spec (ea * 2 ^ 23 + ma) 0x7F800000); [lia|].
  destruct (Z.eqb_spec (eb * 2 ^ 23 + mb) 0x7F800000); [lia|]. cbn [orb].
  destruct (bit_lxor sa sb Hsa Hsb) as [Hx Hxs].
  set (sigA := if ea =? 0 then ma else ma + 2 ^ 23).
  set (sigB := if eb =? 0 then mb else mb + 2 ^ 23).
  assert (Hsig : 0 <= sigA * sigB).
  { unfold sigA, sigB. destruct (ea =? 0); destruct (eb =? 0); nia. }
  destruct (round_pack_fields (Z.lxor sa sb) (sigA * sigB)
              (F32.ex (f32_bits sa ea ma) + F32.ex (f32_bits sb eb mb)) Hx Hsig)
    as (e' & m' & He' & Hm' & Hnan & ->).
  rewrite (f32_bits_expo _ e' m' He' Hm'), (f32_bits_sign _ e' m' He' Hm'),
    (f32_bits_frac _ e' m' Hm').
  split; [unfold uint32, f32_bits; lia|]. split; [|exact Hxs].
  destruct (Z.eqb_spec e' 255) as [E255 | _]; [|reflexivity].
  rewrite (Hnan E255). reflexivity.
Qed.

Lemma F32_mul_comm (a b : Z) :
  F32.is_nan a = false -> F32.is_nan b = false -> F32.mul a b = F32.mul b a.
Proof.
  intros Ha Hb. unfold F32.mul. rewrite Ha, Hb. cbn [orb].
  rewrite (Z.lxor_comm (F32.sign a)), (orb_comm (F32.is_inf a)),
    (orb_comm (F32.is_zero a)), (Z.mul_comm (F32.sig a)),
    (Z.add_comm (F32.ex a)).
  reflexivity.
Qed.
(** ** Multiplication (arithmetic.go) *)

Lemma IsNaN_of_fields (s e m : Z) :
  0 <= s <= 1 -> 0 <= e <= 30 -> 0 <= m <= 1023 ->
  IsNaN (s * 32768 + e * 1024 + m) = false.
Proof.
  intros Hs He Hm.
  destruct (sign_facts (s * 32768 + e * 1024 + m)) as (_ & _ & _ & ->);
    [unfold uint16; lia|].
  replace (s * 32768 + e * 1024 + m) with (e * 1024 + m + s * 32768) by lia.
  rewrite Z.mod_add by lia. rewrite Z.mod_small by lia.
  apply Z.ltb_ge. lia.
Qed.

Lemma narrow_normal_not_NaN
    (f32 s m e16 : Z) (c : ConversionMode) (r : RoundingMode) :
  0 <= s <= 1 -> 1 <= e16 <= 30 -> 0 <= m < 2 ^ 23 ->
  IsNaN (fst (narrow_normal f32 s m e16 c r)) = false.
Proof.
  intros Hs He Hm.
  assert (Hq : 0 <= Z.shiftr m 13 <= 1023).
  { rewrite Z.shiftr_div_pow2 by lia. split; [apply Z.div_pos; lia|].
    assert (m / 2 ^ 13 < 1024) by (apply Z.div_lt_upper_bound; lia). lia. }
  assert (Hpack : forall e' m', 1 <= e' <= 30 -> 0 <= m' <= 1023 ->
            IsNaN (fst (packComponents (u16 s) (u16 e') (u16 m'),
                        @None Float16Error)) = false).
  { intros e' m' He' Hm'. cbn [fst]. rewrite !u16_small by lia.
    destruct (pack_fields 0 s e' m') as (_ & _ & _ & ->);
      [unfold uint16; lia | lia | lia | lia |].
    apply IsNaN_of_fields; lia. }
  unfold narrow_normal.
  unfold Float32MantissaLen, MantissaLen, ExponentInfinity.
  change (23 - 10) with 13. change (Z.shiftl 1 10) with 1024.
  destruct (shouldRound m 13 r).
  - destruct (Z.leb_spec 1024 (Z.shiftr m 13 + 1)).
    + destruct (Z.leb_spec 31 (e16 + 1)).
      * destruct c; destruct (negb (s =? 0)); reflexivity.
      * apply Hpack; lia.
    + apply Hpack; lia.
  - apply Hpack; lia.
Qed.

(** [ToFloat16WithMode] returns a NaN only for a NaN. *)
Lemma narrow_not_NaN (f32 : Z) (c : ConversionMode) (r : RoundingMode) :
  uint32 f32 -> F32.is_nan f32 = false ->
  IsNaN (fst (ToFloat16WithMode f32 c r)) = false.
Proof.
  intros Hf Hnan.
  destruct (f32_decompose f32 Hf) as (s & e & m & Hs & He & Hm & ->).
  unfold F32.is_nan, F32.expo, F32.frac in Hnan.
  rewrite (f32_bits_expo s e m He Hm), (f32_bits_frac s e m Hm) in Hnan.
  rewrite (ToFloat16WithMode_by_fields s e m c r Hs He Hm).
  destruct ((e =? 0) && (m =? 0)).
  { destruct (negb (s =? 0)); reflexivity. }
  destruct (Z.eqb_spec e 255) as [E | _].
  { cbn [andb] in Hnan. apply negb_false_iff in Hnan. rewrite Hnan.
    destruct c; destruct (negb (s =? 0)); reflexivity. }
  destruct (Z.leb_spec 143 e).
  { destruct c; destruct (negb (s =? 0)); reflexivity. }
  destruct (Z.leb_spec e 112).
  { destruct c; destruct (negb (s =? 0)); reflexivity. }
  apply narrow_normal_not_NaN; lia.
Qed.

(** The widening of a finite half value is a finite float32. *)
Lemma widen_finite (f : Float16) :
  uint16 f -> IsNaN f = false -> IsInf f 0 = false ->
  uint32 (ToFloat32 f) /\ F32.expo (ToFloat32 f) <> 255
  /\ F32.is_nan (ToFloat32 f) = false
  /\ F32.signbit (ToFloat32 f) = Signbit f.
Proof.
  intros Hf Hnan Hinf.
  destruct (widen_facts f Hf) as (Hu & Hs & Hn & Hi & _).
  rewrite Hnan in Hn. rewrite Hinf in Hi.
  split; [exact Hu|]. split; [|split; [exact Hn | exact Hs]].
  destruct (f32_decompose _ Hu) as (s & e & m & Hs' & He & Hm & Heq).
  rewrite Heq in *.
  unfold F32.is_nan, F32.is_inf, F32.expo, F32.frac in *.
  rewrite (f32_bits_expo s e m He Hm) in *.
  rewrite (f32_bits_frac s e m Hm) in Hn.
  rewrite (f32_bits_magnitude s e m He Hm) in Hi.
  intros E. rewrite E in Hn, Hi. cbn [Z.eqb andb] in Hn.
  rewrite Pos.eqb_refl in Hn. cbn [andb] in Hn.
  apply negb_false_iff in Hn. apply Z.eqb_eq in Hn.
  apply Z.eqb_neq in Hi. lia.
Qed.

Lemma MulWithMode_comm (a b : Float16) (mode : ArithmeticMode) (r : RoundingMode) :
  uint16 a -> uint16 b ->
  MulWithMode a b mode r = MulWithMode b a mode r.
Proof.
  intros Ha Hb.
  assert (Hs : forall n p, signed n p a b = signed n p b a).
  { intros n p. rewrite !signed_xorb, xorb_comm. reflexivity. }
  unfold MulWithMode, mulIEEE754.
  destruct (IsZero a) eqn:Za; destruct (IsZero b) eqn:Zb;
    destruct (IsInf a 0) eqn:Ia; destruct (IsInf b 0) eqn:Ib;
    cbn [andb orb]; try reflexivity; try apply Hs;
    destruct (IsNaN a) eqn:Na; destruct (IsNaN b) eqn:Nb;
    cbn [andb orb]; try reflexivity; try apply Hs.
  destruct (widen_facts a Ha) as (_ & _ & HnA & _).
  destruct (widen_facts b Hb) as (_ & _ & HnB & _).
  rewrite Na in HnA. rewrite Nb in HnB.
  rewrite (F32_mul_comm _ _ HnA HnB). reflexivity.
Qed.

Lemma MulWithMode_facts (a b : Float16) (mode : ArithmeticMode) (r : RoundingMode) :
  uint16 a -> uint16 b ->
  let res := MulWithMode a b mode r in
  IsSubnormal (fst res) = false
  /\ (mode <> ModeExactArithmetic -> snd res = None)
  /\ (IsNaN a = false -> IsNaN b = false ->
      (IsZero a && IsInf b 0) || (IsInf a 0 && IsZero b) = false ->
      snd res = None
      /\ IsNaN (fst res) = false
      /\ Signbit (fst res) = xorb (Signbit a) (Signbit b)).
Proof.
  intros Ha Hb.
  assert (Hgen : forall x, IsNaN a = false -> IsNaN b = false ->
            IsInf a 0 = false -> IsInf b 0 = false ->
            x = ToFloat16WithMode (F32.mul (ToFloat32 a) (ToFloat32 b)) ModeIEEE r ->
            IsSubnormal (fst x) = false /\ snd x = None
            /\ IsNaN (fst x) = false
            /\ Signbit (fst x) = xorb (Signbit a) (Signbit b)).
  { intros x Na Nb Ia Ib ->.
    destruct (widen_finite a Ha Na Ia) as (Ua & Ea & _ & Sa).
    destruct (widen_finite b Hb Nb Ib) as (Ub & Eb & _ & Sb).
    destruct (F32_mul_finite _ _ Ua Ub Ea Eb) as (Up & Np & Sp).
    destruct (narrow_error_facts _ ModeIEEE r Up) as [Hnone _].
    specialize (Hnone (or_introl eq_refl)).
    destruct (narrow_result_facts _ ModeIEEE r Up Hnone) as (_ & Hsign & Hsub).
    split; [exact Hsub|]. split; [exact Hnone|].
    split; [exact (narrow_not_NaN _ ModeIEEE r Up Np)|].
    rewrite Hsign, Sp, Sa, Sb. reflexivity. }
  assert (Hsg : forall n p, IsSubnormal n = false -> IsSubnormal p = false ->
            IsNaN n = false -> IsNaN p = false ->
            Signbit n = true -> Signbit p = false ->
            IsSubnormal (fst (signed n p a b)) = false
            /\ snd (signed n p a b) = None
            /\ IsNaN (fst (signed n p a b)) = false
            /\ Signbit (fst (signed n p a b)) = xorb (Signbit a) (Signbit b)).
  { intros n p Sn Sp Nn Np Gn Gp. rewrite signed_xorb.
    destruct (xorb (Signbit a) (Signbit b)); cbn [fst snd]; auto. }
  pose proof (Hsg NegativeZero PositiveZero eq_refl eq_refl eq_refl eq_refl
                eq_refl eq_refl) as (Z1 & Z2 & Z3 & Z4).
  pose proof (Hsg NegativeInfinity PositiveInfinity eq_refl eq_refl eq_refl
                eq_refl eq_refl eq_refl) as (I1 & I2 & I3 & I4).
  cbv zeta. unfold MulWithMode, mulIEEE754.
  destruct (IsZero a) eqn:Za; destruct (IsZero b) eqn:Zb;
    destruct (IsInf a 0) eqn:Ia; destruct (IsInf b 0) eqn:Ib;
    cbn [andb orb];
    try (split; [destruct mode; reflexivity
                | split; [intros Hm; destruct mode; try reflexivity;
                          contradiction Hm; reflexivity
                         | intros _ _ Hf; discriminate Hf]]);
    try (split; [exact Z1 | split; [intros _; exact Z2
                                   | intros _ _ _; auto]]);
    destruct (IsNaN a) eqn:Na; destruct (IsNaN b) eqn:Nb;
    cbn [andb orb];
    try (split; [destruct mode; reflexivity
                | split; [intros Hm; destruct mode; try reflexivity;
                          contradiction Hm; reflexivity
                         | intros Hf; try discriminate Hf;
                           intros Hf'; discriminate Hf']]);
    try (split; [exact I1 | split; [intros _; exact I2
                                   | intros _ _ _; auto]]).
  destruct (Hgen _ eq_refl eq_refl eq_refl eq_refl eq_refl) as (G1 & G2 & G3 & G4).
  destruct (ArithmeticMode_eqb mode ModeFastArithmetic);
    (split; [exact G1 | split; [intros _; exact G2 | intros _ _ _; auto]]).
Qed.

(** X22.  Multiplication is commutative, bit for bit and error for error:
    [MulWithMode a b] and [MulWithMode b a] return the same pair for all
    16-bit operands (NaN, zero and infinity included), every arithmetic
    mode and every rounding mode, and so do [Mul a b] and [Mul b a]
    whatever the package defaults are. *)
Theorem MulWithMode_commutative
    (a b : Float16) (mode : ArithmeticMode) (r : RoundingMode) :
  uint16 a -> uint16 b ->
  MulWithMode a b mode r = MulWithMode b a mode r
  /\ forall g, Mul g a b = Mul g b a.
Proof.
  intros Ha Hb. split; [exact (MulWithMode_comm a b mode r Ha Hb)|].
  intros g. unfold Mul. rewrite (MulWithMode_comm a b _ _ Ha Hb). reflexivity.
Qed.

Lemma MulWithMode_commutative_witness :
  MulWithMode 0x4200 NegativeInfinity ModeExactArithmetic RoundTowardZero
  = MulWithMode NegativeInfinity 0x4200 ModeExactArithmetic RoundTowardZero.
Proof.
  apply (MulWithMode_commutative 0x4200 NegativeInfinity ModeExactArithmetic
           RoundTowardZero).
  - unfold uint16. lia.
  - unfold uint16, NegativeInfinity. lia.
Defined.

(** X23.  What [MulWithMode] returns.  The result is never a subnormal,
    whatever the operands.  Outside ModeExactArithmetic there is never an
    error.  And when neither operand is a NaN and the product is not zero
    times infinity, in every mode: there is no error, the result is not a
    NaN, and its sign bit is the exclusive or of the operands' sign
    bits. *)
Theorem MulWithMode_sign_rule
    (a b : Float16) (mode : ArithmeticMode) (r : RoundingMode) :
  uint16 a -> uint16 b ->
  let res := MulWithMode a b mode r in
  IsSubnormal (fst res) = false
  /\ (mode <> ModeExactArithmetic -> snd res = None)
  /\ (IsNaN a = false -> IsNaN b = false ->
      (IsZero a && IsInf b 0) || (IsInf a 0 && IsZero b) = false ->
      snd res = None
      /\ IsNaN (fst res) = false
      /\ Signbit (fst res) = xorb (Signbit a) (Signbit b)).
Proof. exact (MulWithMode_facts a b mode r). Qed.

Lemma MulWithMode_sign_rule_witness :
  snd (MulWithMode 0xC000 0x4200 ModeExactArithmetic RoundNearestEven) = None
  /\ Signbit (fst (MulWithMode 0xC000 0x4200 ModeExactArithmetic RoundNearestEven))
     = true.
Proof.
  assert (U : forall x, 0 <= x < 65536 -> uint16 x) by (intros x Hx; exact Hx).
  destruct (MulWithMode_sign_rule 0xC000 0x4200 ModeExactArithmetic
              RoundNearestEven (U 0xC000 ltac:(lia)) (U 0x4200 ltac:(lia)))
    as (_ & _ & H).
  destruct (H eq_refl eq_refl eq_refl) as (Hnone & _ & Hsign).
  split; [exact Hnone | exact Hsign].
Defined.
(** ** Division and addition: the order of the guards (arithmetic.go) *)

(** A pattern is at most one of zero, infinity and NaN. *)
Lemma class_exclusive (f : Float16) :
  uint16 f ->
  (IsZero f = true -> IsInf f 0 = false /\ IsNaN f = false)
  /\ (IsInf f 0 = true -> IsZero f = false /\ IsNaN f = false)
  /\ (IsNaN f = true -> IsZero f = false /\ IsInf f 0 = false).
Proof.
  intros Hf.
  destruct (fields_facts f Hf) as (_ & _ & _ & Hz & _ & _ & Hi).
  assert (Hzero : IsZero f = true -> IsInf f 0 = false /\ IsNaN f = false).
  { intros Z. rewrite Hz in Z. apply orb_true_iff in Z.
    destruct Z as [Z | Z]; apply Z.eqb_eq in Z; rewrite Z; split; reflexivity. }
  assert (Hinf : IsInf f 0 = true -> IsZero f = false /\ IsNaN f = false).
  { intros I. rewrite Hi in I. apply orb_true_iff in I.
    destruct I as [I | I]; apply Z.eqb_eq in I; rewrite I; split; reflexivity. }
  split; [exact Hzero|]. split; [exact Hinf|].
  intros N. exact (NaN_not_zero_not_inf f Hf N).
Qed.

Lemma DivWithMode_NaN_facts
    (n x : Float16) (mode : ArithmeticMode) (r : RoundingMode) :
  uint16 n -> uint16 x -> IsNaN n = true ->
  (IsZero x = true ->
     DivWithMode x n mode r
     = (signed_zero (xorb (Signbit x) (Signbit n)), None)
     /\ DivWithMode n x mode r
        = if ArithmeticMode_eqb mode ModeExactArithmetic
          then arith_error "div" "division by zero" ErrDivisionByZero
          else (signed_infinity (xorb (Signbit n) (Signbit x)), None))
  /\ (IsInf x 0 = true ->
     DivWithMode x n mode r
     = (signed_infinity (xorb (Signbit x) (Signbit n)), None)
     /\ DivWithMode n x mode r
        = (signed_zero (xorb (Signbit n) (Signbit x)), None))
  /\ (IsZero x = false -> IsInf x 0 = false ->
     DivWithMode x n mode r
     = (if ArithmeticMode_eqb mode ModeExactArithmetic
        then arith_error "div" "NaN operand in exact mode" ErrNaN
        else (QuietNaN, None))
     /\ DivWithMode n x mode r
        = (if ArithmeticMode_eqb mode ModeExactArithmetic
           then arith_error "div" "NaN operand in exact mode" ErrNaN
           else (QuietNaN, None))).
Proof.
  intros Hn Hx Nn.
  destruct (class_exclusive n Hn) as (_ & _ & HN).
  destruct (HN Nn) as [Zn In].
  destruct (class_exclusive x Hx) as (HZ & HI & _).
  unfold DivWithMode, signed_zero, signed_infinity.
  rewrite !signed_xorb, Zn, In, Nn.
  split; [|split].
  - intros Zx. destruct (HZ Zx) as [Ix Nx]. rewrite Zx, ?Ix, ?Nx.
    cbn [orb andb]. split; reflexivity.
  - intros Ix. destruct (HI Ix) as [Zx Nx]. rewrite Zx, Ix, ?Nx.
    cbn [orb andb]. split; reflexivity.
  - intros Zx Ix. rewrite Zx, Ix. cbn [orb andb].
    rewrite orb_true_r. split; reflexivity.
Qed.

(** [add_aligned] has no shift by a computed count on a 16-bit operand: it
    always returns. *)
Lemma add_aligned_returns (a : Float16) (sA eA mA sB eB mB : Z) :
  exists res, add_aligned a sA eA mA sB eB mB = Ret res.
Proof.
  unfold add_aligned.
  repeat match goal with
         | |- context [if ?c then _ else _] => destruct c
         end; eexists; reflexivity.
Qed.

(** [add_normalize] panics exactly on a subnormal whose mantissa is 32 or
    more. *)
Lemma add_normalize_panics (e m : Z) :
  0 <= m <= 1023 ->
  (add_normalize e m = Panic <-> e = 0 /\ 32 <= m).
Proof.
  intros Hm.
  assert (T : normalize_check m = true).
  { apply (all_prefix_spec 10 _ 0 normalize_check_all).
    change (2 ^ Z.of_nat 10) with 1024. lia. }
  unfold normalize_check in T.
  destruct (Z.eqb_spec e 0) as [-> | Hne].
  - destruct (add_normalize 0 m) as [[e' m'] |] eqn:E.
    + split; [discriminate|]. intros [_ H32].
      repeat match goal with
             | H : _ || _ = true |- _ =>
                 apply orb_true_iff in H; destruct H as [H | H]
             | H : _ && _ = true |- _ =>
                 apply andb_true_iff in H; destruct H as [H ?]
             end;
        repeat match goal with
               | H : (_ =? _) = true |- _ => apply Z.eqb_eq in H
               | H : (_ <=? _) = true |- _ => apply Z.leb_le in H
               end;
        lia.
    + apply Z.leb_le in T. split; [intros _; split; [reflexivity | exact T]
                                  | reflexivity].
  - unfold add_normalize. destruct (Z.eqb_spec e 0); [contradiction|].
    cbn [andb negb]. split; [discriminate | intros [? _]; contradiction].
Qed.

Lemma add_sorted_panics (a : Float16) (sA eA mA sB eB mB : Z) :
  0 <= mA <= 1023 -> 0 <= mB <= 1023 ->
  (add_sorted a sA eA mA sB eB mB = Panic
   <-> (eA = 0 /\ 32 <= mA) \/ (eB = 0 /\ 32 <= mB)).
Proof.
  intros HA HB. unfold add_sorted.
  pose proof (add_normalize_panics eA mA HA) as PA.
  pose proof (add_normalize_panics eB mB HB) as PB.
  destruct (add_normalize eA mA) as [na |]; cbn [bind].
  - destruct (add_normalize eB mB) as [nb |]; cbn [bind].
    + destruct (add_aligned_returns a sA (fst na) (snd na) sB (fst nb) (snd nb))
        as [res ->].
      split; [discriminate|].
      intros [H | H]; [apply PA in H | apply PB in H]; discriminate H.
    + split; [intros _; right; apply PB; reflexivity | reflexivity].
  - split; [intros _; left; apply PA; reflexivity | reflexivity].
Qed.

Lemma AddWithMode_panic_iff
    (a b : Float16) (mode : ArithmeticMode) (r : RoundingMode) :
  uint16 a -> uint16 b ->
  (AddWithMode a b mode r = Panic
   <-> mode <> ModeFastArithmetic
       /\ IsZero a = false /\ IsZero b = false
       /\ IsNaN a = false /\ IsNaN b = false
       /\ IsInf a 0 = false /\ IsInf b 0 = false
       /\ (exponent_field a = 0 /\ 32 <= mantissa_field a
           \/ exponent_field b = 0 /\ 32 <= mantissa_field b)).
Proof.
  intros Ha Hb.
  destruct (fields_facts a Ha) as (_ & HmA & _).
  destruct (fields_facts b Hb) as (_ & HmB & _).
  unfold AddWithMode.
  destruct (IsZero a); [split; [discriminate | intros (_ & H & _); discriminate H]|].
  destruct (IsZero b);
    [split; [discriminate | intros (_ & _ & H & _); discriminate H]|].
  destruct (IsNaN a); cbn [orb].
  { split; [destruct mode; discriminate | intros (_ & _ & _ & H & _); discriminate H]. }
  destruct (IsNaN b); cbn [orb].
  { split; [destruct mode; discriminate
           | intros (_ & _ & _ & _ & H & _); discriminate H]. }
  destruct (IsInf a 0) eqn:Ia; cbn [orb].
  { split; [|intros (_ & _ & _ & _ & _ & H & _); discriminate H].
    destruct (IsInf a 1 && IsInf b (-1)); [destruct mode; discriminate|].
    destruct (IsInf a (-1) && IsInf b 1); [destruct mode; discriminate|].
    discriminate. }
  destruct (IsInf b 0) eqn:Ib.
  { split; [|intros (_ & _ & _ & _ & _ & _ & H & _); discriminate H].
    destruct (IsInf a 1 && IsInf b (-1)); [destruct mode; discriminate|].
    destruct (IsInf a (-1) && IsInf b 1); [destruct mode; discriminate|].
    discriminate. }
  assert (Hcore : addIEEE754 a b r = Panic
                  <-> (exponent_field a = 0 /\ 32 <= mantissa_field a)
                      \/ (exponent_field b = 0 /\ 32 <= mantissa_field b)).
  { unfold addIEEE754, extractComponents.
    fold (exponent_field a) (exponent_field b)
         (mantissa_field a) (mantissa_field b).
    destruct ((exponent_field a <? exponent_field b)
              || ((exponent_field a =? exponent_field b)
                  && (mantissa_field a <? mantissa_field b))).
    - rewrite add_sorted_panics by assumption. tauto.
    - rewrite add_sorted_panics by assumption. tauto. }
  destruct mode; cbn [ArithmeticMode_eqb].
  - rewrite Hcore. split; [intros H; repeat split; auto; discriminate
                          | intros (_ & _ & _ & _ & _ & _ & _ & H); exact H].
  - split; [destruct (ToFloat16WithMode _ _ _); discriminate
           | intros (H & _); contradiction H; reflexivity].
  - rewrite Hcore. split; [intros H; repeat split; auto; discriminate
                          | intros (_ & _ & _ & _ & _ & _ & _ & H); exact H].
Qed.

(** X24.  A NaN operand of [DivWithMode] is looked at last.  With a NaN
    [n] and a zero [x]: [x / n] is the zero signed by the exclusive or of
    the sign bits, with no error in any mode, and [n / x] is the infinity
    so signed, or the DivisionByZero error in ModeExactArithmetic.  With
    an infinity [x]: [x / n] is a signed infinity and [n / x] a signed
    zero, with no error in any mode.  Only when the other operand is
    neither a zero nor an infinity is the result the quiet NaN, or the
    NaN-operand error in ModeExactArithmetic. *)
Theorem DivWithMode_NaN_precedence
    (n x : Float16) (mode : ArithmeticMode) (r : RoundingMode) :
  uint16 n -> uint16 x -> IsNaN n = true ->
  (IsZero x = true ->
     DivWithMode x n mode r
     = (signed_zero (xorb (Signbit x) (Signbit n)), None)
     /\ DivWithMode n x mode r
        = if ArithmeticMode_eqb mode ModeExactArithmetic
          then arith_error "div" "division by zero" ErrDivisionByZero
          else (signed_infinity (xorb (Signbit n) (Signbit x)), None))
  /\ (IsInf x 0 = true ->
     DivWithMode x n mode r
     = (signed_infinity (xorb (Signbit x) (Signbit n)), None)
     /\ DivWithMode n x mode r
        = (signed_zero (xorb (Signbit n) (Signbit x)), None))
  /\ (IsZero x = false -> IsInf x 0 = false ->
     DivWithMode x n mode r
     = (if ArithmeticMode_eqb mode ModeExactArithmetic
        then arith_error "div" "NaN operand in exact mode" ErrNaN
        else (QuietNaN, None))
     /\ DivWithMode n x mode r
        = (if ArithmeticMode_eqb mode ModeExactArithmetic
           then arith_error "div" "NaN operand in exact mode" ErrNaN
           else (QuietNaN, None))).
Proof. exact (DivWithMode_NaN_facts n x mode r). Qed.

Lemma DivWithMode_NaN_precedence_witness :
  DivWithMode NegativeZero SignalingNaN ModeExactArithmetic RoundNearestEven
  = (NegativeZero, None)
  /\ error_code (DivWithMode SignalingNaN NegativeZero ModeExactArithmetic
                   RoundNearestEven) = Some ErrDivisionByZero.
Proof.
  assert (U : forall x, 0 <= x < 65536 -> uint16 x) by (intros x Hx; exact Hx).
  destruct (DivWithMode_NaN_precedence SignalingNaN NegativeZero
              ModeExactArithmetic RoundNearestEven
              (U SignalingNaN ltac:(unfold SignalingNaN; lia))
              (U NegativeZero ltac:(unfold NegativeZero; lia)) eq_refl)
    as (H & _).
  destruct (H eq_refl) as [H1 H2].
  split; [rewrite H1; reflexivity | rewrite H2; reflexivity].
Defined.

(** X25.  When [AddWithMode] panics.  The call ends in a run-time panic (a
    shift by a negative count in [addIEEE754]) exactly when the mode is not
    ModeFastArithmetic, neither operand is a zero, a NaN or an infinity,
    and one of the operands is a subnormal whose mantissa field is 32 or
    more.  In every other case it returns. *)
Theorem AddWithMode_panics_exactly
    (a b : Float16) (mode : ArithmeticMode) (r : RoundingMode) :
  uint16 a -> uint16 b ->
  (AddWithMode a b mode r = Panic
   <-> mode <> ModeFastArithmetic
       /\ IsZero a = false /\ IsZero b = false
       /\ IsNaN a = false /\ IsNaN b = false
       /\ IsInf a 0 = false /\ IsInf b 0 = false
       /\ (exponent_field a = 0 /\ 32 <= mantissa_field a
           \/ exponent_field b = 0 /\ 32 <= mantissa_field b)).
Proof. exact (AddWithMode_panic_iff a b mode r). Qed.

Lemma AddWithMode_panics_exactly_witness :
  AddWithMode 0x3C00 0x0020 ModeIEEEArithmetic RoundNearestEven = Panic.
Proof.
  assert (U : forall x, 0 <= x < 65536 -> uint16 x) by (intros x Hx; exact Hx).
  apply (AddWithMode_panics_exactly 0x3C00 0x0020 ModeIEEEArithmetic
           RoundNearestEven (U 0x3C00 ltac:(lia)) (U 0x0020 ltac:(lia))).
  split; [discriminate|].
  repeat (split; [reflexivity|]).
  right. split; [reflexivity|]. change (mantissa_field 0x0020) with 32. lia.
Defined.
(** ** Subtraction of a value from itself, and doubling (arithmetic.go) *)

Lemma Neg_masks (f : Float16) :
  Z.land (Neg f) ExponentMask = Z.land f ExponentMask
  /\ Z.land (Neg f) MantissaMask = Z.land f MantissaMask.
Proof.
  split; apply Z.bits_inj'; intros i Hi;
    rewrite !Z.land_spec, Neg_testbit;
    (destruct (Z.eqb_spec i 15) as [-> | Hne];
     [rewrite !andb_false_r; reflexivity | rewrite xorb_false_r; reflexivity]).
Qed.

Lemma Neg_class (f : Float16) :
  IsZero (Neg f) = IsZero f
  /\ IsNaN (Neg f) = IsNaN f
  /\ IsInf (Neg f) 0 = IsInf f 0
  /\ exponent_field (Neg f) = exponent_field f
  /\ mantissa_field (Neg f) = mantissa_field f.
Proof.
  destruct (Neg_masks f) as [He Hm].
  unfold IsZero, IsNaN, IsInf, exponent_field, mantissa_field.
  rewrite magnitude_Neg, He, Hm. repeat split; reflexivity.
Qed.

Lemma sign_component (f : Float16) :
  uint16 f ->
  Z.shiftr (Z.land f SignMask) 15 = (if Signbit f then 1 else 0).
Proof.
  intros Hf.
  destruct (pack_fields f 0 0 0 Hf) as (Hext & _); try lia.
  unfold extractComponents in Hext.
  assert (Hs : Z.shiftr (Z.land f SignMask) 15 = f / 32768) by congruence.
  rewrite Hs. destruct (sign_facts f Hf) as (-> & _).
  unfold uint16 in Hf.
  destruct (Z.leb_spec 32768 f).
  - symmetry. apply Z.div_unique with (r := f - 32768); lia.
  - apply Z.div_small. lia.
Qed.

Lemma Neg_uint16 (f : Float16) : uint16 f -> uint16 (Neg f).
Proof.
  intros Hf. unfold uint16 in *. unfold Neg, SignMask.
  assert (Hnn : 0 <= Z.lxor f 32768) by (apply Z.lxor_nonneg; lia).
  split; [exact Hnn|].
  destruct (Z.eq_dec (Z.lxor f 32768) 0) as [-> | Hnz]; [lia|].
  apply (proj2 (Z.log2_lt_pow2 (Z.lxor f 32768) 16 ltac:(lia))).
  pose proof (Z.log2_lxor f 32768 ltac:(lia) ltac:(lia)) as Hl.
  change (Z.log2 32768) with 15 in Hl.
  destruct (Z.eq_dec f 0) as [-> | Hf0].
  - change (Z.log2 0) with 0 in Hl. lia.
  - assert (Z.log2 f < 16)
      by (apply (proj1 (Z.log2_lt_pow2 f 16 ltac:(lia))); lia).
    lia.
Qed.

Lemma lor_implicit (m : Z) :
  0 <= m <= 1023 -> Z.lor m (Z.shiftl 1 MantissaLen) = m + 1024.
Proof.
  intros Hm. rewrite Z.lor_comm. change (Z.shiftl 1 MantissaLen) with (Z.shiftl 1 10).
  rewrite lor_shiftl_add by lia. lia.
Qed.

(** The components of a finite nonzero operand, as [addIEEE754] reads
    them. *)
Lemma add_operand (a : Float16) :
  uint16 a ->
  extractComponents a
  = ((if Signbit a then 1 else 0), exponent_field a, mantissa_field a).
Proof.
  intros Ha. unfold extractComponents.
  rewrite (sign_component a Ha). reflexivity.
Qed.

Lemma SubWithMode_self_facts
    (a : Float16) (mode : ArithmeticMode) (r : RoundingMode) :
  uint16 a ->
  (IsZero a = true -> SubWithMode a a mode r = Ret (Neg a, None))
  /\ (IsInf a 0 = true ->
      SubWithMode a a mode r
      = Ret (if ArithmeticMode_eqb mode ModeExactArithmetic
             then arith_error "add" "infinity - infinity is undefined"
                    ErrInvalidOperation
             else (QuietNaN, None)))
  /\ (IsZero a = false -> IsNaN a = false -> IsInf a 0 = false ->
      mode <> ModeFastArithmetic ->
      ~ (exponent_field a = 0 /\ 32 <= mantissa_field a) ->
      SubWithMode a a mode r = Ret (PositiveZero, None)).
Proof.
  intros Ha.
  destruct (Neg_class a) as (Zn & Nn & In & En & Mn).
  pose proof (Neg_uint16 a Ha) as Hna.
  unfold SubWithMode, AddWithMode. rewrite Zn, Nn, In.
  split; [|split].
  - intros Z. rewrite Z. reflexivity.
  - intros I. destruct (class_exclusive a Ha) as (_ & HI & _).
    destruct (HI I) as [Z N]. rewrite Z, N, I. cbn [orb].
    destruct (fields_facts a Ha) as (_ & _ & _ & _ & _ & _ & Hi).
    rewrite Hi in I. apply orb_true_iff in I.
    destruct I as [E | E]; apply Z.eqb_eq in E; rewrite E;
      destruct mode; reflexivity.
  - intros Z N I Hmode Hok. rewrite Z, N, I. cbn [orb].
    assert (Hfast : ArithmeticMode_eqb mode ModeFastArithmetic = false)
      by (destruct mode; try reflexivity; contradiction Hmode; reflexivity).
    rewrite Hfast.
    destruct (fields_facts a Ha) as (_ & Hm & _).
    unfold addIEEE754. rewrite (add_operand a Ha), (add_operand _ Hna), En, Mn.
    rewrite !Z.ltb_irrefl, ?Z.eqb_refl. cbn [orb andb].
    assert (Hsign : (if Signbit a then 1 else 0)
                    <> (if Signbit (Neg a) then 1 else 0)).
    { rewrite !Signbit_testbit, Neg_testbit. change (15 =? 15) with true.
      destruct (Z.testbit a 15); cbn [xorb]; lia. }
    unfold add_sorted.
    destruct (add_normalize (exponent_field a) (mantissa_field a))
      as [[e' m'] |] eqn:E.
    + cbn [bind fst snd]. apply add_aligned_cancel. exact Hsign.
    + apply (add_normalize_panics _ _ Hm) in E. contradiction.
Qed.

(** Adding a normal value to itself. *)
Lemma AddWithMode_double_facts
    (a : Float16) (mode : ArithmeticMode) (r : RoundingMode) :
  uint16 a -> IsNormal a = true -> mode <> ModeFastArithmetic ->
  AddWithMode a a mode r
  = Ret (if exponent_field a =? 30 then signed_infinity (Signbit a)
         else a + 1024, None).
Proof.
  intros Ha Hn Hmode.
  destruct (fields_facts a Ha) as (He & Hm & Hz & _ & _ & _ & _).
  assert (Hexp : 1 <= exponent_field a <= 30).
  { unfold IsNormal in Hn. fold (exponent_field a) in Hn.
    unfold ExponentZero, ExponentInfinity in Hn.
    apply andb_true_iff in Hn as [H0 H31].
    apply negb_true_iff in H0, H31.
    apply Z.eqb_neq in H0, H31. lia. }
  assert (Z : IsZero a = false).
  { rewrite Hz. destruct (Z.eqb_spec (exponent_field a) 0); [lia | reflexivity]. }
  assert (N : IsNaN a = false).
  { unfold IsNaN. fold (exponent_field a). unfold ExponentInfinity.
    destruct (Z.eqb_spec (exponent_field a) 31); [lia | reflexivity]. }
  assert (I : IsInf a 0 = false).
  { destruct (IsInf a 0) eqn:E; [|reflexivity].
    destruct (fields_facts a Ha) as (_ & _ & _ & _ & _ & _ & Hi).
    rewrite Hi in E. apply orb_true_iff in E.
    destruct E as [E | E]; apply Z.eqb_eq in E;
      assert (exponent_field a = 31) by (rewrite E; reflexivity); lia. }
  assert (Hfast : ArithmeticMode_eqb mode ModeFastArithmetic = false)
    by (destruct mode; try reflexivity; contradiction Hmode; reflexivity).
  unfold AddWithMode. rewrite Z, N, I, Hfast. cbn [orb].
  unfold addIEEE754. rewrite (add_operand a Ha).
  rewrite !Z.ltb_irrefl, ?Z.eqb_refl. cbn [orb andb].
  unfold add_sorted, add_normalize.
  destruct (Z.eqb_spec (exponent_field a) 0) as [E0 | _]; [lia|].
  cbn [andb negb bind fst snd]. rewrite (lor_implicit _ Hm).
  set (e := exponent_field a) in *. set (m := mantissa_field a) in *.
  set (s := if Signbit a then 1 else 0).
  assert (Hs : 0 <= s <= 1) by (unfold s; destruct (Signbit a); lia).
  unfold add_aligned. rewrite Z.sub_diag. cbn [Z.ltb Z.compare andb].
  rewrite Z.eqb_refl.
  rewrite u32_small by lia.
  destruct (Z.eqb_spec (m + 1024 + (m + 1024)) 0) as [E | _]; [lia|].
  change (Z.shiftl 1 (MantissaLen + 1)) with 2048.
  destruct (Z.leb_spec 2048 (m + 1024 + (m + 1024))) as [_ | H]; [|lia].
  replace (Z.shiftr (m + 1024 + (m + 1024)) 1) with (m + 1024).
  2:{ rewrite Z.shiftr_div_pow2 by lia. change (2 ^ 1) with 2.
      apply Z.div_unique with (r := 0); lia. }
  unfold ExponentInfinity.
  destruct (Z.leb_spec 31 (e + 1)) as [H31 | H31].
  - destruct (Z.eqb_spec e 30) as [_ | Hne]; [|lia].
    unfold s, signed_infinity. destruct (Signbit a); reflexivity.
  - destruct (Z.eqb_spec e 30) as [E30 | _]; [lia|].
    destruct (Z.leb_spec (e + 1) 0) as [H0 | _]; [lia|]. cbn [andb].
    destruct (Z.ltb_spec 0 (e + 1)) as [_ | H0]; [|lia].
    replace (Z.land (m + 1024) MantissaMask) with m.
    2:{ change MantissaMask with (Z.ones 10). rewrite Z.land_ones by lia.
        change (2 ^ 10) with 1024.
        apply Z.mod_unique with (q := 1); lia. }
    rewrite !u16_small by lia.
    destruct (pack_fields a s (e + 1) m Ha) as (Hext & Hpk & _ & ->); try lia.
    f_equal. f_equal.
    unfold extractComponents in Hext.
    assert (Ee : e = (a / 1024) mod 32) by (unfold e, exponent_field; congruence).
    assert (Em : m = a mod 1024) by (unfold m, mantissa_field; congruence).
    assert (Es : s = a / 32768).
    { unfold s. rewrite <- (sign_component a Ha). congruence. }
    pose proof (Z.div_mod a 1024 ltac:(lia)).
    pose proof (Z.div_mod (a / 1024) 32 ltac:(lia)).
    assert (a / 1024 / 32 = a / 32768)
      by (rewrite Z.div_div by lia; reflexivity).
    lia.
Qed.

(** X26.  [SubWithMode a a].  For a zero the zero shortcut of the addition
    returns the negated operand: [+0 - +0] is [-0] and [-0 - -0] is [+0].
    For an infinity the result is the quiet NaN, or the InvalidOperation
    error in ModeExactArithmetic.  For every other operand that is not a
    NaN and does not make the addition panic (every normal value, and the
    subnormals with a mantissa below 32), outside ModeFastArithmetic, the
    result is [+0] with no error. *)
Theorem SubWithMode_self
    (a : Float16) (mode : ArithmeticMode) (r : RoundingMode) :
  uint16 a ->
  (IsZero a = true -> SubWithMode a a mode r = Ret (Neg a, None))
  /\ (IsInf a 0 = true ->
      SubWithMode a a mode r
      = Ret (if ArithmeticMode_eqb mode ModeExactArithmetic
             then arith_error "add" "infinity - infinity is undefined"
                    ErrInvalidOperation
             else (QuietNaN, None)))
  /\ (IsZero a = false -> IsNaN a = false -> IsInf a 0 = false ->
      mode <> ModeFastArithmetic ->
      ~ (exponent_field a = 0 /\ 32 <= mantissa_field a) ->
      SubWithMode a a mode r = Ret (PositiveZero, None)).
Proof. exact (SubWithMode_self_facts a mode r). Qed.

Lemma SubWithMode_self_witness :
  SubWithMode 0xC500 0xC500 ModeExactArithmetic RoundNearestEven
  = Ret (PositiveZero, None).
Proof.
  assert (U : forall x, 0 <= x < 65536 -> uint16 x) by (intros x Hx; exact Hx).
  destruct (SubWithMode_self 0xC500 ModeExactArithmetic RoundNearestEven
              (U 0xC500 ltac:(lia))) as (_ & _ & H).
  apply H; try reflexivity; [discriminate|].
  change (exponent_field 0xC500) with 17. lia.
Defined.

(** X27.  Doubling.  For a normal [a], outside ModeFastArithmetic,
    [AddWithMode a a] is exact: it returns the pattern with the exponent
    field one higher and the same sign and mantissa, [a + 1024], or the
    infinity of the sign of [a] when the exponent field is already 30;
    there is no error. *)
Theorem AddWithMode_doubles
    (a : Float16) (mode : ArithmeticMode) (r : RoundingMode) :
  uint16 a -> IsNormal a = true -> mode <> ModeFastArithmetic ->
  AddWithMode a a mode r
  = Ret (if exponent_field a =? 30 then signed_infinity (Signbit a)
         else a + 1024, None).
Proof. exact (AddWithMode_double_facts a mode r). Qed.

Lemma AddWithMode_doubles_witness :
  AddWithMode 0xBC01 0xBC01 ModeIEEEArithmetic RoundTowardPositive
  = Ret (0xC001, None).
Proof.
  assert (U : forall x, 0 <= x < 65536 -> uint16 x) by (intros x Hx; exact Hx).
  rewrite (AddWithMode_doubles 0xBC01 ModeIEEEArithmetic RoundTowardPositive
             (U 0xBC01 ltac:(lia)) eq_refl ltac:(discriminate)).
  reflexivity.
Defined.
(** ** NextAfter (float16.go) *)

Lemma widen_order_check_all : all_uint16 widen_order_check = true.
Proof. vm_compute. reflexivity. Qed.

Lemma widen_key_monotone (j k : Z) :
  j = 0 \/ 1024 <= Z.abs j <= 0x7C00 ->
  k = 0 \/ 1024 <= Z.abs k <= 0x7C00 ->
  (widen_key j <? widen_key k) = (j <? k).
Proof.
  intros Hj Hk. unfold widen_key.
  destruct (Z.eqb_spec (Z.abs j) 0); destruct (Z.eqb_spec (Z.abs k) 0);
    destruct (Z.eqb_spec (Z.abs j) 31744); destruct (Z.eqb_spec (Z.abs k) 31744);
    destruct (Z.ltb_spec j 0); destruct (Z.ltb_spec k 0);
    destruct (Z.ltb_spec j k);
    try lia; apply Z.ltb_lt || apply Z.ltb_ge; lia.
Qed.

(** On values that are neither NaN nor subnormal, the float32 comparison
    of the widenings is [Less]. *)
Lemma widen_Less (f g : Float16) :
  uint16 f -> uint16 g ->
  IsNaN f = false -> IsNaN g = false ->
  IsSubnormal f = false -> IsSubnormal g = false ->
  F32.lt (ToFloat32 f) (ToFloat32 g) = Less f g.
Proof.
  intros Hf Hg Nf Ng Sf Sg.
  assert (Hkey : forall v, uint16 v -> IsNaN v = false -> IsSubnormal v = false ->
            F32.ord (ToFloat32 v) = widen_key (order_key v)
            /\ (order_key v = 0 \/ 1024 <= Z.abs (order_key v) <= 0x7C00)).
  { intros v Hv Nv Sv.
    pose proof (all_uint16_spec _ widen_order_check_all v Hv) as H.
    unfold widen_order_check in H. rewrite Nv, Sv in H. cbn [orb] in H.
    apply andb_true_iff in H as [H1 H2]. apply Z.eqb_eq in H1.
    split; [exact H1|].
    apply orb_true_iff in H2. destruct H2 as [H2 | H2].
    - left. apply Z.eqb_eq. exact H2.
    - right. apply andb_true_iff in H2 as [Ha Hb].
      apply Z.leb_le in Ha, Hb. lia. }
  destruct (Hkey f Hf Nf Sf) as [Kf Rf].
  destruct (Hkey g Hg Ng Sg) as [Kg Rg].
  destruct (widen_facts f Hf) as (_ & _ & Wf & _).
  destruct (widen_facts g Hg) as (_ & _ & Wg & _).
  destruct (key_order f g Hf Hg Nf Ng) as (-> & _).
  unfold F32.lt. rewrite Wf, Wg, Nf, Ng, Kf, Kg. cbn [negb andb].
  apply widen_key_monotone; assumption.
Qed.

Lemma NextAfter_step (f g : Float16) :
  uint16 f -> uint16 g ->
  IsNaN f = false -> IsNaN g = false -> Equal f g = false ->
  IsZero f = true \/ (IsSubnormal f = false /\ IsSubnormal g = false) ->
  uint16 (NextAfter f g)
  /\ order_key (NextAfter f g) = order_key f + (if Less f g then 1 else -1).
Proof.
  intros Hf Hg Nf Ng Eq Hcase.
  destruct (key_order f g Hf Hg Nf Ng) as (HL & HE & _).
  destruct (sign_facts f Hf) as (Sf & _ & Zf & NaNf).
  destruct (sign_facts g Hg) as (Sg & _ & Zg & NaNg).
  rewrite Nf in NaNf. rewrite Ng in NaNg.
  symmetry in NaNf, NaNg. apply Z.ltb_ge in NaNf, NaNg.
  rewrite Eq in HE. symmetry in HE. apply Z.eqb_neq in HE.
  unfold NextAfter. rewrite Nf, Ng, Eq. cbn [orb].
  unfold uint16 in Hf, Hg.
  pose proof (Z.mod_pos_bound f 32768 ltac:(lia)) as Bf.
  pose proof (Z.mod_pos_bound g 32768 ltac:(lia)) as Bg.
  pose proof (Z.div_mod f 32768 ltac:(lia)) as Df.
  pose proof (Z.div_mod g 32768 ltac:(lia)) as Dg.
  destruct (IsZero f) eqn:Z0.
  - (* from a zero: the smallest subnormal on the side of g *)
    rewrite HL. symmetry in Zf. apply Z.eqb_eq in Zf.
    rewrite Sg. unfold order_key in *.
    destruct (Z.leb_spec 32768 f); destruct (Z.leb_spec 32768 g);
      destruct (Z.ltb_spec (- (f mod 32768)) (- (g mod 32768)));
      destruct (Z.ltb_spec (- (f mod 32768)) g);
      destruct (Z.ltb_spec f (- (g mod 32768)));
      destruct (Z.ltb_spec f g);
      try lia; split; try (unfold uint16; lia); cbn; lia.
  - destruct Hcase as [C | [Subf Subg]]; [discriminate C|].
    rewrite (widen_Less f g Hf Hg Nf Ng Subf Subg), HL, Sf.
    symmetry in Zf. apply Z.eqb_neq in Zf.
    assert (U : forall x, 0 <= x < 65536 -> u16 x = x) by (apply u16_small).
    assert (M1 : 32768 <= f -> (f - 1) mod 32768 = f mod 32768 - 1).
    { intros H. symmetry. apply Z.mod_unique with (q := f / 32768); lia. }
    assert (M2 : 32768 <= f -> f mod 32768 < 31744 ->
                 (f + 1) mod 32768 = f mod 32768 + 1).
    { intros H H'. symmetry. apply Z.mod_unique with (q := f / 32768); lia. }
    assert (Q : 32768 <= f -> f / 32768 = 1).
    { intros H. symmetry. apply Z.div_unique with (r := f - 32768); lia. }
    unfold order_key in *.
    destruct (Z.leb_spec 32768 f) as [Hneg | Hpos].
    + specialize (Q Hneg).
      destruct (Z.leb_spec 32768 g);
        match goal with
        | |- context [Z.ltb ?x ?y] => destruct (Z.ltb_spec x y)
        end; cbn [negb Bool.eqb].
      * rewrite U by lia. split; [unfold uint16; lia|].
        destruct (Z.leb_spec 32768 (f - 1)); [rewrite M1 by lia; lia | lia].
      * rewrite U by lia. split; [unfold uint16; lia|].
        destruct (Z.leb_spec 32768 (f + 1)); [rewrite M2 by lia; lia | lia].
      * rewrite U by lia. split; [unfold uint16; lia|].
        destruct (Z.leb_spec 32768 (f - 1)); [rewrite M1 by lia; lia | lia].
      * lia.
    + assert (Hmod : f mod 32768 = f) by (apply Z.mod_small; lia).
      destruct (Z.leb_spec 32768 g);
        match goal with
        | |- context [Z.ltb ?x ?y] => destruct (Z.ltb_spec x y)
        end; cbn [negb Bool.eqb].
      * lia.
      * rewrite U by lia. split; [unfold uint16; lia|].
        destruct (Z.leb_spec 32768 (f - 1)); lia.
      * rewrite U by lia. split; [unfold uint16; lia|].
        destruct (Z.leb_spec 32768 (f + 1)); lia.
      * rewrite U by lia. split; [unfold uint16; lia|].
        destruct (Z.leb_spec 32768 (f - 1)); lia.
Qed.

(** X28.  [NextAfter(f, g)] moves one pattern toward [g].  For [f] and [g]
    that are not NaN and not [Equal], when [f] is a zero, or when neither
    [f] nor [g] is a subnormal, the result is the 16-bit pattern whose
    order key is that of [f] plus one if [Less f g] and minus one
    otherwise: the neighbour of [f] on the side of [g].  The condition on
    subnormals is needed, because the direction is decided on the widened
    values: from the smallest normal toward the smallest subnormal the
    step goes up, to 0x0401. *)
Theorem NextAfter_steps_toward (f g : Float16) :
  uint16 f -> uint16 g ->
  IsNaN f = false -> IsNaN g = false -> Equal f g = false ->
  IsZero f = true \/ (IsSubnormal f = false /\ IsSubnormal g = false) ->
  uint16 (NextAfter f g)
  /\ order_key (NextAfter f g) = order_key f + (if Less f g then 1 else -1)
  /\ NextAfter SmallestNormal SmallestSubnormal = 0x0401.
Proof.
  intros Hf Hg Nf Ng Eq Hcase.
  destruct (NextAfter_step f g Hf Hg Nf Ng Eq Hcase) as [H1 H2].
  split; [exact H1|]. split; [exact H2 | reflexivity].
Qed.

Lemma NextAfter_steps_toward_witness :
  order_key (NextAfter 0xBC00 PositiveInfinity) = order_key 0xBC00 + 1
  /\ NextAfter 0xBC00 PositiveInfinity = 0xBBFF.
Proof.
  assert (U : forall x, 0 <= x < 65536 -> uint16 x) by (intros x Hx; exact Hx).
  destruct (NextAfter_steps_toward 0xBC00 PositiveInfinity
              (U 0xBC00 ltac:(lia))
              (U PositiveInfinity ltac:(unfold PositiveInfinity; lia))
              eq_refl eq_refl eq_refl (or_intror (conj eq_refl eq_refl)))
    as (_ & H & _).
  split; [exact H | reflexivity].
Defined.
(** ** Batch operations (arithmetic.go) *)

Lemma zip_exec_returns (op : Float16 -> Float16 -> Exec Float16) (a b : list Float16) :
  List.length a = List.length b ->
  (forall i, (i < List.length a)%nat ->
     exists v, op (nth i a 0) (nth i b 0) = Ret v) ->
  exists out, zip_exec op a b = Ret out
    /\ List.length out = List.length a
    /\ forall i, (i < List.length a)%nat ->
         op (nth i a 0) (nth i b 0) = Ret (nth i out 0).
Proof.
  revert b. induction a as [|x a IH]; intros [|y b] Hlen Hall;
    try discriminate Hlen.
  - exists []. split; [reflexivity|]. split; [reflexivity|].
    intros i Hi. inversion Hi.
  - destruct (Hall 0%nat) as [v Hv]; [cbn; apply Nat.lt_0_succ|].
    cbn [nth] in Hv.
    destruct (IH b) as (out & Hout & Hl & Hnth).
    + cbn in Hlen. congruence.
    + intros i Hi. apply (Hall (S i)). cbn. apply (proj1 (Nat.succ_lt_mono _ _)).
      exact Hi.
    + exists (v :: out). cbn [zip_exec]. rewrite Hv. cbn [bind].
      rewrite Hout. cbn [bind]. split; [reflexivity|].
      split; [cbn; congruence|].
      intros [|i] Hi; cbn [nth]; [exact Hv|].
      apply Hnth. cbn in Hi. apply (proj2 (Nat.succ_lt_mono _ _)). exact Hi.
Qed.

Lemma zip_exec_panics (op : Float16 -> Float16 -> Exec Float16) (a b : list Float16) :
  List.length a = List.length b ->
  (exists i, (i < List.length a)%nat /\ op (nth i a 0) (nth i b 0) = Panic) ->
  zip_exec op a b = Panic.
Proof.
  revert b. induction a as [|x a IH]; intros [|y b] Hlen [i [Hi Hp]];
    try discriminate Hlen.
  - inversion Hi.
  - cbn [zip_exec]. destruct i as [|i].
    + cbn [nth] in Hp. rewrite Hp. reflexivity.
    + destruct (op x y); [|reflexivity]. cbn [bind].
      rewrite (IH b); [reflexivity | cbn in Hlen; congruence |].
      exists i. split; [|exact Hp].
      cbn in Hi. apply (proj2 (Nat.succ_lt_mono _ _)). exact Hi.
Qed.

Lemma slice_facts (g : Globals) (a b : list Float16) :
  (List.length a <> List.length b ->
     AddSlice g a b = Panic /\ MulSlice g a b = Panic /\ DivSlice g a b = Panic)
  /\ (List.length a = List.length b ->
      (exists out, MulSlice g a b = Ret out
         /\ List.length out = List.length a
         /\ forall i, (i < List.length a)%nat ->
              nth i out 0 = Mul g (nth i a 0) (nth i b 0))
      /\ (exists out, DivSlice g a b = Ret out
         /\ List.length out = List.length a
         /\ forall i, (i < List.length a)%nat ->
              nth i out 0 = Div g (nth i a 0) (nth i b 0))
      /\ ((exists i, (i < List.length a)%nat
                     /\ Add g (nth i a 0) (nth i b 0) = Panic) ->
          AddSlice g a b = Panic)
      /\ ((forall i, (i < List.length a)%nat ->
             exists v, Add g (nth i a 0) (nth i b 0) = Ret v) ->
          exists out, AddSlice g a b = Ret out
            /\ List.length out = List.length a
            /\ forall i, (i < List.length a)%nat ->
                 Add g (nth i a 0) (nth i b 0) = Ret (nth i out 0))).
Proof.
  unfold AddSlice, MulSlice, DivSlice. split.
  - intros Hne. apply Nat.eqb_neq in Hne. rewrite Hne. cbn [negb].
    repeat split; reflexivity.
  - intros Heq. rewrite (proj2 (Nat.eqb_eq _ _) Heq). cbn [negb].
    split; [|split; [|split]].
    + destruct (zip_exec_returns (fun x y => Ret (Mul g x y)) a b Heq)
        as (out & Hout & Hl & Hnth); [intros i _; eexists; reflexivity|].
      exists out. split; [exact Hout|]. split; [exact Hl|].
      intros i Hi. specialize (Hnth i Hi). congruence.
    + destruct (zip_exec_returns (fun x y => Ret (Div g x y)) a b Heq)
        as (out & Hout & Hl & Hnth); [intros i _; eexists; reflexivity|].
      exists out. split; [exact Hout|]. split; [exact Hl|].
      intros i Hi. specialize (Hnth i Hi). congruence.
    + apply zip_exec_panics. exact Heq.
    + apply zip_exec_returns. exact Heq.
Qed.

Lemma ScaleSlice_facts (g : Globals) (s : list Float16) (k : Float16) :
  List.length (ScaleSlice g s k) = List.length s
  /\ MulSlice g s (repeat k (List.length s)) = Ret (ScaleSlice g s k).
Proof.
  unfold ScaleSlice, MulSlice. rewrite length_map, repeat_length, Nat.eqb_refl.
  split; [reflexivity|]. cbn [negb].
  induction s as [|x s IH]; [reflexivity|].
  cbn [List.length repeat zip_exec map bind]. rewrite IH. reflexivity.
Qed.

(** X29.  The batch operations.  [AddSlice], [MulSlice] and [DivSlice]
    panic when the two slices differ in length.  On slices of equal length
    [MulSlice] and [DivSlice] return a slice of that length whose element
    [i] is [Mul] or [Div] of the elements [i]; [AddSlice] panics as soon
    as [Add] panics on one pair of elements, and otherwise returns the
    slice of the sums.  [ScaleSlice s k] is [MulSlice] of [s] and the
    slice that repeats [k]. *)
Theorem slice_operations (g : Globals) (a b : list Float16) (k : Float16) :
  (List.length a <> List.length b ->
     AddSlice g a b = Panic /\ MulSlice g a b = Panic /\ DivSlice g a b = Panic)
  /\ (List.length a = List.length b ->
      (exists out, MulSlice g a b = Ret out
         /\ List.length out = List.length a
         /\ forall i, (i < List.length a)%nat ->
              nth i out 0 = Mul g (nth i a 0) (nth i b 0))
      /\ (exists out, DivSlice g a b = Ret out
         /\ List.length out = List.length a
         /\ forall i, (i < List.length a)%nat ->
              nth i out 0 = Div g (nth i a 0) (nth i b 0))
      /\ ((exists i, (i < List.length a)%nat
                     /\ Add g (nth i a 0) (nth i b 0) = Panic) ->
          AddSlice g a b = Panic)
      /\ ((forall i, (i < List.length a)%nat ->
             exists v, Add g (nth i a 0) (nth i b 0) = Ret v) ->
          exists out, AddSlice g a b = Ret out
            /\ List.length out = List.length a
            /\ forall i, (i < List.length a)%nat ->
                 Add g (nth i a 0) (nth i b 0) = Ret (nth i out 0)))
  /\ List.length (ScaleSlice g a k) = List.length a
  /\ MulSlice g a (repeat k (List.length a)) = Ret (ScaleSlice g a k).
Proof.
  destruct (slice_facts g a b) as [H1 H2].
  destruct (ScaleSlice_facts g a k) as [H3 H4].
  split; [exact H1|]. split; [exact H2|]. split; [exact H3 | exact H4].
Qed.

Lemma slice_operations_witness :
  AddSlice initial_globals [0x3C00; 0x4000] [0x3C00] = Panic
  /\ AddSlice initial_globals [0x3C00; 0x4000] [0x3C00; 0x0020] = Panic
  /\ MulSlice initial_globals [0x3C00; 0x4000] [0x4200; 0x4200]
     = Ret (ScaleSlice initial_globals [0x3C00; 0x4000] 0x4200).
Proof.
  destruct (slice_operations initial_globals [0x3C00; 0x4000] [0x3C00] 0x4200)
    as (Hlen & _ & _ & Hscale).
  destruct (slice_operations initial_globals [0x3C00; 0x4000] [0x3C00; 0x0020]
              0x4200) as (_ & Heq & _).
  destruct (Heq eq_refl) as (_ & _ & Hpanic & _).
  split; [apply Hlen; discriminate|].
  split; [|exact Hscale].
  apply Hpanic. exists 1%nat. split; [apply Nat.lt_succ_diag_r | reflexivity].
Defined.
